(** * Building level of the traffic editor: data model, deletion, calibration
      and (de)serialization of [BuildingLevel] (building_level.cpp).

    The level is embedded as a record of immutable collections; every method
    of [BuildingLevel] becomes a function from the level before the call to
    the level after it (together with the returned value).  C++ [double] is
    the kernel's binary64 [float], C++ [int] is [Z]; conversions between the
    two are written out.  Accesses that C++ leaves undefined (indexing a
    vector out of range, converting an out-of-range double to int, signed
    overflow) and thrown exceptions are results in the [error] type. *)

From Stdlib Require Import ZArith Floats List Bool Lia.
From stdpp Require Import gmap strings list sorting.

Set Warnings "-inexact-float,-register-all".
Open Scope Z_scope.

(** ** Errors *)

Inductive error :=
| RuntimeError (msg : string)   (* throw std::runtime_error(msg) *)
| BadConversion                 (* yaml-cpp: node.as<T>() on an unsuitable node *)
| UndefinedBehavior.            (* the C++ standard gives the step no meaning *)

#[global] Instance result_ret : MRet (sum error) := fun A x => inr x.
#[global] Instance result_bind : MBind (sum error) :=
  fun A B f m => match m with inl e => inl e | inr x => f x end.

(** ** Conversions between [int] and [double] *)

Definition INT_MAX : Z := 2147483647.
Definition INT_MIN : Z := -2147483648.

(** [static_cast<double>(n)] for an [int]: exact, every [int] is a binary64 value. *)
Definition int_to_double (n : Z) : float :=
  if n <? 0 then PrimFloat.opp (PrimFloat.of_uint63 (Uint63.of_Z (- n)))
  else PrimFloat.of_uint63 (Uint63.of_Z n).

(** Implicit conversion of a [double] to [int]: truncation towards zero; the
    behaviour is undefined when the truncated value is not an [int]. *)
Definition double_to_int (f : float) : error + Z :=
  match Prim2SF f with
  | S754_zero _ => inr 0
  | S754_finite s m e =>
      let mag := if 0 <=? e then Z.pos m * 2 ^ e else Z.pos m / 2 ^ (- e) in
      let v := if s then - mag else mag in
      if (INT_MIN <=? v) && (v <=? INT_MAX) then inr v else inl UndefinedBehavior
  | _ => inl UndefinedBehavior
  end.

(** ** Parameters, vertices, edges, polygons, models, fiducials, layers

    The class declarations (param.h, vertex.h, edge.h, ...) are not part of
    the sources at hand; the records below hold the members that
    building_level.cpp reads or writes, under the names it uses. *)

Module Param.
Record t := mk {
  value_int : Z;
  value_double : float;
  value_string : string;
  value_bool : bool
}.
End Param.

(** What [Param()] constructs: [std::map::operator[]] stores it under a key
    that is missing.  Its members are whatever the absent constructor leaves
    in them, so it stays a parameter of the development. *)
Class ParamDefault := Param_default : Param.t.

(** [params[key]] on a non-const [std::map<std::string, Param>]: the value
    read, and the map afterwards (a missing key is inserted). *)
Definition params_index {PD : ParamDefault} (key : string)
    (params : gmap string Param.t) : Param.t * gmap string Param.t :=
  match params !! key with
  | Some p => (p, params)
  | None => (Param_default, <[key := Param_default]> params)
  end.

Module Vertex.
Record t := mk {
  x : float;
  y : float;
  name : string;
  selected : bool;
  params : gmap string Param.t
}.
Definition set_selected (b : bool) (v : t) : t :=
  mk (x v) (y v) (name v) b (params v).
End Vertex.

Module Edge.
(** [Edge::Type]: the four enumerators the level switches on; every other
    value of the enumeration takes the [default:] branch and is kept with
    its integer code. *)
Inductive Type_ := LANE | WALL | MEAS | DOOR | OTHER (code : Z).

Record t := mk {
  start_idx : Z;
  end_idx : Z;
  type : Type_;
  selected : bool;
  params : gmap string Param.t
}.
Definition set_selected (b : bool) (e : t) : t :=
  mk (start_idx e) (end_idx e) (type e) b (params e).
Definition set_idx (s e' : Z) (e : t) : t :=
  mk s e' (type e) (selected e) (params e).
Definition set_params (p : gmap string Param.t) (e : t) : t :=
  mk (start_idx e) (end_idx e) (type e) (selected e) p.
Definition is_meas (e : t) : bool :=
  match type e with MEAS => true | _ => false end.
End Edge.

Module Polygon.
Inductive Type_ := FLOOR | OTHER (code : Z).
Record t := mk {
  vertices : list Z;
  type : Type_;
  selected : bool
}.
Definition set_selected (b : bool) (p : t) : t :=
  mk (vertices p) (type p) b.
Definition set_vertices (vs : list Z) (p : t) : t :=
  mk vs (type p) (selected p).
End Polygon.

Module Model.
Record t := mk {
  x : float;
  y : float;
  yaw : float;
  model_name : string;
  selected : bool
}.
Definition set_selected (b : bool) (m : t) : t :=
  mk (x m) (y m) (yaw m) (model_name m) b.
End Model.

Module Fiducial.
Record t := mk {
  x : float;
  y : float;
  name : string;
  selected : bool
}.
Definition set_selected (b : bool) (f : t) : t :=
  mk (x f) (y f) (name f) b.
End Fiducial.

Module Layer.
Record t := mk {
  name : string;
  translation_x : float;
  translation_y : float;
  meters_per_pixel : float;
  rotation : float;
  visible : bool
}.
End Layer.

(** ** YAML nodes

    A parsed document: yaml-cpp keeps scalars as text and converts on
    [as<T>()]; here a scalar carries the value it converts to.  A map keeps
    its keys in insertion order, as yaml-cpp does. *)

Inductive YNode :=
| YNull
| YBool (b : bool)
| YInt (n : Z)
| YDouble (f : float)
| YString (s : string)
| YSeq (items : list YNode)
| YMap (entries : list (string * YNode)).

(** The entry list of a node used as a map ([Null] reads as the empty map). *)
Definition yentries (n : YNode) : list (string * YNode) :=
  match n with YMap m => m | _ => [] end.

(** [m[key]] read-only: the first entry under [key]. *)
Fixpoint yget (key : string) (m : list (string * YNode)) : option YNode :=
  match m with
  | [] => None
  | (k, v) :: m' => if String.eqb k key then Some v else yget key m'
  end.

(** [m[key] = v]: overwrite in place, or append a new entry. *)
Fixpoint yset (key : string) (v : YNode) (m : list (string * YNode))
    : list (string * YNode) :=
  match m with
  | [] => [(key, v)]
  | (k, w) :: m' =>
      if String.eqb k key then (k, v) :: m' else (k, w) :: yset key v m'
  end.

(** [node.push_back(v)]: a missing or [Null] node becomes a one-element
    sequence, a sequence grows at its end.  yaml-cpp refuses any other node
    (BadPushback); [to_yaml] never gets there, and the node is left as is. *)
Definition ypush_node (v : YNode) (o : option YNode) : YNode :=
  match o with
  | None | Some YNull => YSeq [v]
  | Some (YSeq l) => YSeq (l ++ [v])
  | Some n => n
  end.

(** [m[key].push_back(v)] *)
Definition ypush (key : string) (v : YNode) (m : list (string * YNode))
    : list (string * YNode) :=
  yset key (ypush_node v (yget key m)) m.

Definition IsMap (n : YNode) : bool :=
  match n with YMap _ => true | _ => false end.

(** [node[key]] on a const node: defined only for an entry of a map. *)
Definition yindex (n : YNode) (key : string) : option YNode :=
  yget key (yentries n).

Definition as_double (n : YNode) : error + float :=
  match n with
  | YDouble f => inr f
  | YInt z => inr (int_to_double z)
  | _ => inl BadConversion
  end.

Definition as_string (n : YNode) : error + string :=
  match n with
  | YString s => inr s
  | _ => inl BadConversion
  end.

(** ** The level *)

Module BuildingLevel.

(** The members of [Level] that building_level.cpp uses ([floorplan_pixmap]
    is kept as the two dimensions read from it). *)
Record t := mk {
  name : string;
  drawing_filename : string;
  drawing_width : Z;
  drawing_height : Z;
  drawing_meters_per_pixel : float;
  x_meters : float;
  y_meters : float;
  elevation : float;
  vertices : list Vertex.t;
  edges : list Edge.t;
  models : list Model.t;
  polygons : list Polygon.t;
  fiducials : list Fiducial.t;
  layers : list Layer.t
}.

Definition set_name (v : string) (l : t) : t :=
  mk v (drawing_filename l) (drawing_width l) (drawing_height l)
     (drawing_meters_per_pixel l) (x_meters l) (y_meters l) (elevation l)
     (vertices l) (edges l) (models l) (polygons l) (fiducials l) (layers l).
Definition set_drawing_filename (v : string) (l : t) : t :=
  mk (name l) v (drawing_width l) (drawing_height l)
     (drawing_meters_per_pixel l) (x_meters l) (y_meters l) (elevation l)
     (vertices l) (edges l) (models l) (polygons l) (fiducials l) (layers l).
Definition set_drawing_size (w h : Z) (l : t) : t :=
  mk (name l) (drawing_filename l) w h
     (drawing_meters_per_pixel l) (x_meters l) (y_meters l) (elevation l)
     (vertices l) (edges l) (models l) (polygons l) (fiducials l) (layers l).
Definition set_drawing_meters_per_pixel (v : float) (l : t) : t :=
  mk (name l) (drawing_filename l) (drawing_width l) (drawing_height l)
     v (x_meters l) (y_meters l) (elevation l)
     (vertices l) (edges l) (models l) (polygons l) (fiducials l) (layers l).
Definition set_meters (xm ym : float) (l : t) : t :=
  mk (name l) (drawing_filename l) (drawing_width l) (drawing_height l)
     (drawing_meters_per_pixel l) xm ym (elevation l)
     (vertices l) (edges l) (models l) (polygons l) (fiducials l) (layers l).
Definition set_elevation (v : float) (l : t) : t :=
  mk (name l) (drawing_filename l) (drawing_width l) (drawing_height l)
     (drawing_meters_per_pixel l) (x_meters l) (y_meters l) v
     (vertices l) (edges l) (models l) (polygons l) (fiducials l) (layers l).
Definition set_vertices (v : list Vertex.t) (l : t) : t :=
  mk (name l) (drawing_filename l) (drawing_width l) (drawing_height l)
     (drawing_meters_per_pixel l) (x_meters l) (y_meters l) (elevation l)
     v (edges l) (models l) (polygons l) (fiducials l) (layers l).
Definition set_edges (v : list Edge.t) (l : t) : t :=
  mk (name l) (drawing_filename l) (drawing_width l) (drawing_height l)
     (drawing_meters_per_pixel l) (x_meters l) (y_meters l) (elevation l)
     (vertices l) v (models l) (polygons l) (fiducials l) (layers l).
Definition set_models (v : list Model.t) (l : t) : t :=
  mk (name l) (drawing_filename l) (drawing_width l) (drawing_height l)
     (drawing_meters_per_pixel l) (x_meters l) (y_meters l) (elevation l)
     (vertices l) (edges l) v (polygons l) (fiducials l) (layers l).
Definition set_polygons (v : list Polygon.t) (l : t) : t :=
  mk (name l) (drawing_filename l) (drawing_width l) (drawing_height l)
     (drawing_meters_per_pixel l) (x_meters l) (y_meters l) (elevation l)
     (vertices l) (edges l) (models l) v (fiducials l) (layers l).
Definition set_fiducials (v : list Fiducial.t) (l : t) : t :=
  mk (name l) (drawing_filename l) (drawing_width l) (drawing_height l)
     (drawing_meters_per_pixel l) (x_meters l) (y_meters l) (elevation l)
     (vertices l) (edges l) (models l) (polygons l) v (layers l).
Definition set_layers (v : list Layer.t) (l : t) : t :=
  mk (name l) (drawing_filename l) (drawing_width l) (drawing_height l)
     (drawing_meters_per_pixel l) (x_meters l) (y_meters l) (elevation l)
     (vertices l) (edges l) (models l) (polygons l) (fiducials l) v.

(** *** [delete_selected] *)

(** The scan for the first selected vertex: [i] is the loop counter, the
    result is [-1] when the loop ends without a hit. *)
Fixpoint first_selected_from (i : Z) (vs : list Vertex.t) : Z :=
  match vs with
  | [] => -1
  | v :: vs' =>
      if Vertex.selected v then i else first_selected_from (i + 1) vs'
  end.

Definition edge_uses (idx : Z) (e : Edge.t) : bool :=
  (Edge.start_idx e =? idx) || (Edge.end_idx e =? idx).

(** The two loops that set [vertex_used]; neither leaves early. *)
Definition vertex_used (idx : Z) (es : list Edge.t) (ps : list Polygon.t)
    : bool :=
  let used :=
    fold_left (fun u e => if edge_uses idx e then true else u) es false in
  fold_left
    (fun u p =>
       fold_left (fun u' vertex_idx => if vertex_idx =? idx then true else u')
                 (Polygon.vertices p) u)
    ps used.

Definition decrement_above (idx : Z) (i : Z) : Z :=
  if i >? idx then i - 1 else i.

Definition reindex_edge (idx : Z) (e : Edge.t) : Edge.t :=
  Edge.set_idx (decrement_above idx (Edge.start_idx e))
               (decrement_above idx (Edge.end_idx e)) e.

Definition reindex_polygon (idx : Z) (p : Polygon.t) : Polygon.t :=
  Polygon.set_vertices (map (decrement_above idx) (Polygon.vertices p)) p.

(** The three erase/remove_if passes that open [delete_selected]. *)
Definition erase_selected (l : t) : t :=
  set_fiducials
    (List.filter (fun f => negb (Fiducial.selected f)) (fiducials l))
    (set_models
       (List.filter (fun m => negb (Model.selected m)) (models l))
       (set_edges
          (List.filter (fun e => negb (Edge.selected e)) (edges l)) l)).

Definition delete_selected (l : t) : bool * t :=
  let l := erase_selected l in
  let selected_vertex_idx := first_selected_from 0 (vertices l) in
  if selected_vertex_idx >=? 0 then
    if vertex_used selected_vertex_idx (edges l) (polygons l) then
      (false, l)
    else
      let l := set_vertices
                 (delete (Z.to_nat selected_vertex_idx) (vertices l)) l in
      let l := set_edges (map (reindex_edge selected_vertex_idx) (edges l)) l in
      let l := set_polygons
                 (map (reindex_polygon selected_vertex_idx) (polygons l)) l in
      (true, l)
  else (true, l).

(** *** [clear_selection] *)

Definition clear_selection (l : t) : t :=
  let l := set_vertices (map (Vertex.set_selected false) (vertices l)) l in
  let l := set_edges (map (Edge.set_selected false) (edges l)) l in
  let l := set_models (map (Model.set_selected false) (models l)) l in
  let l := set_polygons (map (Polygon.set_selected false) (polygons l)) l in
  set_fiducials (map (Fiducial.set_selected false) (fiducials l)) l.

(** *** [calculate_scale] *)

(** [vertices[i]] with an [int] index; outside the vector the access is
    undefined. *)
Definition vertex_at (vs : list Vertex.t) (i : Z) : error + Vertex.t :=
  if i <? 0 then inl UndefinedBehavior
  else match vs !! Z.to_nat i with
       | Some v => inr v
       | None => inl UndefinedBehavior
       end.

Definition DEFAULT_SCALE : float := 0.05%float.

Section calculate_scale.
Context {PD : ParamDefault}.

(** One iteration of the loop over [edges], on [(scale_sum, scale_count)];
    the edge comes back because [params[...]] may have inserted
    "distance" into its map. *)
Definition scale_step (vs : list Vertex.t) (acc : float * Z)
    (edge : Edge.t) : error + (float * Z * Edge.t) :=
  if Edge.is_meas edge then
    scale_count ←
      (if acc.2 <? INT_MAX then inr (acc.2 + 1) else inl UndefinedBehavior);
    v_start ← vertex_at vs (Edge.start_idx edge);
    v_end ← vertex_at vs (Edge.end_idx edge);
    let dx := (Vertex.x v_start - Vertex.x v_end)%float in
    let dy := (Vertex.y v_start - Vertex.y v_end)%float in
    let distance_pixels := PrimFloat.sqrt (dx * dx + dy * dy)%float in
    let p := params_index "distance" (Edge.params edge) in
    let distance_meters := Param.value_double p.1 in
    inr ((acc.1 + distance_meters / distance_pixels)%float, scale_count,
         Edge.set_params p.2 edge)
  else inr (acc, edge).

Fixpoint scale_loop (vs : list Vertex.t) (es : list Edge.t)
    (acc : float * Z) : error + (float * Z * list Edge.t) :=
  match es with
  | [] => inr (acc, [])
  | edge :: es' =>
      r ← scale_step vs acc edge;
      r' ← scale_loop vs es' r.1;
      inr (r'.1, r.2 :: r'.2)
  end.

Definition calculate_scale (l : t) : error + t :=
  r ← scale_loop (vertices l) (edges l) (0%float, 0);
  let scale_sum := r.1.1 in
  let scale_count := r.1.2 in
  let l := set_edges r.2 l in
  let l :=
    if scale_count >? 0 then
      set_drawing_meters_per_pixel
        (scale_sum / int_to_double scale_count)%float l
    else set_drawing_meters_per_pixel DEFAULT_SCALE l in
  if negb (drawing_width l =? 0) && negb (drawing_height l =? 0)
     && (0 <? drawing_meters_per_pixel l)%float
  then
    inr (set_meters
           (int_to_double (drawing_width l) * drawing_meters_per_pixel l)%float
           (int_to_double (drawing_height l) * drawing_meters_per_pixel l)%float
           l)
  else inr l.
End calculate_scale.

(** *** [to_yaml] and [from_yaml]

    The two methods exchange [YNode]s with the caller.  Of what they print,
    the two messages of [to_yaml] about unknown type tags are kept (as
    [LogEvent]s); the progress lines of [from_yaml] and [calculate_scale]
    are not. *)

(** The element classes' own (de)serializers, the two loaders of the base
    class [Level] and the image reader are not in the sources at hand:
    the level code is taken over any such functions.  [parse_vertices]
    and [load_yaml_edge_sequence] give the elements they append to
    [vertices] and [edges]; [read_image] gives the width and height of the
    image, or nothing when Qt cannot read the file. *)
Class YamlCodec := {
  Vertex_to_yaml : Vertex.t -> YNode;
  Fiducial_to_yaml : Fiducial.t -> YNode;
  Edge_to_yaml : Edge.t -> YNode;
  Model_to_yaml : Model.t -> YNode;
  Polygon_to_yaml : Polygon.t -> YNode;
  Layer_to_yaml : Layer.t -> YNode;
  parse_vertices : YNode -> error + list Vertex.t;
  load_yaml_edge_sequence : YNode -> string -> Edge.Type_ -> error + list Edge.t;
  Fiducial_from_yaml : YNode -> error + Fiducial.t;
  Model_from_yaml : YNode -> error + Model.t;
  Polygon_from_yaml : YNode -> Polygon.Type_ -> error + Polygon.t;
  Layer_from_yaml : string -> YNode -> error + Layer.t;
  read_image : string -> option (Z * Z)
}.

(** What [to_yaml] prints while it runs. *)
Inductive LogEvent :=
| UnknownEdgeType (code : Z)      (* "tried to save unknown edge type: %d" *)
| UnknownPolygonType (code : Z).  (* "tried to save an unknown polygon type: %d" *)

(** The [switch] over [edge.type]: the key the record goes under ... *)
Definition dict_name (ty : Edge.Type_) : string :=
  match ty with
  | Edge.LANE => "lanes"
  | Edge.WALL => "walls"
  | Edge.MEAS => "measurements"
  | Edge.DOOR => "doors"
  | Edge.OTHER _ => "unknown"
  end.

(** ... and what its [default:] branch prints. *)
Definition edge_report (ty : Edge.Type_) : list LogEvent :=
  match ty with
  | Edge.OTHER code => [UnknownEdgeType code]
  | _ => []
  end.

(** A loop [for (it : seq) { T x; x.from_yaml(it); xs.push_back(x); }]. *)
Fixpoint parse_items {A : Type} (f : YNode -> error + A)
    (items : list YNode) : error + list A :=
  match items with
  | [] => inr []
  | n :: items' => a ← f n; rest ← parse_items f items'; inr (a :: rest)
  end.

Fixpoint parse_entries {A : Type} (f : string -> YNode -> error + A)
    (entries : list (string * YNode)) : error + list A :=
  match entries with
  | [] => inr []
  | (k, n) :: entries' =>
      a ← f k n; rest ← parse_entries f entries'; inr (a :: rest)
  end.

(** The items of [_data[key]] when it is there and a sequence. *)
Definition sequence_at (data : YNode) (key : string) : list YNode :=
  match yindex data key with
  | Some (YSeq items) => items
  | _ => []
  end.

Section yaml.
Context {PD : ParamDefault} {YC : YamlCodec}.

(** The head of the node: the drawing block or the physical dimensions,
    and the elevation. *)
Definition to_yaml_header (l : t) : list (string * YNode) :=
  let y : list (string * YNode) := [] in
  let y :=
    if negb (String.eqb (drawing_filename l) "") then
      yset "drawing" (YMap [("filename", YString (drawing_filename l))]) y
    else
      yset "y_meters" (YDouble (y_meters l))
           (yset "x_meters" (YDouble (x_meters l)) y) in
  yset "elevation" (YDouble (elevation l)) y.

(** The body of the loop over [edges], on the node and the output. *)
Definition push_edge (yl : list (string * YNode) * list LogEvent)
    (edge : Edge.t) : list (string * YNode) * list LogEvent :=
  (ypush (dict_name (Edge.type edge)) (Edge_to_yaml edge) yl.1,
   yl.2 ++ edge_report (Edge.type edge)).

(** The body of the loop over [polygons]. *)
Definition push_polygon (yl : list (string * YNode) * list LogEvent)
    (polygon : Polygon.t) : list (string * YNode) * list LogEvent :=
  match Polygon.type polygon with
  | Polygon.FLOOR => (ypush "floors" (Polygon_to_yaml polygon) yl.1, yl.2)
  | Polygon.OTHER code => (yl.1, yl.2 ++ [UnknownPolygonType code])
  end.

(** [y["layers"][layer.name] = layer.to_yaml()] *)
Definition set_layer (y : list (string * YNode)) (layer : Layer.t)
    : list (string * YNode) :=
  match yget "layers" y with
  | Some layers_node =>
      yset "layers"
           (YMap (yset (Layer.name layer) (Layer_to_yaml layer)
                       (yentries layers_node))) y
  | None => y
  end.

Definition to_yaml (l : t) : YNode * list LogEvent :=
  let y := to_yaml_header l in
  let y :=
    fold_left (fun y v => ypush "vertices" (Vertex_to_yaml v) y)
              (vertices l) y in
  let y :=
    fold_left (fun y f => ypush "fiducials" (Fiducial_to_yaml f) y)
              (fiducials l) y in
  let yl := fold_left push_edge (edges l) (y, []) in
  let y :=
    fold_left (fun y model => ypush "models" (Model_to_yaml model) y)
              (models l) yl.1 in
  let yl := fold_left push_polygon (polygons l) (y, yl.2) in
  let y := yset "layers" (YMap []) yl.1 in
  let y := fold_left set_layer (layers l) y in
  (YMap y, yl.2).

(** The collections read between the drawing block and the final
    [calculate_scale()] (lines 95-147 of the source). *)
Definition load_collections (l : t) (_data : YNode) : error + t :=
  vs ← parse_vertices _data;
  let l := set_vertices (vertices l ++ vs) l in
  fs ← parse_items Fiducial_from_yaml (sequence_at _data "fiducials");
  let l := set_fiducials (fiducials l ++ fs) l in
  lanes ← load_yaml_edge_sequence _data "lanes" Edge.LANE;
  let l := set_edges (edges l ++ lanes) l in
  walls ← load_yaml_edge_sequence _data "walls" Edge.WALL;
  let l := set_edges (edges l ++ walls) l in
  meas ← load_yaml_edge_sequence _data "measurements" Edge.MEAS;
  let l := set_edges (edges l ++ meas) l in
  doors ← load_yaml_edge_sequence _data "doors" Edge.DOOR;
  let l := set_edges (edges l ++ doors) l in
  ms ← parse_items Model_from_yaml (sequence_at _data "models");
  let l := set_models (models l ++ ms) l in
  ps ← parse_items (fun n => Polygon_from_yaml n Polygon.FLOOR)
                   (sequence_at _data "floors");
  let l := set_polygons (polygons l ++ ps) l in
  l ← match yindex _data "elevation" with
      | Some n => e ← as_double n; inr (set_elevation e l)
      | None => inr l
      end;
  ls ← match yindex _data "layers" with
       | Some (YMap entries) => parse_entries Layer_from_yaml entries
       | _ => inr []
       end;
  inr (set_layers (layers l ++ ls) l).

(** The first [if]/[else if]/[else] of [from_yaml]: the level with its
    drawing metadata set, or the level as it is when the method returns
    [false] there (on the left). *)
Definition load_drawing (l : t) (_data : YNode) : error + (t + t) :=
  match yindex _data "drawing" with
  | Some (YMap _ as drawing_data) =>
      match yindex drawing_data "filename" with
      | None =>
          inl (RuntimeError ("level " ++ name l ++ " drawing invalid"))
      | Some fn =>
          filename ← as_string fn;
          let l := set_drawing_filename filename l in
          match read_image filename with
          | None => inr (inl l)
          | Some (w, h) => inr (inr (set_drawing_size w h l))
          end
      end
  | _ =>
      match yindex _data "x_meters", yindex _data "y_meters" with
      | Some xn, Some yn =>
          xm ← as_double xn;
          ym ← as_double yn;
          let l := set_meters xm ym l in
          let l := set_drawing_meters_per_pixel 0.05%float l in
          w ← double_to_int (x_meters l / drawing_meters_per_pixel l)%float;
          h ← double_to_int (y_meters l / drawing_meters_per_pixel l)%float;
          inr (inr (set_drawing_size w h l))
      | _, _ =>
          let l := set_meters 100%float 100%float l in
          let l := set_drawing_meters_per_pixel 0.05%float l in
          w ← double_to_int (x_meters l / drawing_meters_per_pixel l)%float;
          h ← double_to_int (y_meters l / drawing_meters_per_pixel l)%float;
          inr (inr (set_drawing_size w h l))
      end
  end.

Definition from_yaml (l : t) (_name : string) (_data : YNode)
    : error + (bool * t) :=
  let l := set_name _name l in
  if negb (IsMap _data) then
    inl (RuntimeError ("level " ++ name l ++ " YAML invalid"))
  else
    r ← load_drawing l _data;
    match r with
    | inl l => inr (false, l)
    | inr l =>
        l ← load_collections l _data;
        l ← calculate_scale l;
        inr (true, l)
    end.
End yaml.

End BuildingLevel.

(** ** A concrete codec and default parameter, to run the level code *)

Module SampleCodec.
Import BuildingLevel.

(** Modelled from the spec: the record formats of the element classes
    (vertex.cpp, edge.cpp, polygon.cpp, model.cpp, fiducial.cpp, layer.cpp),
    the loaders [parse_vertices] and [load_yaml_edge_sequence] of level.cpp
    and the image reader are missing from the sources.  Section 6 of the
    specification lists vertex records, edge records "tagged by their
    container name", placed-model records (position, yaw, name), polygon
    records (vertex-index lists) and layer records; the formats below are
    the plainest ones of that shape.  They only serve to evaluate
    [to_yaml] and [from_yaml] on concrete documents. *)
Definition vertex_to_yaml (v : Vertex.t) : YNode :=
  YSeq [YDouble (Vertex.x v); YDouble (Vertex.y v); YString (Vertex.name v)].

Definition vertex_from_yaml (n : YNode) : error + Vertex.t :=
  match n with
  | YSeq [xn; yn; YString nm] =>
      x ← as_double xn; y ← as_double yn; inr (Vertex.mk x y nm false ∅)
  | _ => inl BadConversion
  end.

Definition param_to_yaml (kp : string * Param.t) : string * YNode :=
  (kp.1, YDouble (Param.value_double kp.2)).

Definition param_from_yaml (k : string) (n : YNode)
    : error + (string * Param.t) :=
  d ← as_double n; inr (k, Param.mk 0 d "" false).

Definition edge_to_yaml (e : Edge.t) : YNode :=
  YSeq [YInt (Edge.start_idx e); YInt (Edge.end_idx e);
        YMap (map param_to_yaml (map_to_list (Edge.params e)))].

Definition edge_from_yaml (ty : Edge.Type_) (n : YNode) : error + Edge.t :=
  match n with
  | YSeq [YInt s; YInt e; YMap ps] =>
      kps ← parse_entries param_from_yaml ps;
      inr (Edge.mk s e ty false (list_to_map kps))
  | _ => inl BadConversion
  end.

Definition fiducial_to_yaml (f : Fiducial.t) : YNode :=
  YSeq [YDouble (Fiducial.x f); YDouble (Fiducial.y f);
        YString (Fiducial.name f)].

Definition fiducial_from_yaml (n : YNode) : error + Fiducial.t :=
  match n with
  | YSeq [xn; yn; YString nm] =>
      x ← as_double xn; y ← as_double yn; inr (Fiducial.mk x y nm false)
  | _ => inl BadConversion
  end.

Definition model_to_yaml (m : Model.t) : YNode :=
  YSeq [YDouble (Model.x m); YDouble (Model.y m); YDouble (Model.yaw m);
        YString (Model.model_name m)].

Definition model_from_yaml (n : YNode) : error + Model.t :=
  match n with
  | YSeq [xn; yn; wn; YString nm] =>
      x ← as_double xn; y ← as_double yn; w ← as_double wn;
      inr (Model.mk x y w nm false)
  | _ => inl BadConversion
  end.

Definition polygon_to_yaml (p : Polygon.t) : YNode :=
  YSeq (map YInt (Polygon.vertices p)).

Definition index_from_yaml (n : YNode) : error + Z :=
  match n with YInt i => inr i | _ => inl BadConversion end.

Definition polygon_from_yaml (n : YNode) (ty : Polygon.Type_)
    : error + Polygon.t :=
  match n with
  | YSeq items =>
      vs ← parse_items index_from_yaml items; inr (Polygon.mk vs ty false)
  | _ => inl BadConversion
  end.

Definition layer_to_yaml (l : Layer.t) : YNode :=
  YSeq [YDouble (Layer.translation_x l); YDouble (Layer.translation_y l);
        YDouble (Layer.meters_per_pixel l); YDouble (Layer.rotation l);
        YBool (Layer.visible l)].

Definition layer_from_yaml (name : string) (n : YNode) : error + Layer.t :=
  match n with
  | YSeq [txn; tyn; sn; rn; YBool v] =>
      tx ← as_double txn; ty ← as_double tyn;
      s ← as_double sn; r ← as_double rn;
      inr (Layer.mk name tx ty s r v)
  | _ => inl BadConversion
  end.

Definition codec : YamlCodec := {|
  Vertex_to_yaml := vertex_to_yaml;
  Fiducial_to_yaml := fiducial_to_yaml;
  Edge_to_yaml := edge_to_yaml;
  Model_to_yaml := model_to_yaml;
  Polygon_to_yaml := polygon_to_yaml;
  Layer_to_yaml := layer_to_yaml;
  parse_vertices := fun d =>
    parse_items vertex_from_yaml (sequence_at d "vertices");
  load_yaml_edge_sequence := fun d key ty =>
    parse_items (edge_from_yaml ty) (sequence_at d key);
  Fiducial_from_yaml := fiducial_from_yaml;
  Model_from_yaml := model_from_yaml;
  Polygon_from_yaml := polygon_from_yaml;
  Layer_from_yaml := layer_from_yaml;
  read_image := fun _ => None
|}.

(** A [Param()] with every member zeroed. *)
Definition param_default : ParamDefault := Param.mk 0 0%float "" false.

(** A freshly constructed level: nothing loaded yet. *)
Definition empty_level : BuildingLevel.t :=
  BuildingLevel.mk "" "" 0 0 0.05%float 10%float 10%float 0%float
                   [] [] [] [] [] [].
End SampleCodec.

(** ** The statements of the specification, in terms of the level *)

Import BuildingLevel.

(** Vertex [idx] occurs as an endpoint of an edge of [es] or in the vertex
    list of a polygon of [ps]. *)
Definition referenced (idx : Z) (es : list Edge.t) (ps : list Polygon.t)
    : Prop :=
  (exists e, In e es /\ (Edge.start_idx e = idx \/ Edge.end_idx e = idx))
  \/ (exists p, In p ps /\ In idx (Polygon.vertices p)).

(** The same, counting only the edges that are not selected themselves. *)
Definition referenced_by_kept (idx : Z) (l : BuildingLevel.t) : Prop :=
  (exists e, In e (edges l) /\ Edge.selected e = false
             /\ (Edge.start_idx e = idx \/ Edge.end_idx e = idx))
  \/ (exists p, In p (polygons l) /\ In idx (Polygon.vertices p)).

(** The same, counting only the edges and the polygons that are not
    selected themselves: the references that are meant to outlive the
    erasure of the selected elements. *)
Definition referenced_by_unselected (idx : Z) (l : BuildingLevel.t) : Prop :=
  (exists e, In e (edges l) /\ Edge.selected e = false
             /\ (Edge.start_idx e = idx \/ Edge.end_idx e = idx))
  \/ (exists p, In p (polygons l) /\ Polygon.selected p = false
                /\ In idx (Polygon.vertices p)).

(** Deletion refusal (P2) as the specification words it, at one level: the
    first selected vertex is referenced, so the call fails and changes
    neither the vertex count nor the edges nor the polygons. *)
Definition refusal_changes_nothing (l : BuildingLevel.t) : Prop :=
  0 <= first_selected_from 0 (vertices l) ->
  referenced (first_selected_from 0 (vertices l)) (edges l) (polygons l) ->
  (delete_selected l).1 = false
  /\ length (vertices (delete_selected l).2) = length (vertices l)
  /\ edges (delete_selected l).2 = edges l
  /\ polygons (delete_selected l).2 = polygons l.

(** A stored index after the deletion of vertex [idx]: one less when it was
    above [idx], the same otherwise. *)
Definition shifted (idx i i' : Z) : Prop :=
  (idx < i -> i' = i - 1) /\ (i <= idx -> i' = i).

Definition edge_shifted (idx : Z) (e e' : Edge.t) : Prop :=
  shifted idx (Edge.start_idx e) (Edge.start_idx e')
  /\ shifted idx (Edge.end_idx e) (Edge.end_idx e')
  /\ Edge.type e' = Edge.type e
  /\ Edge.selected e' = Edge.selected e
  /\ Edge.params e' = Edge.params e.

Definition polygon_shifted (idx : Z) (p p' : Polygon.t) : Prop :=
  Forall2 (shifted idx) (Polygon.vertices p) (Polygon.vertices p')
  /\ Polygon.type p' = Polygon.type p
  /\ Polygon.selected p' = Polygon.selected p.

(** Everything but the selection flag agrees. *)
Definition same_vertex (v v' : Vertex.t) : Prop :=
  Vertex.x v' = Vertex.x v /\ Vertex.y v' = Vertex.y v
  /\ Vertex.name v' = Vertex.name v /\ Vertex.params v' = Vertex.params v.
Definition same_edge (e e' : Edge.t) : Prop :=
  Edge.start_idx e' = Edge.start_idx e /\ Edge.end_idx e' = Edge.end_idx e
  /\ Edge.type e' = Edge.type e /\ Edge.params e' = Edge.params e.
Definition same_model (m m' : Model.t) : Prop :=
  Model.x m' = Model.x m /\ Model.y m' = Model.y m
  /\ Model.yaw m' = Model.yaw m /\ Model.model_name m' = Model.model_name m.
Definition same_polygon (p p' : Polygon.t) : Prop :=
  Polygon.vertices p' = Polygon.vertices p /\ Polygon.type p' = Polygon.type p.
Definition same_fiducial (f f' : Fiducial.t) : Prop :=
  Fiducial.x f' = Fiducial.x f /\ Fiducial.y f' = Fiducial.y f
  /\ Fiducial.name f' = Fiducial.name f.

(** *** Calibration *)

Section scale_spec.
Context {PD : ParamDefault}.

(** The edge's "distance" parameter, in meters. *)
Definition distance_parameter (e : Edge.t) : float :=
  match Edge.params e !! "distance" with
  | Some p => Param.value_double p
  | None => Param.value_double Param_default
  end.

Definition euclidean (a b : Vertex.t) : float :=
  PrimFloat.sqrt
    ((Vertex.x a - Vertex.x b) * (Vertex.x a - Vertex.x b)
     + (Vertex.y a - Vertex.y b) * (Vertex.y a - Vertex.y b))%float.

(** Pixel distance between the endpoints of [e], when both exist. *)
Definition pixel_distance (vs : list Vertex.t) (e : Edge.t) : option float :=
  match vs !! Z.to_nat (Edge.start_idx e), vs !! Z.to_nat (Edge.end_idx e) with
  | Some a, Some b => Some (euclidean a b)
  | _, _ => None
  end.

Definition scale_ratio (vs : list Vertex.t) (e : Edge.t) : option float :=
  match pixel_distance vs e with
  | Some d => Some (distance_parameter e / d)%float
  | None => None
  end.

(** The ratios of the measurement edges, in the order of the edges. *)
Definition measurement_ratios (l : BuildingLevel.t) : list float :=
  omap (scale_ratio (vertices l)) (List.filter Edge.is_meas (edges l)).

Definition arithmetic_mean (rs : list float) : float :=
  (fold_left PrimFloat.add rs 0 / int_to_double (Z.of_nat (length rs)))%float.

(** What the specification says [calculate_scale] stores. *)
Definition mean_scale (l : BuildingLevel.t) : float :=
  match measurement_ratios l with
  | [] => 0.05%float
  | rs => arithmetic_mean rs
  end.
End scale_spec.

Definition endpoints_in_range (vs : list Vertex.t) (e : Edge.t) : Prop :=
  (0 <= Edge.start_idx e < Z.of_nat (length vs))
  /\ (0 <= Edge.end_idx e < Z.of_nat (length vs)).

(** The levels on which [calculate_scale] stays within defined behaviour:
    invariant I1 for the measurement edges, and a number of them that an
    [int] can hold. *)
Definition measurable (l : BuildingLevel.t) : Prop :=
  Forall (fun e => Edge.is_meas e = true -> endpoints_in_range (vertices l) e)
         (edges l)
  /\ Z.of_nat (length (List.filter Edge.is_meas (edges l))) <= INT_MAX.

(** "Within floating-point tolerance": a relative error of at most 1e-9. *)
Definition within_tolerance (a b : float) : Prop :=
  (PrimFloat.abs (a - b) <=? 1e-9 * (PrimFloat.abs a + PrimFloat.abs b))%float
  = true.

(** Physical-dimension consistency (P7, I4) of one level. *)
Definition dimensions_consistent (l : BuildingLevel.t) : Prop :=
  within_tolerance (x_meters l)
    (int_to_double (drawing_width l) * drawing_meters_per_pixel l)%float
  /\ within_tolerance (y_meters l)
    (int_to_double (drawing_height l) * drawing_meters_per_pixel l)%float.

(** The guard in front of the last two assignments of [calculate_scale]. *)
Definition dimensions_guard (l : BuildingLevel.t) : bool :=
  negb (drawing_width l =? 0) && negb (drawing_height l =? 0)
  && (0 <? drawing_meters_per_pixel l)%float.

(** *** Serialization *)

Definition known_edge (e : Edge.t) : bool :=
  match Edge.type e with Edge.OTHER _ => false | _ => true end.
Definition floor_polygon (p : Polygon.t) : bool :=
  match Polygon.type p with Polygon.FLOOR => true | _ => false end.


Definition polygon_report (p : Polygon.t) : list LogEvent :=
  match Polygon.type p with
  | Polygon.OTHER c => [UnknownPolygonType c]
  | Polygon.FLOOR => []
  end.

(** A sequence node as [push_back] builds it: absent until the first item. *)
Definition seq_of (items : list YNode) : option YNode :=
  match items with [] => None | _ => Some (YSeq items) end.

(** The level without the elements whose type tag is not recognised. *)
Definition without_unknown_polygons (l : BuildingLevel.t) : BuildingLevel.t :=
  set_polygons (List.filter floor_polygon (polygons l)) l.
Definition without_unknown (l : BuildingLevel.t) : BuildingLevel.t :=
  set_edges (List.filter known_edge (edges l)) (without_unknown_polygons l).

(** "Skipped" as the specification words it: the emitted node is the one
    the level would give without its unrecognised edges and polygons. *)
Definition unknown_skipped {YC : YamlCodec} (l : BuildingLevel.t) : Prop :=
  (to_yaml l).1 = (to_yaml (without_unknown l)).1.

(** The node has no drawing block. *)
Definition no_drawing (d : YNode) : Prop := yindex d "drawing" = None.

(** The level named [_name] once [from_yaml] has taken the physical
    dimensions [xm] x [ym] (meters) and set the drawing to [w] x [h] pixels
    at 0.05 meters per pixel. *)
Definition without_drawing (xm ym : float) (w h : Z) (_name : string)
    (l : BuildingLevel.t) : BuildingLevel.t :=
  set_drawing_size w h
    (set_drawing_meters_per_pixel 0.05%float
       (set_meters xm ym (set_name _name l))).

(** ** Concrete levels and documents *)

Module Examples.
Definition vtx (x y : float) (sel : bool) : Vertex.t :=
  Vertex.mk x y "" sel ∅.
Definition wall (s e : Z) (sel : bool) : Edge.t :=
  Edge.mk s e Edge.WALL sel ∅.
Definition measurement (s e : Z) (d : float) : Edge.t :=
  Edge.mk s e Edge.MEAS false {[ "distance" := Param.mk 0 d "" false ]}.
Definition level (dw dh : Z) (xm ym : float) (vs : list Vertex.t)
    (es : list Edge.t) (ps : list Polygon.t) : BuildingLevel.t :=
  BuildingLevel.mk "L1" "" dw dh 0.05%float xm ym 0%float vs es [] ps [] [].

(** Vertex 0 is selected, and the only edge at it is selected as well. *)
Definition selected_vertex_and_edge : BuildingLevel.t :=
  level 200 400 10 20 [vtx 0 0 true; vtx 50 0 false] [wall 0 1 true] [].

(** Vertex 0 is selected and used by a wall that is not; the wall
    between 1 and 2 is selected. *)
Definition selected_vertex_in_use : BuildingLevel.t :=
  level 200 400 10 20
        [vtx 0 0 true; vtx 50 0 false; vtx 50 50 false]
        [wall 0 1 false; wall 1 2 true] [Polygon.mk [1; 2] Polygon.FLOOR false].

(** Nothing but one floor polygon is selected. *)
Definition selected_polygon : BuildingLevel.t :=
  level 200 400 10 20
        [vtx 0 0 false; vtx 50 0 false; vtx 50 50 false] []
        [Polygon.mk [0; 1; 2] Polygon.FLOOR true].

(** P3: four vertices, an edge (1,3), the unused vertex 2 selected. *)
Definition four_vertices : BuildingLevel.t :=
  level 200 400 10 20
        [vtx 0 0 false; vtx 10 0 false; vtx 20 0 true; vtx 30 0 false]
        [wall 1 3 false] [].

(** A measurement edge between two vertices at the same place. *)
Definition coincident_measurement : BuildingLevel.t :=
  level 200 400 10 20 [vtx 10 10 false; vtx 10 10 false]
        [measurement 0 1 5] [].

(** P6: pixel distances 100 and 200, stated distances 5 m and 8 m. *)
Definition two_measurements : BuildingLevel.t :=
  level 200 400 10 20
        [vtx 0 0 false; vtx 100 0 false; vtx 0 200 false]
        [measurement 0 1 5; wall 1 2 false; measurement 0 2 8] [].

(** A level whose drawing has no pixel size. *)
Definition no_pixel_size : BuildingLevel.t :=
  level 0 0 10 10 [] [] [].

(** The scenario of the specification: only the physical dimensions. *)
Definition doc_dimensions : YNode :=
  YMap [("x_meters", YDouble 10); ("y_meters", YDouble 20)].

(** The same dimensions, and a 10 m measurement over 100 pixels. *)
Definition doc_measured : YNode :=
  YMap [("x_meters", YDouble 10); ("y_meters", YDouble 20);
        ("vertices",
         YSeq [YSeq [YDouble 0; YDouble 0; YString "a"];
               YSeq [YDouble 100; YDouble 0; YString "b"]]);
        ("measurements",
         YSeq [YSeq [YInt 0; YInt 1; YMap [("distance", YDouble 10)]]])].

Definition doc_empty : YNode := YMap [].

(** One wall, and one edge of a type the level does not know. *)
Definition unknown_edge : Edge.t := Edge.mk 0 1 (Edge.OTHER 0) false ∅.
Definition with_unknown_edge : BuildingLevel.t :=
  level 200 400 10 20 [vtx 0 0 false; vtx 50 0 false]
        [wall 0 1 false; unknown_edge]
        [Polygon.mk [0; 1] (Polygon.OTHER 2) false].
End Examples.

(** ** Tags (gui/tag.cpp)

    A tag is a named point of a level with its own parameter map and a
    [QUuid].  [QUuid] is a 128-bit value compared with [==]; it is kept as
    a number.  [QUuid::createUuid()] draws a new one at random: the
    constructors take the value drawn as an argument. *)

Definition QUuid : Type := N.

(** [Param::from_yaml], [Param::to_yaml] and [Param::set] are declared in
    param.h, which is not part of the sources at hand: the tag code is
    taken over any such functions. *)
Class ParamCodec := {
  Param_from_yaml : YNode -> error + Param.t;
  Param_to_yaml : Param.t -> YNode;
  Param_set : Param.t -> string -> Param.t
}.

(** [std::round]: to the nearest integer, halfway cases away from zero;
    zeros, infinities and NaN are returned as they are.  A finite double
    with a non-negative exponent is an integer already. *)
Definition std_round (f : float) : float :=
  match Prim2SF f with
  | S754_finite s m e =>
      if 0 <=? e then f
      else
        let d := 2 ^ (- e) in
        let q := Z.pos m / d in
        let r := Z.pos m mod d in
        let n := if d <=? 2 * r then q + 1 else q in
        let a := PrimFloat.of_uint63 (Uint63.of_Z n) in
        if s then PrimFloat.opp a else a
  | _ => f
  end.

(** The order in which a [std::map<std::string, _>] is iterated: by key,
    bytewise. *)
Definition key_le {A : Type} (a b : string * A) : Prop :=
  String.leb a.1 b.1 = true.

#[global] Instance key_le_dec {A : Type} : RelDecision (@key_le A) :=
  fun a b => bool_eq_dec (String.leb a.1 b.1) true.

Definition in_key_order {A : Type} (m : gmap string A) : list (string * A) :=
  merge_sort key_le (map_to_list m).

Module Tag.
Record t := mk {
  x : float;
  y : float;
  name : string;
  selected : bool;
  uuid : QUuid;
  params : gmap string Param.t
}.

Definition set_xy (x' y' : float) (tag : t) : t :=
  mk x' y' (name tag) (selected tag) (uuid tag) (params tag).
Definition set_name (n : string) (tag : t) : t :=
  mk (x tag) (y tag) n (selected tag) (uuid tag) (params tag).
Definition set_params (p : gmap string Param.t) (tag : t) : t :=
  mk (x tag) (y tag) (name tag) (selected tag) (uuid tag) p.

(** [Tag::Tag()] and [Tag::Tag(_x, _y, _name)], [fresh] being the uuid
    drawn. *)
Definition create (fresh : QUuid) : t := mk 0%float 0%float "" false fresh ∅.
Definition create_at (fresh : QUuid) (_x _y : float) (_name : string) : t :=
  mk _x _y _name false fresh ∅.

(** What [set_param] prints. *)
Inductive LogEvent :=
| UnknownParameter (param_name : string).
    (* "tried to set unknown parameter [%s]" *)

Section tag.
Context {PC : ParamCodec}.

(** The loop over [data[4]]: every entry is parsed and stored under its
    key, in the map the tag already has. *)
Fixpoint load_params (entries : list (string * YNode))
    (ps : gmap string Param.t) : error + gmap string Param.t :=
  match entries with
  | [] => inr ps
  | (k, n) :: entries' =>
      p ← Param_from_yaml n;
      load_params entries' (<[k := p]> ps)
  end.

(** [data[i].as<double>()] on a sequence: an index past the end gives an
    invalid node, which does not convert. *)
Definition item_as_double (items : list YNode) (i : nat) : error + float :=
  match items !! i with
  | Some n => as_double n
  | None => inl BadConversion
  end.

Definition item_as_string (items : list YNode) (i : nat) : error + string :=
  match items !! i with
  | Some n => as_string n
  | None => inl BadConversion
  end.

Definition from_yaml (this : t) (data : YNode) : error + t :=
  match data with
  | YSeq items =>
      x' ← item_as_double items 0;
      y' ← item_as_double items 1;
      let this := set_xy x' y' this in
      if (length items <? 4)%nat then inr this
      else
        name' ← item_as_string items 3;
        let this := set_name name' this in
        (* [data.size() >= 4] holds here; [data[4]] may be missing, and
           then, as for a scalar, there is nothing to iterate over; the
           items of a sequence have no key to convert *)
        ps ← match items !! 4%nat with
             | Some (YMap entries) => load_params entries (params this)
             | Some (YSeq (_ :: _)) => inl BadConversion
             | _ => inr (params this)
             end;
        inr (set_params ps this)
  | _ => inl (RuntimeError "Tag::from_yaml expected a sequence")
  end.

(** [std::round(v * 1000.0) / 1000.0] *)
Definition round3 (v : float) : float :=
  (std_round (v * 1000) / 1000)%float.

Definition to_yaml (tag : t) : YNode :=
  let tag_node :=
    [YDouble (round3 (x tag)); YDouble (round3 (y tag)); YDouble 0%float;
     YString (name tag)] in
  if bool_decide (params tag = ∅) then YSeq tag_node
  else
    let params_node :=
      fold_left (fun node param => yset param.1 (Param_to_yaml param.2) node)
                (in_key_order (params tag)) [] in
    YSeq (tag_node ++ [YMap params_node]).

Definition set_param (this : t) (param_name value : string)
    : t * list LogEvent :=
  match params this !! param_name with
  | None => (this, [UnknownParameter param_name])
  | Some p =>
      (set_params (<[param_name := Param_set p value]> (params this)) this, [])
  end.
End tag.

Definition is_april_tag (tag : t) : bool :=
  match params tag !! "is_april_tag" with
  | None => false
  | Some p => Param.value_bool p
  end.

Definition is_signage (tag : t) : bool :=
  match params tag !! "is_signage" with
  | None => false
  | Some p => Param.value_bool p
  end.
End Tag.

(** ** The building and its undo commands (gui/actions)

    building.h is not part of the sources at hand.  The commands reach a
    level as [_building->levels[_level_idx]] and use its [tags] and
    [vertices]: a level here is the level of building_level.cpp together
    with its tags. *)

Module Building.
Record Level := mkLevel {
  base : BuildingLevel.t;
  tags : list Tag.t
}.
Record t := mk { levels : list Level }.

Definition set_tags (ts : list Tag.t) (lv : Level) : Level :=
  mkLevel (base lv) ts.
Definition set_vertices (vs : list Vertex.t) (lv : Level) : Level :=
  mkLevel (BuildingLevel.set_vertices vs (base lv)) (tags lv).

(** [xs[i]] on a [std::vector] with an [int] index: undefined outside. *)
Definition at_index {A : Type} (xs : list A) (i : Z) : error + A :=
  if i <? 0 then inl UndefinedBehavior
  else match xs !! Z.to_nat i with
       | Some a => inr a
       | None => inl UndefinedBehavior
       end.

(** [levels[i] = lv], for an index that [at_index] accepted. *)
Definition set_level (i : Z) (lv : Level) (b : t) : t :=
  mk (<[Z.to_nat i := lv]> (levels b)).
End Building.

Module MoveTagCommand.
(** [_x] and [_y] hold nothing until [set_final_destination] has run. *)
Record t := mk {
  has_moved : bool;
  _level_idx : Z;
  _to_move : Tag.t;
  _x : option float;
  _y : option float
}.

Definition create (building : Building.t) (level_idx mouse_tag_idx : Z)
    : error + t :=
  lv ← Building.at_index (Building.levels building) level_idx;
  tag ← Building.at_index (Building.tags lv) mouse_tag_idx;
  inr (mk false level_idx tag None None).

Definition set_final_destination (x y : float) (c : t) : t :=
  mk true (_level_idx c) (_to_move c) (Some x) (Some y).

(** The loop of [undo] and [redo]: every tag with the uuid gets the
    position. *)
Definition place (id : QUuid) (x y : float) (tags : list Tag.t)
    : list Tag.t :=
  map (fun tag => if N.eqb (Tag.uuid tag) id then Tag.set_xy x y tag else tag)
      tags.

Definition undo (c : t) (building : Building.t) : error + Building.t :=
  lv ← Building.at_index (Building.levels building) (_level_idx c);
  let tags :=
    place (Tag.uuid (_to_move c)) (Tag.x (_to_move c)) (Tag.y (_to_move c))
          (Building.tags lv) in
  inr (Building.set_level (_level_idx c) (Building.set_tags tags lv) building).

Definition redo (c : t) (building : Building.t) : error + Building.t :=
  lv ← Building.at_index (Building.levels building) (_level_idx c);
  match _x c, _y c with
  | Some x, Some y =>
      let tags := place (Tag.uuid (_to_move c)) x y (Building.tags lv) in
      inr (Building.set_level (_level_idx c) (Building.set_tags tags lv)
                              building)
  | _, _ =>
      (* the destination is read, uninitialised, only for a matching tag *)
      if existsb (fun tag => N.eqb (Tag.uuid tag) (Tag.uuid (_to_move c)))
                 (Building.tags lv)
      then inl UndefinedBehavior
      else inr building
  end.
End MoveTagCommand.

Module AddTagCommand.
Record t := mk {
  _x : float;
  _y : float;
  _level_idx : Z;
  _tag_id : QUuid
}.

(** The constructor leaves [_tag_id] default-constructed: the null uuid. *)
Definition create (level_idx : Z) (x y : float) : t := mk x y level_idx 0%N.

(** The loop of [undo]: the first tag with the uuid is erased, and the
    loop left. *)
Fixpoint erase_first (id : QUuid) (tags : list Tag.t) : list Tag.t :=
  match tags with
  | [] => []
  | tag :: tags' =>
      if N.eqb (Tag.uuid tag) id then tags' else tag :: erase_first id tags'
  end.

Definition undo (c : t) (building : Building.t) : error + Building.t :=
  lv ← Building.at_index (Building.levels building) (_level_idx c);
  inr (Building.set_level (_level_idx c)
         (Building.set_tags (erase_first (_tag_id c) (Building.tags lv)) lv)
         building).

(** [Building::add_tag] is in building.cpp, which is not part of the
    sources at hand: [redo] is taken over any such function. *)
Class BuildingOps :=
  add_tag : Building.t -> Z -> float -> float -> error + Building.t.

Definition redo {BO : BuildingOps} (c : t) (building : Building.t)
    : error + (t * Building.t) :=
  building ← add_tag building (_level_idx c) (_x c) (_y c);
  lv ← Building.at_index (Building.levels building) (_level_idx c);
  (* [tags[sz - 1]], [sz - 1] wrapping around when there is no tag *)
  match last (Building.tags lv) with
  | Some tag => inr (mk (_x c) (_y c) (_level_idx c) (Tag.uuid tag), building)
  | None => inl UndefinedBehavior
  end.
End AddTagCommand.

Module AddPropertyCommand.
Record t := mk {
  _prop : string;
  _val : Param.t;
  _level_idx : Z;
  _vert_id : Z;
  _tag_id : Z;
  _is_tag : bool
}.

(** The scans of the constructor: [i] is the loop counter, [id] what
    [_tag_id] or [_vert_id] holds so far; no iteration leaves the loop. *)
Fixpoint scan_selected {A : Type} (selected : A -> bool) (i : Z)
    (xs : list A) (id : Z) : Z :=
  match xs with
  | [] => id
  | a :: xs' =>
      scan_selected selected (i + 1) xs' (if selected a then i else id)
  end.

Definition create (building : Building.t) (property : string)
    (value : Param.t) (level_idx : Z) (is_tag : bool) : error + t :=
  lv ← Building.at_index (Building.levels building) level_idx;
  if is_tag then
    inr (mk property value level_idx (-1)
            (scan_selected Tag.selected 0 (Building.tags lv) (-1)) is_tag)
  else
    inr (mk property value level_idx
            (scan_selected Vertex.selected 0
                           (BuildingLevel.vertices (Building.base lv)) (-1))
            (-1) is_tag).

Definition get_vertex_updated (c : t) : Z := _vert_id c.
Definition get_tag_updated (c : t) : Z := _tag_id c.

Definition set_tag_params (i : Z) (tag : Tag.t) (p : gmap string Param.t)
    (lv : Building.Level) : Building.Level :=
  Building.set_tags (<[Z.to_nat i := Tag.set_params p tag]> (Building.tags lv))
                    lv.

Definition set_vertex_params (i : Z) (v : Vertex.t)
    (p : gmap string Param.t) (lv : Building.Level) : Building.Level :=
  Building.set_vertices
    (<[Z.to_nat i :=
         Vertex.mk (Vertex.x v) (Vertex.y v) (Vertex.name v)
                   (Vertex.selected v) p]>
       (BuildingLevel.vertices (Building.base lv)))
    lv.

Definition redo (c : t) (building : Building.t) : error + Building.t :=
  if _is_tag c then
    if _tag_id c <? 0 then inr building
    else
      lv ← Building.at_index (Building.levels building) (_level_idx c);
      tag ← Building.at_index (Building.tags lv) (_tag_id c);
      inr (Building.set_level (_level_idx c)
             (set_tag_params (_tag_id c) tag
                (<[_prop c := _val c]> (Tag.params tag)) lv)
             building)
  else
    if _vert_id c <? 0 then inr building
    else
      lv ← Building.at_index (Building.levels building) (_level_idx c);
      v ← Building.at_index (BuildingLevel.vertices (Building.base lv))
                            (_vert_id c);
      inr (Building.set_level (_level_idx c)
             (set_vertex_params (_vert_id c) v
                (<[_prop c := _val c]> (Vertex.params v)) lv)
             building).

Definition undo (c : t) (building : Building.t) : error + Building.t :=
  if _is_tag c then
    lv ← Building.at_index (Building.levels building) (_level_idx c);
    tag ← Building.at_index (Building.tags lv) (_tag_id c);
    match Tag.params tag !! _prop c with
    | None => inr building
    | Some _ =>
        inr (Building.set_level (_level_idx c)
               (set_tag_params (_tag_id c) tag
                  (delete (_prop c) (Tag.params tag)) lv)
               building)
    end
  else
    lv ← Building.at_index (Building.levels building) (_level_idx c);
    v ← Building.at_index (BuildingLevel.vertices (Building.base lv))
                          (_vert_id c);
    match Vertex.params v !! _prop c with
    | None => inr building
    | Some _ =>
        inr (Building.set_level (_level_idx c)
               (set_vertex_params (_vert_id c) v
                  (delete (_prop c) (Vertex.params v)) lv)
               building)
    end.
End AddPropertyCommand.

(** ** Further statements about the level *)

(** Invariant I1: every index stored in an edge or a polygon is an index
    into the vertices. *)
Definition indices_valid (l : BuildingLevel.t) : Prop :=
  Forall (endpoints_in_range (vertices l)) (edges l)
  /\ Forall (fun p =>
               Forall (fun i => 0 <= i < Z.of_nat (length (vertices l)))
                      (Polygon.vertices p))
            (polygons l).

Definition selected_vertices (l : BuildingLevel.t) : list Vertex.t :=
  List.filter Vertex.selected (vertices l).

(** What [params["distance"]] leaves of an edge: the edge as it is when it
    has the parameter, and with a default-constructed one otherwise. *)
Definition with_distance {PD : ParamDefault} (e : Edge.t) : Edge.t :=
  match Edge.params e !! "distance" with
  | Some _ => e
  | None => Edge.set_params (<["distance" := Param_default]> (Edge.params e)) e
  end.

(** The statements of [calculate_scale] after its loop, on the sum, the
    count and the edges the loop leaves. *)
Definition scale_result (l : BuildingLevel.t) (es : list Edge.t)
    (scale_sum : float) (scale_count : Z) : BuildingLevel.t :=
  let l := set_edges es l in
  let l :=
    if scale_count >? 0 then
      set_drawing_meters_per_pixel
        (scale_sum / int_to_double scale_count)%float l
    else set_drawing_meters_per_pixel DEFAULT_SCALE l in
  if dimensions_guard l then
    set_meters
      (int_to_double (drawing_width l) * drawing_meters_per_pixel l)%float
      (int_to_double (drawing_height l) * drawing_meters_per_pixel l)%float l
  else l.

Module MoreExamples.
(** Two walls and a floor over four vertices; the unused vertex 1 and the
    used vertex 3 are selected. *)
Definition two_selected : BuildingLevel.t :=
  Examples.level 200 400 10 20
    [Examples.vtx 0 0 false; Examples.vtx 10 0 true;
     Examples.vtx 20 0 false; Examples.vtx 30 0 true]
    [Examples.wall 0 2 false; Examples.wall 2 3 false]
    [Polygon.mk [0; 2; 3] Polygon.FLOOR false].

(** A measurement edge without a "distance" parameter, and a wall. *)
Definition undistanced : BuildingLevel.t :=
  Examples.level 200 400 10 20
    [Examples.vtx 0 0 false; Examples.vtx 100 0 true]
    [Edge.mk 0 1 Edge.MEAS true ∅; Examples.wall 0 1 false] [].

(** Physical dimensions that are no multiples of 5 cm. *)
Definition doc_odd_dimensions : YNode :=
  YMap [("x_meters", YDouble 10.03); ("y_meters", YDouble 20.04)].

(** A drawing block, for a file the reader cannot read. *)
Definition doc_drawing : YNode :=
  YMap [("drawing", YMap [("filename", YString "floor.png")]);
        ("vertices", YSeq [YSeq [YDouble 0; YDouble 0; YString "a"]])].

(** One vertex and one wall to add to a level. *)
Definition doc_more : YNode :=
  YMap [("x_meters", YDouble 10); ("y_meters", YDouble 20);
        ("vertices", YSeq [YSeq [YDouble 5; YDouble 5; YString "c"]]);
        ("walls", YSeq [YSeq [YInt 0; YInt 1; YMap []]])].

(** Modelled from the spec: param.cpp is missing from the sources.  A
    parameter is "a tagged union of primitive value kinds" (section 2); the
    plainest record of its four members stands for its YAML form, and
    [set] stores the text.  It only serves to evaluate the tag code. *)
Definition param_codec : ParamCodec := {|
  Param_from_yaml := fun n =>
    match n with
    | YSeq [YInt i; YDouble d; YString s; YBool b] => inr (Param.mk i d s b)
    | _ => inl BadConversion
    end;
  Param_to_yaml := fun p =>
    YSeq [YInt (Param.value_int p); YDouble (Param.value_double p);
          YString (Param.value_string p); YBool (Param.value_bool p)];
  Param_set := fun p value =>
    Param.mk (Param.value_int p) (Param.value_double p) value
             (Param.value_bool p)
|}.

Definition flag (b : bool) : Param.t := Param.mk 0 0%float "" b.

(** A selected tag with two parameters, and a plain one. *)
Definition april_tag : Tag.t :=
  Tag.mk 12.3456%float 7.8912%float "dock" true 17%N
         (<["is_april_tag" := flag true]>
            (<["human_goal_set_name" := Param.mk 0 0%float "a" false]> ∅)).
Definition plain_tag : Tag.t := Tag.mk 1%float 2%float "p" false 18%N ∅.

Definition charger : Vertex.t :=
  Vertex.mk 50%float 0%float "v1" true (<["is_charger" := flag true]> ∅).

(** A level with two tags and three vertices, the second of them
    selected, and the building made of it. *)
Definition ground : Building.Level :=
  Building.mkLevel
    (Examples.level 200 400 10 20
       [Examples.vtx 0 0 false; charger; Examples.vtx 50 50 false] [] [])
    [plain_tag; april_tag].
Definition building : Building.t := Building.mk [ground].

(** A level where nothing is selected. *)
Definition idle : Building.Level :=
  Building.mkLevel
    (Examples.level 200 400 10 20 [Examples.vtx 0 0 false] [] [])
    [plain_tag].

(** [Building::add_tag] as a tag with uuid 99 appended to the level. *)
Definition add_tag_99 : AddTagCommand.BuildingOps :=
  fun b level_idx x y =>
    lv ← Building.at_index (Building.levels b) level_idx;
    inr (Building.set_level level_idx
           (Building.set_tags
              (Building.tags lv ++ [Tag.create_at 99%N x y ""]) lv) b).
End MoreExamples.

(** ** Deletion *)

Section deletion.
Implicit Types (l : BuildingLevel.t) (vs : list Vertex.t)
  (es : list Edge.t) (ps : list Polygon.t) (idx : Z).

Lemma fold_left_sticky {A : Type} (f : A -> bool) (xs : list A) (u : bool) :
  fold_left (fun u x => if f x then true else u) xs u = u || existsb f xs.
Proof.
  revert u; induction xs as [|x xs IH]; intros u; simpl.
  - now rewrite orb_false_r.
  - rewrite IH. destruct (f x), u; reflexivity.
Qed.

Lemma vertex_used_existsb idx es ps :
  vertex_used idx es ps
  = existsb (edge_uses idx) es
    || existsb (fun p => existsb (fun i => i =? idx) (Polygon.vertices p)) ps.
Proof.
  unfold vertex_used. rewrite fold_left_sticky. simpl.
  generalize (existsb (edge_uses idx) es) as u.
  induction ps as [|p ps IH]; intros u; simpl.
  - now rewrite orb_false_r.
  - rewrite IH, fold_left_sticky. now rewrite orb_assoc.
Qed.

Lemma vertex_used_referenced idx es ps :
  vertex_used idx es ps = true <-> referenced idx es ps.
Proof.
  rewrite vertex_used_existsb, orb_true_iff, !existsb_exists.
  unfold referenced, edge_uses. split.
  - intros [(e & He & Hu) | (p & Hp & Hu)]; [left | right].
    + exists e. split; [exact He|]. apply orb_true_iff in Hu. lia.
    + apply existsb_exists in Hu as (i & Hi & Heq).
      exists p. split; [exact Hp|]. apply Z.eqb_eq in Heq. now subst.
  - intros [(e & He & Hu) | (p & Hp & Hu)]; [left | right].
    + exists e. split; [exact He|]. apply orb_true_iff. lia.
    + exists p. split; [exact Hp|]. apply existsb_exists.
      exists idx. split; [exact Hu | apply Z.eqb_refl].
Qed.

Lemma referenced_kept_filter idx l :
  referenced idx (List.filter (fun e => negb (Edge.selected e)) (edges l))
             (polygons l)
  <-> referenced_by_kept idx l.
Proof.
  unfold referenced, referenced_by_kept. split.
  - intros [(e & He & Hu) | H]; [left | right; exact H].
    apply filter_In in He as [He Hs]. exists e.
    apply negb_true_iff in Hs. auto.
  - intros [(e & He & Hs & Hu) | H]; [left | right; exact H].
    exists e. split; [|exact Hu]. apply filter_In. split; [exact He|].
    now rewrite Hs.
Qed.

(** The scan returns [-1] exactly when it runs off the end. *)
Lemma first_selected_from_range i vs :
  first_selected_from i vs = -1 \/
  i <= first_selected_from i vs < i + Z.of_nat (length vs).
Proof.
  revert i; induction vs as [|v vs IH]; intros i; simpl; [now left|].
  destruct (Vertex.selected v); [right; lia|].
  destruct (IH (i + 1)) as [-> | H]; [now left | right; lia].
Qed.

Lemma first_selected_from_none i vs :
  0 <= i ->
  (first_selected_from i vs = -1
   <-> Forall (fun v => Vertex.selected v = false) vs).
Proof.
  revert i; induction vs as [|v vs IH]; intros i Hi; simpl.
  - split; [constructor | reflexivity].
  - destruct (Vertex.selected v) eqn:Hv.
    + split; [lia | intros H; inversion H; congruence].
    + rewrite IH by lia. split; [now constructor | now inversion 1].
Qed.

(** A hit is the lowest selected index. *)
Lemma first_selected_from_first i vs k :
  0 <= i -> first_selected_from i vs = k -> i <= k ->
  (exists v, vs !! Z.to_nat (k - i) = Some v /\ Vertex.selected v = true)
  /\ (forall j v, (j < Z.to_nat (k - i))%nat -> vs !! j = Some v ->
                  Vertex.selected v = false).
Proof.
  revert i; induction vs as [|v vs IH]; intros i H0 Hk Hi; simpl in Hk.
  - lia.
  - destruct (Vertex.selected v) eqn:Hv.
    + subst k. rewrite Z.sub_diag. simpl. split; [eauto | intros; lia].
    + pose proof (first_selected_from_range (i + 1) vs) as Hr.
      destruct (IH (i + 1) ltac:(lia) Hk ltac:(lia)) as [(w & Hw & Hs) Hlow].
      replace (Z.to_nat (k - i)) with (S (Z.to_nat (k - (i + 1)))) by lia.
      split; [exists w; auto|].
      intros [|j] v' Hj Hl; simpl in Hl; [congruence|].
      apply (Hlow j); [lia | exact Hl].
Qed.

Lemma shifted_decrement idx i : shifted idx i (decrement_above idx i).
Proof.
  unfold shifted, decrement_above.
  destruct (Z.gtb_spec i idx); split; intros; lia.
Qed.

Lemma Forall2_map_self {A B : Type} (R : A -> B -> Prop) (f : A -> B)
    (xs : list A) :
  (forall x, R x (f x)) -> Forall2 R xs (map f xs).
Proof. intros H; induction xs; simpl; constructor; auto. Qed.

Lemma edge_shifted_reindex idx e : edge_shifted idx e (reindex_edge idx e).
Proof.
  unfold edge_shifted, reindex_edge; simpl.
  auto using shifted_decrement.
Qed.

Lemma polygon_shifted_reindex idx p :
  polygon_shifted idx p (reindex_polygon idx p).
Proof.
  unfold polygon_shifted, reindex_polygon; simpl.
  split; [|auto]. apply Forall2_map_self, shifted_decrement.
Qed.

(** What the call does, by the three ways through its body. *)
Lemma delete_selected_cases l :
  let l1 := erase_selected l in
  let idx := first_selected_from 0 (vertices l) in
  delete_selected l =
    if idx >=? 0 then
      if vertex_used idx (edges l1) (polygons l) then (false, l1)
      else (true,
            set_polygons (map (reindex_polygon idx) (polygons l))
              (set_edges (map (reindex_edge idx) (edges l1))
                 (set_vertices (delete (Z.to_nat idx) (vertices l)) l1)))
    else (true, l1).
Proof. reflexivity. Qed.

End deletion.

Lemma filter_unselected_id {A : Type} (sel : A -> bool) (xs : list A) :
  Forall (fun x => sel x = false) xs ->
  List.filter (fun x => negb (sel x)) xs = xs.
Proof.
  induction 1 as [|x xs Hx _ IH]; simpl; [reflexivity|].
  now rewrite Hx, IH.
Qed.

(** No selected edge, model or fiducial survives the three erase passes;
    the polygons are not touched by them. *)
Lemma erase_selected_edges l :
  Forall (fun e => Edge.selected e = false) (edges (erase_selected l))
  /\ polygons (erase_selected l) = polygons l
  /\ vertices (erase_selected l) = vertices l.
Proof.
  split; [|split; reflexivity]. simpl.
  apply List.Forall_forall. intros e He. apply filter_In in He as [_ He].
  now apply negb_true_iff in He.
Qed.

Lemma referenced_by_unselected_kept idx l :
  referenced_by_unselected idx l -> referenced_by_kept idx l.
Proof.
  intros [H | (p & Hp & _ & Hi)]; [left; exact H | right; eauto].
Qed.

(** C1 (amended): when the first selected vertex is an endpoint of an edge
    that is not selected itself, or occurs in a polygon that is not
    selected itself, [delete_selected] returns false, leaves the vertices
    and the unselected polygons as they are, and leaves of the edges,
    models and fiducials exactly those that are not selected, unchanged
    (all of the edges when none is selected, all of the polygons when none
    is selected). *)
Theorem delete_selected_refuses_vertex_in_use (l : BuildingLevel.t) (idx : Z) :
  first_selected_from 0 (vertices l) = idx ->
  0 <= idx ->
  referenced_by_unselected idx l ->
  (delete_selected l).1 = false
  /\ vertices (delete_selected l).2 = vertices l
  /\ List.filter (fun p => negb (Polygon.selected p))
                 (polygons (delete_selected l).2)
     = List.filter (fun p => negb (Polygon.selected p)) (polygons l)
  /\ edges (delete_selected l).2
     = List.filter (fun e => negb (Edge.selected e)) (edges l)
  /\ models (delete_selected l).2
     = List.filter (fun m => negb (Model.selected m)) (models l)
  /\ fiducials (delete_selected l).2
     = List.filter (fun f => negb (Fiducial.selected f)) (fiducials l)
  /\ (Forall (fun e => Edge.selected e = false) (edges l) ->
      edges (delete_selected l).2 = edges l)
  /\ (Forall (fun p => Polygon.selected p = false) (polygons l) ->
      polygons (delete_selected l).2 = polygons l).
Proof.
  intros Hidx Hpos Href.
  apply referenced_by_unselected_kept, referenced_kept_filter,
    vertex_used_referenced in Href.
  rewrite delete_selected_cases; cbv zeta. rewrite Hidx.
  destruct (Z.geb_spec idx 0) as [_|]; [|lia].
  change (edges (erase_selected l))
    with (List.filter (fun e => negb (Edge.selected e)) (edges l)).
  rewrite Href. simpl.
  repeat split; try reflexivity.
  apply filter_unselected_id.
Qed.

Lemma delete_selected_refuses_vertex_in_use_witness :
  (delete_selected Examples.selected_vertex_in_use).1 = false
  /\ vertices (delete_selected Examples.selected_vertex_in_use).2
     = vertices Examples.selected_vertex_in_use
  /\ edges (delete_selected Examples.selected_vertex_in_use).2
     = [Examples.wall 0 1 false]
  /\ polygons (delete_selected Examples.selected_vertex_in_use).2
     = polygons Examples.selected_vertex_in_use.
Proof.
  destruct (delete_selected_refuses_vertex_in_use
              Examples.selected_vertex_in_use 0)
    as (H1 & H2 & _ & H4 & _ & _ & _ & H8).
  - reflexivity.
  - lia.
  - left. exists (Examples.wall 0 1 false). simpl. auto.
  - split; [exact H1 | split; [exact H2 | split; [exact H4|]]].
    apply H8. repeat constructor.
Defined.

(** C1 as worded fails: vertex 0 is selected and referenced by the wall
    (0,1), but the wall is selected too, so it is erased first and the
    vertex is deleted: the call returns true and one vertex is left. *)
Lemma refusal_changes_nothing_fails :
  first_selected_from 0 (vertices Examples.selected_vertex_and_edge) = 0
  /\ referenced 0 (edges Examples.selected_vertex_and_edge)
                  (polygons Examples.selected_vertex_and_edge)
  /\ (delete_selected Examples.selected_vertex_and_edge).1 = true
  /\ vertices (delete_selected Examples.selected_vertex_and_edge).2
     = [Examples.vtx 50 0 false]
  /\ ~ refusal_changes_nothing Examples.selected_vertex_and_edge.
Proof.
  assert (Href : referenced 0 (edges Examples.selected_vertex_and_edge)
                   (polygons Examples.selected_vertex_and_edge)).
  { left. exists (Examples.wall 0 1 true). simpl. auto. }
  repeat (split; [reflexivity || exact Href|]).
  intros H. destruct H as [H _].
  - vm_compute. discriminate.
  - exact Href.
  - vm_compute in H. discriminate.
Qed.

(** C2: [delete_selected] never erases a polygon and never changes a
    polygon's selection flag, so a selected polygon is still in the level
    after the call; on the level whose only selected element is a floor
    polygon the call returns true and the level is what it was. *)
Theorem delete_selected_keeps_selected_polygon :
  (forall l : BuildingLevel.t,
      map Polygon.selected (polygons (delete_selected l).2)
      = map Polygon.selected (polygons l))
  /\ delete_selected Examples.selected_polygon
     = (true, Examples.selected_polygon)
  /\ existsb Polygon.selected
       (polygons (delete_selected Examples.selected_polygon).2) = true.
Proof.
  split; [|split; reflexivity].
  intros l. rewrite delete_selected_cases; cbv zeta.
  destruct (_ >=? 0); [destruct (vertex_used _ _ _)|]; simpl; try reflexivity.
  rewrite map_map. reflexivity.
Qed.

(** The edge half of that step does hold: no selected edge is left. *)
Lemma delete_selected_no_selected_edge (l : BuildingLevel.t) :
  Forall (fun e => Edge.selected e = false) (edges (delete_selected l).2).
Proof.
  pose proof (erase_selected_edges l) as [He _].
  rewrite delete_selected_cases; cbv zeta.
  destruct (_ >=? 0); [destruct (vertex_used _ _ _)|]; simpl; try exact He.
  apply Forall_map. simpl. exact He.
Qed.

(** C3: when the first selected vertex, at index [idx], is referenced by no
    edge and no polygon, [delete_selected] succeeds, erases exactly that
    vertex, and in every remaining edge and every polygon a stored index
    above [idx] is one less and an index up to [idx] is the same, nothing
    else of the edge or polygon changing.  In particular (P3) vertices
    [v0,v1,v2,v3] with the edge (1,3) and [v2] selected become [v0,v1,v3]
    with the edge (1,2). *)
Theorem delete_selected_reindexes (l : BuildingLevel.t) (idx : Z) :
  first_selected_from 0 (vertices l) = idx ->
  0 <= idx ->
  ~ referenced idx (edges l) (polygons l) ->
  (delete_selected l).1 = true
  /\ vertices (delete_selected l).2
     = take (Z.to_nat idx) (vertices l) ++ drop (S (Z.to_nat idx)) (vertices l)
  /\ Forall2 (edge_shifted idx)
       (List.filter (fun e => negb (Edge.selected e)) (edges l))
       (edges (delete_selected l).2)
  /\ Forall2 (polygon_shifted idx) (polygons l) (polygons (delete_selected l).2)
  /\ (forall v0 v1 v2 v3 e,
         vertices l = [v0; v1; v2; v3] -> idx = 2 ->
         edges l = [e] -> Edge.selected e = false ->
         Edge.start_idx e = 1 -> Edge.end_idx e = 3 ->
         vertices (delete_selected l).2 = [v0; v1; v3]
         /\ edges (delete_selected l).2 = [Edge.set_idx 1 2 e]).
Proof.
  intros Hidx Hpos Hfree.
  assert (Hunused :
            vertex_used idx
              (List.filter (fun e => negb (Edge.selected e)) (edges l))
              (polygons l) = false).
  { apply not_true_is_false. intros Hu.
    apply vertex_used_referenced in Hu. apply Hfree.
    destruct Hu as [(e & He & Hu) | Hp]; [left | right; exact Hp].
    apply filter_In in He as [He _]. eauto. }
  rewrite delete_selected_cases; cbv zeta. rewrite Hidx.
  destruct (Z.geb_spec idx 0) as [_|]; [|lia].
  change (edges (erase_selected l))
    with (List.filter (fun e => negb (Edge.selected e)) (edges l)).
  rewrite Hunused. simpl.
  split; [reflexivity|].
  split; [apply delete_take_drop|].
  split; [apply Forall2_map_self, edge_shifted_reindex|].
  split; [apply Forall2_map_self, polygon_shifted_reindex|].
  intros v0 v1 v2 v3 e Hvs -> Hes Hsel Hs He.
  rewrite Hvs, Hes. simpl. rewrite Hsel. simpl.
  split; [reflexivity|].
  unfold reindex_edge. rewrite Hs, He. reflexivity.
Qed.

Lemma delete_selected_reindexes_witness :
  (delete_selected Examples.four_vertices).1 = true
  /\ vertices (delete_selected Examples.four_vertices).2
     = [Examples.vtx 0 0 false; Examples.vtx 10 0 false; Examples.vtx 30 0 false]
  /\ edges (delete_selected Examples.four_vertices).2
     = [Examples.wall 1 2 false].
Proof.
  destruct (delete_selected_reindexes Examples.four_vertices 2)
    as (H1 & _ & _ & _ & H5).
  - reflexivity.
  - lia.
  - intros [(e & He & Hu) | (p & Hp & _)].
    + destruct He as [<- | []]. simpl in Hu. lia.
    + destruct Hp.
  - split; [exact H1|].
    exact (H5 _ _ _ _ _ eq_refl eq_refl eq_refl eq_refl eq_refl eq_refl).
Defined.

(** C4: a call deletes at most one vertex, and only the lowest-index
    selected one: the vertices afterwards are either the vertices before,
    or those with the first selected vertex erased (and then the call
    returned true).  With no vertex selected the call returns true and
    keeps every vertex; it returns false only when the first selected
    vertex is in use by an edge left after the erase passes or by a
    polygon. *)
Theorem delete_selected_at_most_one_vertex (l : BuildingLevel.t) :
  (Forall (fun v => Vertex.selected v = false) (vertices l) ->
   (delete_selected l).1 = true
   /\ vertices (delete_selected l).2 = vertices l)
  /\ (vertices (delete_selected l).2 = vertices l
      \/ exists k v,
           (delete_selected l).1 = true
           /\ vertices l !! k = Some v /\ Vertex.selected v = true
           /\ (forall j w, (j < k)%nat -> vertices l !! j = Some w ->
                           Vertex.selected w = false)
           /\ vertices (delete_selected l).2
              = take k (vertices l) ++ drop (S k) (vertices l))
  /\ (length (vertices l) <= S (length (vertices (delete_selected l).2)))%nat
  /\ ((delete_selected l).1 = false ->
      0 <= first_selected_from 0 (vertices l)
      /\ referenced_by_kept (first_selected_from 0 (vertices l)) l)
  /\ ((delete_selected l).1 = true ->
      first_selected_from 0 (vertices l) = -1
      \/ ~ referenced_by_kept (first_selected_from 0 (vertices l)) l).
Proof.
  rewrite delete_selected_cases; cbv zeta.
  pose proof (first_selected_from_none 0 (vertices l) ltac:(lia)) as Hnone.
  pose proof (first_selected_from_range 0 (vertices l)) as Hrange.
  pose proof (vertex_used_referenced (first_selected_from 0 (vertices l))
                (edges (erase_selected l)) (polygons l)) as Hused.
  pose proof (referenced_kept_filter (first_selected_from 0 (vertices l)) l)
    as Hkept.
  change (edges (erase_selected l))
    with (List.filter (fun e => negb (Edge.selected e)) (edges l)) in *.
  set (idx := first_selected_from 0 (vertices l)) in *.
  destruct (Z.geb_spec idx 0) as [Hge|Hlt].
  - destruct (first_selected_from_first 0 (vertices l) idx ltac:(lia) eq_refl Hge)
      as [(v & Hv & Hsel) Hlow].
    rewrite Z.sub_0_r in Hv, Hlow.
    destruct (vertex_used idx _ (polygons l)) eqn:Hu; simpl.
    + split; [intros Hall; apply Hnone in Hall; lia|].
      split; [now left|]. split; [lia|].
      split; [intros _; split; [lia | tauto]|]. discriminate.
    + split; [intros Hall; apply Hnone in Hall; lia|].
      split.
      { right. exists (Z.to_nat idx), v.
        repeat split; auto. apply delete_take_drop. }
      split.
      { rewrite length_delete by eauto.
        apply lookup_lt_Some in Hv. lia. }
      split; [discriminate|].
      intros _. right. intros Hr. apply Hkept, Hused in Hr. congruence.
  - simpl. split; [auto|]. split; [now left|]. split; [lia|].
    split; [discriminate|]. intros _. left. lia.
Qed.

(** ** Selection *)

(** C10: [clear_selection] leaves no vertex, edge, model, polygon or
    fiducial selected; every element keeps its place in its collection and
    all of its other members (positions, indices, type tags, names,
    parameter maps), so every collection keeps its size; the layers and all
    scalar members of the level are the same. *)
Theorem clear_selection_only_clears_flags (l : BuildingLevel.t) :
  (Forall (fun v => Vertex.selected v = false) (vertices (clear_selection l))
   /\ Forall (fun e => Edge.selected e = false) (edges (clear_selection l))
   /\ Forall (fun m => Model.selected m = false) (models (clear_selection l))
   /\ Forall (fun p => Polygon.selected p = false) (polygons (clear_selection l))
   /\ Forall (fun f => Fiducial.selected f = false)
             (fiducials (clear_selection l)))
  /\ (Forall2 same_vertex (vertices l) (vertices (clear_selection l))
      /\ Forall2 same_edge (edges l) (edges (clear_selection l))
      /\ Forall2 same_model (models l) (models (clear_selection l))
      /\ Forall2 same_polygon (polygons l) (polygons (clear_selection l))
      /\ Forall2 same_fiducial (fiducials l) (fiducials (clear_selection l)))
  /\ (length (vertices (clear_selection l)) = length (vertices l)
      /\ length (edges (clear_selection l)) = length (edges l)
      /\ length (models (clear_selection l)) = length (models l)
      /\ length (polygons (clear_selection l)) = length (polygons l)
      /\ length (fiducials (clear_selection l)) = length (fiducials l))
  /\ (layers (clear_selection l) = layers l
      /\ name (clear_selection l) = name l
      /\ drawing_filename (clear_selection l) = drawing_filename l
      /\ drawing_width (clear_selection l) = drawing_width l
      /\ drawing_height (clear_selection l) = drawing_height l
      /\ drawing_meters_per_pixel (clear_selection l)
         = drawing_meters_per_pixel l
      /\ x_meters (clear_selection l) = x_meters l
      /\ y_meters (clear_selection l) = y_meters l
      /\ elevation (clear_selection l) = elevation l).
Proof.
  unfold clear_selection; simpl.
  split; [|split; [|split]].
  - repeat split; apply Forall_map, List.Forall_forall; reflexivity.
  - repeat split; apply Forall2_map_self; intros x;
      unfold same_vertex, same_edge, same_model, same_polygon, same_fiducial;
      simpl; auto.
  - now rewrite !length_map.
  - repeat split.
Qed.

(** ** Calibration *)

Section calibration.
Context {PD : ParamDefault}.
Implicit Types (l : BuildingLevel.t) (vs : list Vertex.t)
  (es : list Edge.t) (e : Edge.t) (acc : float * Z).

Lemma vertex_at_in_range vs i :
  0 <= i < Z.of_nat (length vs) ->
  exists v, vertex_at vs i = inr v /\ vs !! Z.to_nat i = Some v.
Proof.
  intros Hi. unfold vertex_at.
  destruct (Z.ltb_spec i 0) as [|_]; [lia|].
  destruct (vs !! Z.to_nat i) as [v|] eqn:Hv; [eauto|].
  apply lookup_ge_None in Hv. lia.
Qed.

Lemma distance_parameter_index e :
  Param.value_double (params_index "distance" (Edge.params e)).1
  = distance_parameter e.
Proof.
  unfold params_index, distance_parameter.
  destruct (Edge.params e !! "distance"); reflexivity.
Qed.

(** A measurement edge adds its ratio to the sum and one to the count. *)
Lemma scale_step_meas vs acc e :
  Edge.is_meas e = true -> endpoints_in_range vs e -> acc.2 < INT_MAX ->
  exists r e',
    scale_step vs acc e = inr ((acc.1 + r)%float, acc.2 + 1, e')
    /\ scale_ratio vs e = Some r.
Proof.
  intros Hm [Hs He] Hc. unfold scale_step. rewrite Hm.
  destruct (Z.ltb_spec acc.2 INT_MAX) as [_|]; [|lia].
  destruct (vertex_at_in_range vs _ Hs) as (a & -> & Ha).
  destruct (vertex_at_in_range vs _ He) as (b & -> & Hb).
  simpl. rewrite distance_parameter_index.
  eexists _, _. split; [reflexivity|].
  unfold scale_ratio, pixel_distance. rewrite Ha, Hb. reflexivity.
Qed.

Lemma scale_step_other vs acc e :
  Edge.is_meas e = false -> scale_step vs acc e = inr (acc, e).
Proof. intros Hm. unfold scale_step. now rewrite Hm. Qed.

Lemma ratios_cons_meas vs e es r :
  Edge.is_meas e = true -> scale_ratio vs e = Some r ->
  omap (scale_ratio vs) (List.filter Edge.is_meas (e :: es))
  = r :: omap (scale_ratio vs) (List.filter Edge.is_meas es).
Proof. intros Hm Hr. simpl. rewrite Hm. simpl. now rewrite Hr. Qed.

Lemma ratios_cons_other vs e es :
  Edge.is_meas e = false ->
  omap (scale_ratio vs) (List.filter Edge.is_meas (e :: es))
  = omap (scale_ratio vs) (List.filter Edge.is_meas es).
Proof. intros Hm. simpl. now rewrite Hm. Qed.

(** The loop: the ratios of the measurement edges are added up in the
    order of the edges, and counted. *)
Lemma scale_loop_sum vs es :
  forall acc,
    Forall (fun e => Edge.is_meas e = true -> endpoints_in_range vs e) es ->
    acc.2 + Z.of_nat (length (List.filter Edge.is_meas es)) <= INT_MAX ->
    let rs := omap (scale_ratio vs) (List.filter Edge.is_meas es) in
    length rs = length (List.filter Edge.is_meas es)
    /\ exists es',
         scale_loop vs es acc
         = inr (fold_left PrimFloat.add rs acc.1,
                acc.2 + Z.of_nat (length rs), es').
Proof.
  induction es as [|e es IH]; intros acc Hrange Hcount; cbv zeta.
  - simpl. split; [reflexivity|]. exists []. rewrite Z.add_0_r.
    now destruct acc.
  - apply Forall_cons in Hrange as [He Hrange].
    simpl in Hcount.
    destruct (Edge.is_meas e) eqn:Hm; simpl in Hcount.
    + destruct (scale_step_meas vs acc e Hm (He eq_refl) ltac:(lia))
        as (r & e' & Hstep & Hr).
      rewrite (ratios_cons_meas vs e es r Hm Hr).
      destruct (IH ((acc.1 + r)%float, acc.2 + 1) Hrange
                   ltac:(simpl; lia)) as [Hlen (es' & Hloop)].
      split; [simpl; rewrite Hm; simpl; now rewrite Hlen|].
      exists (e' :: es'). simpl scale_loop. rewrite Hstep. simpl.
      rewrite Hloop. simpl. do 3 f_equal. lia.
    + rewrite (ratios_cons_other vs e es Hm).
      destruct (IH acc Hrange ltac:(lia)) as [Hlen (es' & Hloop)].
      split; [simpl; rewrite Hm; exact Hlen|].
      exists (e :: es'). simpl scale_loop.
      rewrite (scale_step_other vs acc e Hm). simpl.
      now rewrite Hloop.
Qed.

(** The end of [calculate_scale], once meters_per_pixel is [mpp]. *)
Lemma scale_tail l mpp :
  let l1 := set_drawing_meters_per_pixel mpp l in
  exists l',
    (if dimensions_guard l1
     then inr (set_meters
                 (int_to_double (drawing_width l1)
                  * drawing_meters_per_pixel l1)%float
                 (int_to_double (drawing_height l1)
                  * drawing_meters_per_pixel l1)%float l1)
     else inr l1) = (inr l' : error + BuildingLevel.t)
    /\ drawing_meters_per_pixel l' = mpp
    /\ drawing_width l' = drawing_width l
    /\ drawing_height l' = drawing_height l
    /\ (dimensions_guard l' = true ->
        x_meters l' = (int_to_double (drawing_width l) * mpp)%float
        /\ y_meters l' = (int_to_double (drawing_height l) * mpp)%float)
    /\ (dimensions_guard l' = false ->
        x_meters l' = x_meters l /\ y_meters l' = y_meters l).
Proof.
  cbv zeta.
  destruct (dimensions_guard (set_drawing_meters_per_pixel mpp l)) eqn:Hg;
    eexists; (split; [reflexivity|]);
    unfold dimensions_guard in *; simpl in *; rewrite Hg;
    repeat split; intros; congruence.
Qed.

(** What [calculate_scale] stores, on a level it is defined on. *)
Lemma calculate_scale_result l :
  measurable l ->
  let rs := measurement_ratios l in
  let n := Z.of_nat (length rs) in
  let mpp := if n >? 0
             then (fold_left PrimFloat.add rs 0 / int_to_double n)%float
             else DEFAULT_SCALE in
  length rs = length (List.filter Edge.is_meas (edges l))
  /\ exists l',
      calculate_scale l = inr l'
      /\ drawing_meters_per_pixel l' = mpp
      /\ drawing_width l' = drawing_width l
      /\ drawing_height l' = drawing_height l
      /\ (dimensions_guard l' = true ->
          x_meters l' = (int_to_double (drawing_width l) * mpp)%float
          /\ y_meters l' = (int_to_double (drawing_height l) * mpp)%float)
      /\ (dimensions_guard l' = false ->
          x_meters l' = x_meters l /\ y_meters l' = y_meters l).
Proof.
  intros [Hrange Hcount]; cbv zeta.
  destruct (scale_loop_sum (vertices l) (edges l) (0%float, 0) Hrange
              ltac:(simpl; lia)) as [Hlen (es' & Hloop)].
  split; [exact Hlen|].
  unfold calculate_scale. rewrite Hloop.
  fold (measurement_ratios l). unfold mbind, result_bind.
  cbn [fst snd]. rewrite Z.add_0_l.
  destruct (Z.of_nat (length (measurement_ratios l)) >? 0).
  - exact (scale_tail (set_edges es' l) _).
  - exact (scale_tail (set_edges es' l) _).
Qed.

(** C6: on every level whose measurement edges join existing vertices
    (and number at most INT_MAX), [calculate_scale] stores as
    meters_per_pixel the arithmetic mean of the ratios distance-parameter /
    Euclidean pixel distance of all edges of type measurement (each one
    contributes a ratio), and 0.05 when there is no such edge; two
    measurement edges with pixel distances 100 and 200 and distances 5 m
    and 8 m give 0.045. *)
Theorem calculate_scale_is_mean l :
  measurable l ->
  exists l',
    calculate_scale l = inr l'
    /\ drawing_meters_per_pixel l' = mean_scale l
    /\ length (measurement_ratios l)
       = length (List.filter Edge.is_meas (edges l))
    /\ (List.filter Edge.is_meas (edges l) = [] ->
        drawing_meters_per_pixel l' = 0.05%float)
    /\ (forall e1 e2,
           List.filter Edge.is_meas (edges l) = [e1; e2] ->
           pixel_distance (vertices l) e1 = Some 100%float ->
           pixel_distance (vertices l) e2 = Some 200%float ->
           distance_parameter e1 = 5%float ->
           distance_parameter e2 = 8%float ->
           drawing_meters_per_pixel l' = 0.045%float).
Proof.
  intros Hm.
  destruct (calculate_scale_result l Hm)
    as [Hlen (l' & Hcalc & Hmpp & _)].
  exists l'. split; [exact Hcalc|].
  assert (Hmean : drawing_meters_per_pixel l' = mean_scale l).
  { rewrite Hmpp. unfold mean_scale, arithmetic_mean.
    destruct (measurement_ratios l) as [|r rs]; [reflexivity|].
    destruct (Z.gtb_spec (Z.of_nat (length (r :: rs))) 0) as [_|Hle];
      [reflexivity | simpl in Hle; lia]. }
  split; [exact Hmean|]. split; [exact Hlen|]. split.
  - intros Hnone. rewrite Hmean. unfold mean_scale, measurement_ratios.
    now rewrite Hnone.
  - intros e1 e2 Hes Hp1 Hp2 Hd1 Hd2. rewrite Hmean.
    unfold mean_scale, measurement_ratios. rewrite Hes. simpl.
    unfold scale_ratio. rewrite Hp1, Hp2, Hd1, Hd2. reflexivity.
Qed.

(** C7 (amended): on every level it is defined on, [calculate_scale]
    keeps the pixel dimensions; when both are non-zero and the computed
    meters_per_pixel is positive it stores exactly
    drawing_width * meters_per_pixel and drawing_height * meters_per_pixel
    in x_meters and y_meters, and otherwise it leaves x_meters and
    y_meters as they were. *)
Theorem calculate_scale_dimensions l :
  measurable l ->
  exists l',
    calculate_scale l = inr l'
    /\ drawing_width l' = drawing_width l
    /\ drawing_height l' = drawing_height l
    /\ (drawing_width l <> 0 -> drawing_height l <> 0 ->
        (0 <? drawing_meters_per_pixel l')%float = true ->
        x_meters l'
        = (int_to_double (drawing_width l') * drawing_meters_per_pixel l')%float
        /\ y_meters l'
        = (int_to_double (drawing_height l') * drawing_meters_per_pixel l')%float)
    /\ (drawing_width l = 0 \/ drawing_height l = 0
        \/ (0 <? drawing_meters_per_pixel l')%float = false ->
        x_meters l' = x_meters l /\ y_meters l' = y_meters l).
Proof.
  intros Hm.
  destruct (calculate_scale_result l Hm)
    as [_ (l' & Hcalc & Hmpp & Hw & Hh & Hyes & Hno)].
  exists l'. split; [exact Hcalc|]. split; [exact Hw|]. split; [exact Hh|].
  unfold dimensions_guard in Hyes, Hno. rewrite Hw, Hh in *. split.
  - intros Hw0 Hh0 Hpos. rewrite Hmpp. apply Hyes.
    rewrite Hpos. apply Z.eqb_neq in Hw0, Hh0. now rewrite Hw0, Hh0.
  - intros Hcase. apply Hno.
    destruct Hcase as [-> | [-> | ->]]; simpl;
      [reflexivity | now rewrite andb_false_r | apply andb_false_r].
Qed.
End calibration.

Lemma two_measurements_measurable : measurable Examples.two_measurements.
Proof.
  split; [|vm_compute; discriminate].
  repeat constructor; simpl; lia.
Qed.

Lemma calculate_scale_is_mean_witness :
  exists l',
    calculate_scale (PD := SampleCodec.param_default) Examples.two_measurements
    = inr l'
    /\ drawing_meters_per_pixel l' = 0.045%float.
Proof.
  destruct (calculate_scale_is_mean (PD := SampleCodec.param_default)
              Examples.two_measurements two_measurements_measurable)
    as (l' & Hcalc & _ & _ & _ & Hp6).
  exists l'. split; [exact Hcalc|].
  exact (Hp6 _ _ eq_refl eq_refl eq_refl eq_refl eq_refl).
Defined.

Lemma calculate_scale_dimensions_witness :
  exists l',
    calculate_scale (PD := SampleCodec.param_default) Examples.two_measurements
    = inr l'
    /\ x_meters l'
       = (int_to_double 200 * drawing_meters_per_pixel l')%float.
Proof.
  destruct (calculate_scale_dimensions (PD := SampleCodec.param_default)
              Examples.two_measurements two_measurements_measurable)
    as (l' & Hcalc & Hw & _ & Hyes & _).
  exists l'. split; [exact Hcalc|].
  assert (Hpos : (0 <? drawing_meters_per_pixel l')%float = true).
  { vm_compute in Hcalc. injection Hcalc as <-. reflexivity. }
  destruct (Hyes ltac:(discriminate) ltac:(discriminate) Hpos) as [Hx _].
  rewrite Hw in Hx. exact Hx.
Defined.

(** C7 as worded fails: on a level whose drawing has no pixel size the
    guard in front of the two assignments is false, x_meters and y_meters
    stay 10, and drawing_width * meters_per_pixel is 0 * 0.05 = 0. *)
Lemma dimensions_consistent_fails :
  calculate_scale (PD := SampleCodec.param_default) Examples.no_pixel_size
  = inr Examples.no_pixel_size
  /\ x_meters Examples.no_pixel_size = 10%float
  /\ (int_to_double (drawing_width Examples.no_pixel_size)
      * drawing_meters_per_pixel Examples.no_pixel_size)%float = 0%float
  /\ ~ (forall l',
          calculate_scale (PD := SampleCodec.param_default)
                          Examples.no_pixel_size = inr l' ->
          dimensions_consistent l').
Proof.
  repeat (split; [reflexivity|]).
  intros H.
  destruct (H Examples.no_pixel_size ltac:(reflexivity)) as [Hx _].
  vm_compute in Hx. discriminate.
Qed.

(** C5: on a level with one measurement edge of 5 m between two vertices
    at the same place, the division is carried out with a pixel distance of
    zero: whatever [Param()] is, meters_per_pixel becomes infinity, and so
    do x_meters and y_meters. *)
Theorem calculate_scale_divides_by_zero :
  forall PD : ParamDefault,
    pixel_distance (vertices Examples.coincident_measurement)
                   (Examples.measurement 0 1 5) = Some 0%float
    /\ exists l',
         calculate_scale Examples.coincident_measurement = inr l'
         /\ drawing_meters_per_pixel l' = infinity
         /\ x_meters l' = infinity
         /\ y_meters l' = infinity.
Proof.
  intros PD. split; [reflexivity|].
  eexists. split; [vm_compute; reflexivity|].
  repeat split.
Qed.

(** ** Serialization *)

Section serialization.
Context {YC : YamlCodec}.
Implicit Types (l : BuildingLevel.t) (m : list (string * YNode))
  (k : string) (o : option YNode).

Lemma yget_yset k k' v m :
  yget k (yset k' v m) = if String.eqb k' k then Some v else yget k m.
Proof.
  induction m as [|[k0 w] m IH]; simpl.
  - reflexivity.
  - destruct (String.eqb_spec k0 k') as [->|Hne]; simpl.
    + destruct (String.eqb k' k); reflexivity.
    + rewrite IH. destruct (String.eqb_spec k0 k) as [->|]; [|reflexivity].
      destruct (String.eqb_spec k' k); [congruence | reflexivity].
Qed.

Lemma yget_ypush k k' v m :
  yget k (ypush k' v m)
  = if String.eqb k' k then Some (ypush_node v (yget k m)) else yget k m.
Proof.
  unfold ypush. rewrite yget_yset.
  destruct (String.eqb_spec k' k) as [->|]; reflexivity.
Qed.

(** Reading a key after a loop of [push_back]s only needs what was under
    that key before: the pushes to other keys drop out. *)
Lemma yget_fold_push {A : Type} (key : A -> string) (rec : A -> YNode)
    (xs : list A) :
  forall m k,
    yget k (fold_left (fun y a => ypush (key a) (rec a) y) xs m)
    = fold_left (fun o a => Some (ypush_node (rec a) o))
                (List.filter (fun a => String.eqb (key a) k) xs) (yget k m).
Proof.
  induction xs as [|a xs IH]; intros m k; simpl; [reflexivity|].
  rewrite IH, yget_ypush.
  destruct (String.eqb (key a) k); reflexivity.
Qed.

Lemma fold_push_seq {A : Type} (rec : A -> YNode) (xs : list A) :
  forall items,
    fold_left (fun o a => Some (ypush_node (rec a) o)) xs (Some (YSeq items))
    = Some (YSeq (items ++ map rec xs)).
Proof.
  induction xs as [|a xs IH]; intros items; simpl.
  - now rewrite app_nil_r.
  - rewrite IH, <- app_assoc. reflexivity.
Qed.

Lemma fold_push_none {A : Type} (rec : A -> YNode) (xs : list A) :
  fold_left (fun o a => Some (ypush_node (rec a) o)) xs None
  = seq_of (map rec xs).
Proof.
  destruct xs as [|a xs]; simpl; [reflexivity|].
  apply (fold_push_seq rec xs [rec a]).
Qed.

Lemma filter_never {A : Type} (xs : list A) :
  List.filter (fun _ => false) xs = [].
Proof. induction xs; simpl; auto. Qed.

Lemma filter_idem {A : Type} (f : A -> bool) (xs : list A) :
  List.filter f (List.filter f xs) = List.filter f xs.
Proof.
  induction xs as [|x xs IH]; simpl; [reflexivity|].
  destruct (f x) eqn:Hx; simpl; rewrite ?Hx, IH; reflexivity.
Qed.

Lemma filter_filter_and {A : Type} (f g : A -> bool) (xs : list A) :
  (forall x, f x = true -> g x = true) ->
  List.filter f (List.filter g xs) = List.filter f xs.
Proof.
  intros Hfg. induction xs as [|x xs IH]; simpl; [reflexivity|].
  destruct (g x) eqn:Hg; simpl.
  - now rewrite IH.
  - rewrite IH. destruct (f x) eqn:Hf; [|reflexivity].
    apply Hfg in Hf. congruence.
Qed.

(** The two loops that also print: their node and their output apart. *)
Lemma fold_push_edge (es : list Edge.t) :
  forall yl,
    fold_left push_edge es yl
    = (fold_left
         (fun y e => ypush (dict_name (Edge.type e)) (Edge_to_yaml e) y)
         es yl.1,
       yl.2 ++ flat_map (fun e => edge_report (Edge.type e)) es).
Proof.
  induction es as [|e es IH]; intros [y log]; simpl.
  - now rewrite app_nil_r.
  - rewrite IH. simpl. now rewrite <- app_assoc.
Qed.

Lemma fold_push_polygon (ps : list Polygon.t) :
  forall yl,
    fold_left push_polygon ps yl
    = (fold_left (fun y p => ypush "floors" (Polygon_to_yaml p) y)
                 (List.filter floor_polygon ps) yl.1,
       yl.2 ++ flat_map polygon_report ps).
Proof.
  induction ps as [|p ps IH]; intros [y log]; simpl.
  - now rewrite app_nil_r.
  - rewrite IH. unfold push_polygon, floor_polygon, polygon_report.
    destruct (Polygon.type p); simpl; [reflexivity|].
    now rewrite <- app_assoc.
Qed.

(** The entries of the emitted node, loop after loop. *)
Lemma to_yaml_node l :
  (to_yaml l).1
  = YMap
      (fold_left set_layer (layers l)
         (yset "layers" (YMap [])
            (fold_left (fun y p => ypush "floors" (Polygon_to_yaml p) y)
               (List.filter floor_polygon (polygons l))
               (fold_left (fun y model => ypush "models" (Model_to_yaml model) y)
                  (models l)
                  (fold_left
                     (fun y e =>
                        ypush (dict_name (Edge.type e)) (Edge_to_yaml e) y)
                     (edges l)
                     (fold_left
                        (fun y f => ypush "fiducials" (Fiducial_to_yaml f) y)
                        (fiducials l)
                        (fold_left
                           (fun y v => ypush "vertices" (Vertex_to_yaml v) y)
                           (vertices l) (to_yaml_header l)))))))).
Proof.
  unfold to_yaml; cbv zeta. rewrite fold_push_edge. cbn [fst snd].
  rewrite fold_push_polygon. reflexivity.
Qed.

Lemma to_yaml_log l :
  (to_yaml l).2
  = flat_map (fun e => edge_report (Edge.type e)) (edges l)
    ++ flat_map polygon_report (polygons l).
Proof.
  unfold to_yaml; cbv zeta. rewrite fold_push_edge. cbn [fst snd].
  rewrite fold_push_polygon. reflexivity.
Qed.

Lemma yget_set_layer_agree k m1 m2 (a : Layer.t) :
  yget k m1 = yget k m2 -> yget k (set_layer m1 a) = yget k (set_layer m2 a).
Proof.
  intros H. unfold set_layer.
  destruct (String.eqb_spec "layers" k) as [<-|Hne].
  - rewrite H. destruct (yget "layers" m2) eqn:E; [|congruence].
    rewrite !yget_yset. reflexivity.
  - apply String.eqb_neq in Hne.
    destruct (yget "layers" m1), (yget "layers" m2);
      rewrite ?yget_yset, ?Hne; exact H.
Qed.

Lemma yget_fold_set_layer_agree k (ls : list Layer.t) :
  forall m1 m2,
    yget k m1 = yget k m2 ->
    yget k (fold_left set_layer ls m1) = yget k (fold_left set_layer ls m2).
Proof.
  induction ls as [|a ls IH]; intros m1 m2 H; simpl; [exact H|].
  apply IH, yget_set_layer_agree, H.
Qed.

Lemma yget_fold_set_layer_other k (ls : list Layer.t) :
  k <> "layers"%string ->
  forall m, yget k (fold_left set_layer ls m) = yget k m.
Proof.
  intros Hne. induction ls as [|a ls IH]; intros m; simpl; [reflexivity|].
  rewrite IH. unfold set_layer.
  destruct (yget "layers" m); [|reflexivity].
  rewrite yget_yset.
  destruct (String.eqb_spec "layers" k); [congruence | reflexivity].
Qed.

Lemma known_edge_dict_name (e : Edge.t) :
  String.eqb (dict_name (Edge.type e)) "unknown" = negb (known_edge e).
Proof. unfold known_edge. destruct (Edge.type e); reflexivity. Qed.

Lemma header_has_no_unknown l : yget "unknown" (to_yaml_header l) = None.
Proof.
  unfold to_yaml_header. destruct (negb _); reflexivity.
Qed.

(** C9 (amended): [to_yaml] prints one message for every edge whose type
    is none of lane, wall, measurement, door and for every polygon whose
    type is not floor.  Such a polygon is skipped: the emitted node is the
    one of the level without it.  Such an edge is not skipped: its record
    is appended to a sequence under the key "unknown", which holds the
    records of exactly these edges in their order; under every other key
    the node reads as for the level without them. *)
Theorem to_yaml_unknown_types l :
  (to_yaml l).2
  = flat_map (fun e => edge_report (Edge.type e)) (edges l)
    ++ flat_map polygon_report (polygons l)
  /\ (to_yaml l).1 = (to_yaml (without_unknown_polygons l)).1
  /\ (forall k, k <> "unknown"%string ->
        yindex (to_yaml l).1 k = yindex (to_yaml (without_unknown l)).1 k)
  /\ yindex (to_yaml l).1 "unknown"
     = seq_of (map Edge_to_yaml
                   (List.filter (fun e => negb (known_edge e)) (edges l))).
Proof.
  split; [apply to_yaml_log|].
  split; [|split].
  - rewrite !to_yaml_node. simpl. now rewrite filter_idem.
  - intros k Hk. rewrite !to_yaml_node. unfold yindex; simpl.
    apply yget_fold_set_layer_agree.
    rewrite !yget_yset. destruct (String.eqb "layers" k); [reflexivity|].
    rewrite filter_idem, !yget_fold_push. do 2 f_equal.
    unfold to_yaml_header; simpl.
    rewrite filter_filter_and; [reflexivity|].
    intros e He. apply String.eqb_eq in He. unfold known_edge.
    destruct (Edge.type e); simpl in He; congruence.
  - rewrite to_yaml_node. unfold yindex; simpl.
    rewrite yget_fold_set_layer_other by discriminate.
    rewrite yget_yset. simpl.
    rewrite !yget_fold_push. simpl. rewrite !filter_never. simpl.
    rewrite header_has_no_unknown.
    rewrite (filter_ext _ _ known_edge_dict_name).
    apply fold_push_none.
Qed.
End serialization.

(** C9 as worded fails: the edge of unknown type is not skipped, its
    record is in the emitted node, under "unknown", and the node is not the
    one of the level without that edge. *)
Lemma unknown_edge_is_emitted :
  yindex (to_yaml (YC := SampleCodec.codec) Examples.with_unknown_edge).1
         "unknown"
  = Some (YSeq [SampleCodec.edge_to_yaml Examples.unknown_edge])
  /\ ~ unknown_skipped (YC := SampleCodec.codec) Examples.with_unknown_edge.
Proof.
  split; [vm_compute; reflexivity|].
  intros H. unfold unknown_skipped in H. vm_compute in H. discriminate.
Qed.

(** ** Deserialization *)

Section deserialization.
Context {PD : ParamDefault} {YC : YamlCodec}.
Implicit Types (l : BuildingLevel.t) (d : YNode).

Lemma default_scale_conversions :
  double_to_int (10 / 0.05)%float = inr 200
  /\ double_to_int (20 / 0.05)%float = inr 400
  /\ double_to_int (100 / 0.05)%float = inr 2000
  /\ (int_to_double 200 * DEFAULT_SCALE)%float = 10%float
  /\ (int_to_double 400 * DEFAULT_SCALE)%float = 20%float
  /\ (int_to_double 2000 * DEFAULT_SCALE)%float = 100%float
  /\ (0 <? DEFAULT_SCALE)%float = true.
Proof. vm_compute. repeat split. Qed.

(** The [else if] branch: both physical dimensions are given. *)
Lemma load_drawing_dimensions l d xn yn xm ym w h :
  no_drawing d ->
  yindex d "x_meters" = Some xn -> yindex d "y_meters" = Some yn ->
  as_double xn = inr xm -> as_double yn = inr ym ->
  double_to_int (xm / 0.05)%float = inr w ->
  double_to_int (ym / 0.05)%float = inr h ->
  load_drawing (set_name (name l) l) d
  = inr (inr (without_drawing xm ym w h (name l) l)).
Proof.
  intros Hd Hx Hy Hxm Hym Hw Hh. unfold load_drawing.
  rewrite Hd, Hx, Hy, Hxm. simpl. rewrite Hym. simpl.
  rewrite Hw. simpl. rewrite Hh. reflexivity.
Qed.

(** The [else] branch: a dimension is missing. *)
Lemma load_drawing_default l d :
  no_drawing d ->
  yindex d "x_meters" = None \/ yindex d "y_meters" = None ->
  load_drawing (set_name (name l) l) d
  = inr (inr (without_drawing 100 100 2000 2000 (name l) l)).
Proof.
  intros Hd Hxy. unfold load_drawing. rewrite Hd.
  assert (Hbranch :
            match yindex d "x_meters", yindex d "y_meters" with
            | Some _, Some _ => False
            | _, _ => True
            end).
  { destruct Hxy as [-> | ->]; [exact I|]. now destruct (yindex d "x_meters"). }
  destruct (yindex d "x_meters"), (yindex d "y_meters");
    try contradiction; reflexivity.
Qed.

(** The loaders touch the collections and the elevation only. *)
Lemma load_collections_frame l d l1 :
  load_collections l d = inr l1 ->
  drawing_width l1 = drawing_width l
  /\ drawing_height l1 = drawing_height l
  /\ drawing_meters_per_pixel l1 = drawing_meters_per_pixel l
  /\ x_meters l1 = x_meters l
  /\ y_meters l1 = y_meters l
  /\ name l1 = name l
  /\ drawing_filename l1 = drawing_filename l.
Proof.
  unfold load_collections, mbind, result_bind. intros H.
  repeat match type of H with
         | context [match ?x with _ => _ end] =>
             destruct x eqn:?; try discriminate; simpl in H
         end.
  injection H as <-.
  match goal with
  | E : match yindex d "elevation" with _ => _ end = inr _ |- _ =>
      destruct (yindex d "elevation") as [n|];
      [destruct (as_double n); try discriminate; simpl in E|];
      injection E as <-
  end; repeat split.
Qed.

Lemma calculate_scale_frame l l' :
  calculate_scale l = inr l' ->
  drawing_width l' = drawing_width l /\ drawing_height l' = drawing_height l.
Proof.
  unfold calculate_scale, mbind, result_bind.
  destruct (scale_loop _ _ _) as [|r]; [discriminate|].
  destruct (r.1.2 >? 0); simpl;
    match goal with
    | |- context [if ?g then _ else _] => destruct g
    end; intros H; injection H as <-; split; reflexivity.
Qed.

(** Without a measurement edge the default scale stays, and the physical
    dimensions are recomputed from the pixel dimensions. *)
Lemma calculate_scale_no_measurement l :
  Forall (fun e => Edge.is_meas e = false) (edges l) ->
  exists l',
    calculate_scale l = inr l'
    /\ drawing_meters_per_pixel l' = DEFAULT_SCALE
    /\ drawing_width l' = drawing_width l
    /\ drawing_height l' = drawing_height l
    /\ (drawing_width l <> 0 -> drawing_height l <> 0 ->
        x_meters l' = (int_to_double (drawing_width l) * DEFAULT_SCALE)%float
        /\ y_meters l'
           = (int_to_double (drawing_height l) * DEFAULT_SCALE)%float).
Proof.
  intros Hnone.
  assert (Hfilter : List.filter Edge.is_meas (edges l) = []).
  { induction Hnone as [|e es He _ IH]; simpl; [reflexivity|].
    now rewrite He. }
  assert (Hm : measurable l).
  { split; [|rewrite Hfilter; simpl; unfold INT_MAX; lia].
    eapply Forall_impl; [exact Hnone|]. simpl. congruence. }
  destruct (calculate_scale_result l Hm)
    as [_ (l' & Hcalc & Hmpp & Hw & Hh & Hyes & _)].
  unfold measurement_ratios in Hmpp, Hyes. rewrite Hfilter in Hmpp, Hyes.
  simpl in Hmpp, Hyes.
  exists l'. repeat (split; [assumption|]).
  intros Hw0 Hh0. apply Hyes. unfold dimensions_guard.
  rewrite Hw, Hh, Hmpp.
  apply Z.eqb_neq in Hw0, Hh0. rewrite Hw0, Hh0. reflexivity.
Qed.

(** [from_yaml] on a map without a drawing block, once the first branch
    has produced [lm] and the loaders have produced [l1] without a
    measurement edge. *)
Lemma from_yaml_default_scale l0 _name d lm l1 :
  IsMap d = true ->
  load_drawing (set_name _name l0) d = inr (inr lm) ->
  load_collections lm d = inr l1 ->
  Forall (fun e => Edge.is_meas e = false) (edges l1) ->
  drawing_width lm <> 0 -> drawing_height lm <> 0 ->
  exists l',
    from_yaml l0 _name d = inr (true, l')
    /\ drawing_meters_per_pixel l' = 0.05%float
    /\ drawing_width l' = drawing_width lm
    /\ drawing_height l' = drawing_height lm
    /\ x_meters l' = (int_to_double (drawing_width lm) * DEFAULT_SCALE)%float
    /\ y_meters l' = (int_to_double (drawing_height lm) * DEFAULT_SCALE)%float.
Proof.
  intros Hmap Hdraw Hload Hnone Hw0 Hh0.
  destruct (load_collections_frame lm d l1 Hload) as (Hw & Hh & _).
  destruct (calculate_scale_no_measurement l1 Hnone)
    as (l' & Hcalc & Hmpp & Hw' & Hh' & Hxy).
  exists l'. unfold from_yaml. rewrite Hmap. simpl.
  rewrite Hdraw. simpl. rewrite Hload. simpl. rewrite Hcalc. simpl.
  rewrite Hw', Hh', Hw, Hh. rewrite Hw, Hh in Hxy.
  destruct (Hxy Hw0 Hh0) as [Hx Hy].
  repeat split; assumption.
Qed.

(** The scale [calculate_scale] computes is the mean the specification
    describes. *)
Lemma mean_scale_computed l :
  (if Z.of_nat (length (measurement_ratios l)) >? 0
   then (fold_left PrimFloat.add (measurement_ratios l) 0
         / int_to_double (Z.of_nat (length (measurement_ratios l))))%float
   else DEFAULT_SCALE)
  = mean_scale l.
Proof.
  unfold mean_scale, arithmetic_mean.
  destruct (measurement_ratios l) as [|r rs]; [reflexivity|].
  destruct (Z.gtb_spec (Z.of_nat (length (r :: rs))) 0) as [_|Hle];
    [reflexivity | simpl in Hle; lia].
Qed.

(** [from_yaml] on a map without a drawing block, once the first branch
    has produced [lm] and the loaders have produced [l1], whatever
    measurement edges [l1] holds. *)
Lemma from_yaml_measured_scale l0 _name d lm l1 :
  IsMap d = true ->
  load_drawing (set_name _name l0) d = inr (inr lm) ->
  load_collections lm d = inr l1 ->
  measurable l1 ->
  drawing_width lm <> 0 -> drawing_height lm <> 0 ->
  exists l',
    from_yaml l0 _name d = inr (true, l')
    /\ drawing_meters_per_pixel l' = mean_scale l1
    /\ drawing_width l' = drawing_width lm
    /\ drawing_height l' = drawing_height lm
    /\ ((0 <? mean_scale l1)%float = true ->
        x_meters l' = (int_to_double (drawing_width lm) * mean_scale l1)%float
        /\ y_meters l'
           = (int_to_double (drawing_height lm) * mean_scale l1)%float)
    /\ ((0 <? mean_scale l1)%float = false ->
        x_meters l' = x_meters lm /\ y_meters l' = y_meters lm).
Proof.
  intros Hmap Hdraw Hload Hm Hw0 Hh0.
  destruct (load_collections_frame lm d l1 Hload)
    as (Hw & Hh & _ & Hx & Hy & _).
  destruct (calculate_scale_result l1 Hm)
    as [_ (l' & Hcalc & Hmpp & Hw' & Hh' & Hyes & Hno)].
  rewrite mean_scale_computed in Hmpp, Hyes.
  unfold dimensions_guard in Hyes, Hno.
  rewrite Hw', Hh', Hw, Hh, Hmpp in Hyes, Hno. rewrite Hx, Hy in Hno.
  apply Z.eqb_neq in Hw0, Hh0. rewrite Hw0, Hh0 in Hyes, Hno.
  exists l'. unfold from_yaml. rewrite Hmap. simpl.
  rewrite Hdraw. simpl. rewrite Hload. simpl. rewrite Hcalc. simpl.
  split; [reflexivity|]. split; [exact Hmpp|].
  split; [congruence|]. split; [congruence|].
  split; intros Hpos; [apply Hyes | apply Hno]; now rewrite Hpos.
Qed.

(** C8 (amended): for a level node that is a map without a drawing block,
    (1) with x_meters = 10 and y_meters = 20 the first branch sets 200 x
    400 pixels at 0.05 meters per pixel, and the two pixel dimensions are
    200 and 400 whatever else the node holds; (2) with x_meters or
    y_meters missing the first branch sets 100 m x 100 m, 2000 x 2000
    pixels at 0.05.  In both cases the final [calculate_scale] decides from
    the measurement edges the level holds once the collections of the node
    are loaded: without any, [from_yaml] returns true with meters_per_pixel
    0.05 and x_meters, y_meters 10, 20 (100, 100 in case 2); with
    measurement edges that join existing vertices it returns true with
    meters_per_pixel their mean ratio, and x_meters, y_meters are the
    pixel dimensions times that mean when the mean is greater than 0, and
    stay 10, 20 (100, 100) when it is not. *)
Theorem from_yaml_without_drawing_block (l0 : BuildingLevel.t)
    (_name : string) (d : YNode) :
  IsMap d = true ->
  no_drawing d ->
  (forall xn yn,
      yindex d "x_meters" = Some xn -> yindex d "y_meters" = Some yn ->
      as_double xn = inr 10%float -> as_double yn = inr 20%float ->
      load_drawing (set_name _name l0) d
      = inr (inr (without_drawing 10 20 200 400 _name l0))
      /\ (forall l1,
             load_collections (without_drawing 10 20 200 400 _name l0) d
             = inr l1 ->
             Forall (fun e => Edge.is_meas e = false) (edges l1) ->
             exists l',
               from_yaml l0 _name d = inr (true, l')
               /\ drawing_meters_per_pixel l' = 0.05%float
               /\ drawing_width l' = 200
               /\ drawing_height l' = 400
               /\ x_meters l' = 10%float
               /\ y_meters l' = 20%float)
      /\ (forall b l',
             from_yaml l0 _name d = inr (b, l') ->
             b = true /\ drawing_width l' = 200 /\ drawing_height l' = 400)
      /\ (forall l1,
             load_collections (without_drawing 10 20 200 400 _name l0) d
             = inr l1 ->
             measurable l1 ->
             exists l',
               from_yaml l0 _name d = inr (true, l')
               /\ drawing_meters_per_pixel l' = mean_scale l1
               /\ drawing_width l' = 200
               /\ drawing_height l' = 400
               /\ ((0 <? mean_scale l1)%float = true ->
                   x_meters l' = (int_to_double 200 * mean_scale l1)%float
                   /\ y_meters l'
                      = (int_to_double 400 * mean_scale l1)%float)
               /\ ((0 <? mean_scale l1)%float = false ->
                   x_meters l' = 10%float /\ y_meters l' = 20%float)))
  /\ (yindex d "x_meters" = None \/ yindex d "y_meters" = None ->
      load_drawing (set_name _name l0) d
      = inr (inr (without_drawing 100 100 2000 2000 _name l0))
      /\ (forall l1,
             load_collections (without_drawing 100 100 2000 2000 _name l0) d
             = inr l1 ->
             Forall (fun e => Edge.is_meas e = false) (edges l1) ->
             exists l',
               from_yaml l0 _name d = inr (true, l')
               /\ drawing_meters_per_pixel l' = 0.05%float
               /\ x_meters l' = 100%float
               /\ y_meters l' = 100%float
               /\ drawing_width l' = 2000
               /\ drawing_height l' = 2000)
      /\ (forall l1,
             load_collections (without_drawing 100 100 2000 2000 _name l0) d
             = inr l1 ->
             measurable l1 ->
             exists l',
               from_yaml l0 _name d = inr (true, l')
               /\ drawing_meters_per_pixel l' = mean_scale l1
               /\ drawing_width l' = 2000
               /\ drawing_height l' = 2000
               /\ ((0 <? mean_scale l1)%float = true ->
                   x_meters l' = (int_to_double 2000 * mean_scale l1)%float
                   /\ y_meters l'
                      = (int_to_double 2000 * mean_scale l1)%float)
               /\ ((0 <? mean_scale l1)%float = false ->
                   x_meters l' = 100%float /\ y_meters l' = 100%float))).
Proof.
  intros Hmap Hd.
  destruct default_scale_conversions as (C1 & C2 & C3 & C4 & C5 & C6 & _).
  split.
  - intros xn yn Hx Hy Hxm Hym.
    pose proof (load_drawing_dimensions (set_name _name l0) d xn yn _ _ 200 400
                  Hd Hx Hy Hxm Hym C1 C2) as Hdraw.
    change (set_name (name (set_name _name l0)) (set_name _name l0))
      with (set_name _name l0) in Hdraw.
    change (without_drawing 10 20 200 400 (name (set_name _name l0))
              (set_name _name l0))
      with (without_drawing 10 20 200 400 _name l0) in Hdraw.
    split; [exact Hdraw|]. split; [|split].
    + intros l1 Hload Hnone.
      destruct (from_yaml_default_scale l0 _name d _ l1 Hmap Hdraw Hload Hnone
                  ltac:(discriminate) ltac:(discriminate))
        as (l' & Hfrom & Hmpp & Hw & Hh & Hxm' & Hym').
      exists l'. split; [exact Hfrom|]. split; [exact Hmpp|].
      split; [exact Hw|]. split; [exact Hh|].
      split; [rewrite Hxm'; exact C4 | rewrite Hym'; exact C5].
    + intros b l'. unfold from_yaml. rewrite Hmap. simpl. rewrite Hdraw. simpl.
      destruct (load_collections _ d) as [|l1] eqn:Hload; [discriminate|].
      simpl. destruct (calculate_scale l1) as [|l2] eqn:Hcalc; [discriminate|].
      simpl. intros H. injection H as <- <-.
      destruct (calculate_scale_frame l1 l2 Hcalc) as [-> ->].
      destruct (load_collections_frame _ d l1 Hload) as (-> & -> & _).
      repeat split.
    + intros l1 Hload Hm.
      exact (from_yaml_measured_scale l0 _name d _ l1 Hmap Hdraw Hload Hm
               ltac:(discriminate) ltac:(discriminate)).
  - intros Hxy.
    pose proof (load_drawing_default (set_name _name l0) d Hd Hxy) as Hdraw.
    change (set_name (name (set_name _name l0)) (set_name _name l0))
      with (set_name _name l0) in Hdraw.
    change (without_drawing 100 100 2000 2000 (name (set_name _name l0))
              (set_name _name l0))
      with (without_drawing 100 100 2000 2000 _name l0) in Hdraw.
    split; [exact Hdraw|]. split.
    + intros l1 Hload Hnone.
      destruct (from_yaml_default_scale l0 _name d _ l1 Hmap Hdraw Hload Hnone
                  ltac:(discriminate) ltac:(discriminate))
        as (l' & Hfrom & Hmpp & Hw & Hh & Hxm' & Hym').
      exists l'. split; [exact Hfrom|]. split; [exact Hmpp|].
      split; [rewrite Hxm'; exact C6|]. split; [rewrite Hym'; exact C6|].
      split; [exact Hw | exact Hh].
    + intros l1 Hload Hm.
      exact (from_yaml_measured_scale l0 _name d _ l1 Hmap Hdraw Hload Hm
               ltac:(discriminate) ltac:(discriminate)).
Qed.
End deserialization.

Lemma from_yaml_without_drawing_block_witness :
  (exists l',
      from_yaml (PD := SampleCodec.param_default) (YC := SampleCodec.codec)
                SampleCodec.empty_level "L1" Examples.doc_dimensions
      = inr (true, l')
      /\ drawing_meters_per_pixel l' = 0.05%float
      /\ drawing_width l' = 200
      /\ drawing_height l' = 400)
  /\ (exists l',
        from_yaml (PD := SampleCodec.param_default) (YC := SampleCodec.codec)
                  SampleCodec.empty_level "L1" Examples.doc_measured
        = inr (true, l')
        /\ drawing_meters_per_pixel l' = 0.1%float
        /\ drawing_width l' = 200
        /\ drawing_height l' = 400
        /\ x_meters l' = 20%float
        /\ y_meters l' = 40%float).
Proof.
  split.
  - destruct (from_yaml_without_drawing_block
                (PD := SampleCodec.param_default) (YC := SampleCodec.codec)
                SampleCodec.empty_level "L1" Examples.doc_dimensions
                eq_refl eq_refl) as [Hdims _].
    destruct (Hdims (YDouble 10) (YDouble 20) eq_refl eq_refl eq_refl eq_refl)
      as (_ & Hload & _).
    destruct (Hload (without_drawing 10 20 200 400 "L1"
                       SampleCodec.empty_level)
                    eq_refl ltac:(constructor))
      as (l' & Hfrom & Hmpp & Hw & Hh & _).
    exists l'. repeat split; assumption.
  - destruct (from_yaml_without_drawing_block
                (PD := SampleCodec.param_default) (YC := SampleCodec.codec)
                SampleCodec.empty_level "L1" Examples.doc_measured
                eq_refl eq_refl) as [Hdims _].
    destruct (Hdims (YDouble 10) (YDouble 20) eq_refl eq_refl eq_refl eq_refl)
      as (_ & _ & _ & Hmeas).
    edestruct Hmeas as (l' & Hfrom & Hmpp & Hw & Hh & Hyes & _).
    + vm_compute. reflexivity.
    + split; [repeat constructor; simpl; lia | vm_compute; discriminate].
    + exists l'. split; [exact Hfrom|]. split; [exact Hmpp|].
      split; [exact Hw|]. split; [exact Hh|].
      exact (Hyes eq_refl).
Defined.

(** C8 as worded fails: the node has no drawing block, x_meters = 10 and
    y_meters = 20, and also a measurement of 10 m between two vertices 100
    pixels apart; the final [calculate_scale] makes meters_per_pixel 0.1
    and x_meters 20. *)
Lemma measurement_overrides_default_scale :
  no_drawing Examples.doc_measured
  /\ yindex Examples.doc_measured "x_meters" = Some (YDouble 10)
  /\ yindex Examples.doc_measured "y_meters" = Some (YDouble 20)
  /\ exists l',
       from_yaml (PD := SampleCodec.param_default) (YC := SampleCodec.codec)
                 SampleCodec.empty_level "L1" Examples.doc_measured
       = inr (true, l')
       /\ drawing_meters_per_pixel l' = 0.1%float
       /\ drawing_meters_per_pixel l' <> 0.05%float
       /\ x_meters l' = 20%float.
Proof.
  repeat (split; [reflexivity|]).
  eexists. split; [vm_compute; reflexivity|].
  split; [reflexivity|]. split; [|reflexivity].
  simpl. intros H.
  apply (f_equal (fun f => PrimFloat.eqb f 0.05)) in H.
  vm_compute in H. discriminate.
Qed.

(** ** More about deletion and selection *)

Lemma vertex_unused_indices idx (es : list Edge.t) (ps : list Polygon.t) :
  vertex_used idx es ps = false ->
  Forall (fun e => Edge.start_idx e <> idx /\ Edge.end_idx e <> idx) es
  /\ Forall (fun p => Forall (fun i => i <> idx) (Polygon.vertices p)) ps.
Proof.
  intros Hu.
  assert (Hfree : ~ referenced idx es ps).
  { intros Hr. apply vertex_used_referenced in Hr. congruence. }
  split; apply List.Forall_forall.
  - intros e He. split; intros Heq; apply Hfree; left; exists e; auto.
  - intros p Hp. apply List.Forall_forall. intros i Hi ->.
    apply Hfree. right. exists p. auto.
Qed.

Lemma Forall_filter_keeps {A : Type} (P : A -> Prop) (f : A -> bool)
    (xs : list A) :
  Forall P xs -> Forall P (List.filter f xs).
Proof.
  intros H. apply List.Forall_forall. intros x Hx.
  apply filter_In in Hx as [Hx _].
  revert x Hx. now apply List.Forall_forall.
Qed.

Lemma Forall_both {A : Type} (P Q : A -> Prop) (xs : list A) :
  Forall P xs -> Forall Q xs -> Forall (fun x => P x /\ Q x) xs.
Proof. induction 1; inversion 1; subst; constructor; auto. Qed.

(** X1: [delete_selected] keeps invariant I1.  If every index stored in an
    edge or a polygon is an index into the vertices before the call, the
    same holds after it, whether a vertex was deleted or not. *)
Theorem delete_selected_keeps_indices_valid (l : BuildingLevel.t) :
  indices_valid l -> indices_valid (delete_selected l).2.
Proof.
  intros [He Hp]. rewrite delete_selected_cases; cbv zeta.
  pose proof (first_selected_from_range 0 (vertices l)) as Hrange.
  set (idx := first_selected_from 0 (vertices l)) in *.
  assert (He1 : Forall (endpoints_in_range (vertices l))
                       (edges (erase_selected l)))
    by (apply Forall_filter_keeps, He).
  destruct (Z.geb_spec idx 0) as [Hge|_]; [|split; assumption].
  destruct (vertex_used idx _ _) eqn:Hu; [split; assumption|].
  apply vertex_unused_indices in Hu as [Hue Hup].
  assert (Hlen : Z.of_nat (length (delete (Z.to_nat idx) (vertices l)))
                 = Z.of_nat (length (vertices l)) - 1).
  { destruct (lookup_lt_is_Some_2 (vertices l) (Z.to_nat idx) ltac:(lia))
      as [v Hv].
    rewrite length_delete by eauto. lia. }
  split; simpl.
  - apply Forall_map. simpl.
    eapply Forall_impl; [exact (Forall_both _ _ _ He1 Hue)|].
    simpl. intros e [[Hs Hen] [Hns Hne]].
    unfold endpoints_in_range, reindex_edge, decrement_above in *. simpl.
    rewrite Hlen.
    destruct (Z.gtb_spec (Edge.start_idx e) idx),
             (Z.gtb_spec (Edge.end_idx e) idx); lia.
  - apply Forall_map. simpl.
    eapply Forall_impl; [exact (Forall_both _ _ _ Hp Hup)|].
    simpl. intros p [Hin Hne]. apply Forall_map. simpl.
    eapply Forall_impl; [exact (Forall_both _ _ _ Hin Hne)|].
    simpl. intros i [Hi Hni]. unfold decrement_above. rewrite Hlen.
    destruct (Z.gtb_spec i idx); lia.
Qed.

Lemma two_selected_indices_valid : indices_valid MoreExamples.two_selected.
Proof.
  split; repeat constructor; simpl; lia.
Qed.

Lemma delete_selected_keeps_indices_valid_witness :
  (delete_selected MoreExamples.two_selected).1 = true
  /\ length (vertices (delete_selected MoreExamples.two_selected).2) = 3%nat
  /\ indices_valid (delete_selected MoreExamples.two_selected).2.
Proof.
  split; [reflexivity|]. split; [reflexivity|].
  exact (delete_selected_keeps_indices_valid MoreExamples.two_selected
           two_selected_indices_valid).
Defined.

Lemma filter_selected_none {A : Type} (sel : A -> bool) (xs : list A) :
  Forall (fun x => sel x = false) (List.filter (fun x => negb (sel x)) xs).
Proof.
  apply List.Forall_forall. intros x Hx. apply filter_In in Hx as [_ Hx].
  now apply negb_true_iff in Hx.
Qed.

(** X2: after [delete_selected], whatever it returns, no edge, no model
    and no fiducial of the level is selected; the models and the fiducials
    are exactly the unselected ones of before, in their order, and the
    layers and all scalar members of the level are untouched. *)
Theorem delete_selected_erases_selected (l : BuildingLevel.t) :
  Forall (fun e => Edge.selected e = false) (edges (delete_selected l).2)
  /\ Forall (fun m => Model.selected m = false) (models (delete_selected l).2)
  /\ Forall (fun f => Fiducial.selected f = false)
            (fiducials (delete_selected l).2)
  /\ models (delete_selected l).2
     = List.filter (fun m => negb (Model.selected m)) (models l)
  /\ fiducials (delete_selected l).2
     = List.filter (fun f => negb (Fiducial.selected f)) (fiducials l)
  /\ layers (delete_selected l).2 = layers l
  /\ name (delete_selected l).2 = name l
  /\ drawing_filename (delete_selected l).2 = drawing_filename l
  /\ drawing_width (delete_selected l).2 = drawing_width l
  /\ drawing_height (delete_selected l).2 = drawing_height l
  /\ drawing_meters_per_pixel (delete_selected l).2
     = drawing_meters_per_pixel l
  /\ x_meters (delete_selected l).2 = x_meters l
  /\ y_meters (delete_selected l).2 = y_meters l
  /\ elevation (delete_selected l).2 = elevation l.
Proof.
  pose proof (filter_selected_none Edge.selected (edges l)) as He.
  pose proof (filter_selected_none Model.selected (models l)) as Hm.
  pose proof (filter_selected_none Fiducial.selected (fiducials l)) as Hf.
  rewrite delete_selected_cases; cbv zeta.
  destruct (_ >=? 0); [destruct (vertex_used _ _ _)|]; simpl;
    repeat split; try assumption.
  apply Forall_map. simpl. exact He.
Qed.

Lemma first_selected_from_unselected i (vs : list Vertex.t) :
  first_selected_from i (map (Vertex.set_selected false) vs) = -1.
Proof. revert i; induction vs as [|v vs IH]; intros i; simpl; auto. Qed.

Lemma filter_cleared {A : Type} (sel : A -> bool) (clear : A -> A)
    (xs : list A) :
  (forall x, sel (clear x) = false) ->
  List.filter (fun x => negb (sel x)) (map clear xs) = map clear xs.
Proof.
  intros H. induction xs as [|x xs IH]; simpl; [reflexivity|].
  now rewrite H, IH.
Qed.

(** X3: [clear_selection] followed by [delete_selected] deletes nothing:
    the call returns true and the level is the one [clear_selection] left;
    and clearing the selection twice is clearing it once. *)
Theorem delete_selected_after_clear_selection (l : BuildingLevel.t) :
  delete_selected (clear_selection l) = (true, clear_selection l)
  /\ clear_selection (clear_selection l) = clear_selection l.
Proof.
  split.
  - unfold delete_selected, erase_selected, clear_selection; simpl.
    rewrite first_selected_from_unselected. simpl.
    rewrite !filter_cleared by reflexivity. reflexivity.
  - unfold clear_selection; simpl. rewrite !map_map. reflexivity.
Qed.

Lemma filter_selected_take k (vs : list Vertex.t) :
  (forall j w, (j < k)%nat -> vs !! j = Some w -> Vertex.selected w = false) ->
  List.filter Vertex.selected (take k vs) = [].
Proof.
  revert k; induction vs as [|v vs IH]; intros [|k] Hlow; simpl;
    try reflexivity.
  rewrite (Hlow 0%nat v ltac:(lia) eq_refl).
  apply IH. intros j w Hj Hw. apply (Hlow (S j) w); [lia | exact Hw].
Qed.

(** X4: a successful [delete_selected] takes exactly the first vertex out
    of the selected ones: the selected vertices after the call are the
    selected vertices before it without their head (none when none was
    selected), so that calling it until the selection is empty or it
    returns false deletes the selected vertices one by one, in index
    order. *)
Theorem delete_selected_consumes_first_selected (l : BuildingLevel.t) :
  (delete_selected l).1 = true ->
  selected_vertices (delete_selected l).2 = tail (selected_vertices l).
Proof.
  unfold selected_vertices. rewrite delete_selected_cases; cbv zeta.
  pose proof (first_selected_from_none 0 (vertices l) ltac:(lia)) as Hnone.
  pose proof (first_selected_from_range 0 (vertices l)) as Hrange.
  set (idx := first_selected_from 0 (vertices l)) in *.
  destruct (Z.geb_spec idx 0) as [Hge|Hlt].
  - destruct (vertex_used idx _ _); [discriminate|]. intros _. simpl.
    destruct (first_selected_from_first 0 (vertices l) idx ltac:(lia)
                eq_refl Hge) as [(v & Hv & Hsel) Hlow].
    rewrite Z.sub_0_r in Hv, Hlow.
    rewrite delete_take_drop.
    rewrite <- (take_drop_middle (vertices l) (Z.to_nat idx) v Hv) at 3.
    rewrite !List.filter_app, filter_selected_take by exact Hlow.
    simpl. now rewrite Hsel.
  - intros _. simpl.
    destruct Hnone as [Hnone _]. specialize (Hnone ltac:(lia)).
    assert (Hempty : List.filter Vertex.selected (vertices l) = []).
    { clear -Hnone. induction Hnone as [|v vs Hv _ IH]; simpl;
        [reflexivity|]. rewrite Hv. exact IH. }
    now rewrite Hempty.
Qed.

Lemma delete_selected_consumes_first_selected_witness :
  selected_vertices MoreExamples.two_selected
  = [Examples.vtx 10 0 true; Examples.vtx 30 0 true]
  /\ selected_vertices (delete_selected MoreExamples.two_selected).2
     = [Examples.vtx 30 0 true].
Proof.
  split; [reflexivity|].
  exact (delete_selected_consumes_first_selected MoreExamples.two_selected
           eq_refl).
Defined.

(** ** More about calibration *)

Section more_calibration.
Context {PD : ParamDefault}.
Implicit Types (l : BuildingLevel.t) (vs : list Vertex.t)
  (es : list Edge.t) (e : Edge.t) (acc : float * Z).

Lemma set_params_same e : Edge.set_params (Edge.params e) e = e.
Proof. now destruct e. Qed.

Lemma params_index_edge e :
  Edge.set_params (params_index "distance" (Edge.params e)).2 e
  = with_distance e.
Proof.
  unfold params_index, with_distance.
  destruct (Edge.params e !! "distance"); simpl;
    [apply set_params_same | reflexivity].
Qed.

Lemma with_distance_meas e : Edge.is_meas (with_distance e) = Edge.is_meas e.
Proof. unfold with_distance. now destruct (Edge.params e !! "distance"). Qed.

Lemma with_distance_again e : with_distance (with_distance e) = with_distance e.
Proof.
  unfold with_distance.
  destruct (Edge.params e !! "distance") eqn:Hd; simpl.
  - now rewrite Hd.
  - now rewrite lookup_insert_eq.
Qed.

Lemma distance_parameter_with_distance e :
  distance_parameter (with_distance e) = distance_parameter e.
Proof.
  unfold with_distance, distance_parameter.
  destruct (Edge.params e !! "distance") eqn:Hd; [now rewrite Hd|].
  simpl. now rewrite lookup_insert_eq.
Qed.

(** One iteration, by the type of the edge. *)
Lemma scale_step_inv vs acc e acc' e' :
  scale_step vs acc e = inr (acc', e') ->
  e' = (if Edge.is_meas e then with_distance e else e)
  /\ scale_step vs acc e' = inr (acc', e').
Proof.
  unfold scale_step. destruct (Edge.is_meas e) eqn:Hm.
  - destruct (acc.2 <? INT_MAX); [|discriminate]. simpl.
    destruct (vertex_at vs (Edge.start_idx e)) as [|a] eqn:Ha;
      [discriminate|]. simpl.
    destruct (vertex_at vs (Edge.end_idx e)) as [|b] eqn:Hb;
      [discriminate|]. simpl.
    rewrite params_index_edge, distance_parameter_index.
    intros H. injection H as <- <-. split; [reflexivity|].
    rewrite with_distance_meas, Hm.
    assert (Hs : Edge.start_idx (with_distance e) = Edge.start_idx e)
      by (unfold with_distance; now destruct (Edge.params e !! "distance")).
    assert (He : Edge.end_idx (with_distance e) = Edge.end_idx e)
      by (unfold with_distance; now destruct (Edge.params e !! "distance")).
    rewrite Hs, He, Ha, Hb. simpl.
    rewrite params_index_edge, distance_parameter_index.
    now rewrite with_distance_again, distance_parameter_with_distance.
  - intros H. injection H as <- <-. rewrite Hm. auto.
Qed.

Lemma scale_loop_inv vs es :
  forall acc acc' es',
    scale_loop vs es acc = inr (acc', es') ->
    es' = map (fun e => if Edge.is_meas e then with_distance e else e) es
    /\ scale_loop vs es' acc = inr (acc', es').
Proof.
  induction es as [|e es IH]; intros acc acc' es'; simpl.
  - intros H. injection H as <- <-. auto.
  - destruct (scale_step vs acc e) as [|[acc1 e1]] eqn:Hstep; [discriminate|].
    simpl.
    destruct (scale_loop vs es acc1) as [|[acc2 es2]] eqn:Hloop;
      [discriminate|]. simpl.
    intros H. injection H as <- <-.
    destruct (scale_step_inv vs acc e acc1 e1 Hstep) as [-> Hstep'].
    destruct (IH acc1 acc2 es2 Hloop) as [-> Hloop'].
    split; [reflexivity|]. simpl. rewrite Hstep'. simpl.
    rewrite Hloop'. reflexivity.
Qed.

(** The level [calculate_scale] returns, from the result of its loop. *)
Lemma calculate_scale_inv l l' :
  calculate_scale l = inr l' ->
  exists scale_sum scale_count,
    scale_loop (vertices l) (edges l) (0%float, 0)
    = inr (scale_sum, scale_count, edges l')
    /\ scale_loop (vertices l) (edges l') (0%float, 0)
       = inr (scale_sum, scale_count, edges l')
    /\ edges l'
       = map (fun e => if Edge.is_meas e then with_distance e else e) (edges l)
    /\ l' = scale_result l (edges l') scale_sum scale_count.
Proof.
  unfold calculate_scale, mbind, result_bind.
  destruct (scale_loop (vertices l) (edges l) (0%float, 0))
    as [|[[s n] es']] eqn:Hloop; [discriminate|].
  destruct (scale_loop_inv _ _ _ _ _ Hloop) as [Hes Hloop'].
  cbn [fst snd]. intros H. exists s, n.
  assert (Hl' : l' = scale_result l es' s n).
  { unfold scale_result, dimensions_guard. cbv zeta.
    destruct (n >? 0); simpl in H |- *;
      match type of H with
      | (if ?g then _ else _) = _ => destruct g
      end; congruence. }
  assert (Hedges : edges l' = es').
  { rewrite Hl'. unfold scale_result. cbv zeta.
    destruct (n >? 0); destruct (dimensions_guard _); reflexivity. }
  rewrite Hedges. auto.
Qed.

Lemma scale_result_again l es s n :
  scale_result (scale_result l es s n) es s n = scale_result l es s n.
Proof.
  unfold scale_result, dimensions_guard. cbv zeta.
  generalize DEFAULT_SCALE as d. intros d.
  destruct (n >? 0); simpl;
    match goal with
    | |- context [(0 <? ?m)%float] =>
        destruct (negb (drawing_width l =? 0) && negb (drawing_height l =? 0)
                  && (0 <? m)%float) eqn:Hg
    end; simpl; rewrite Hg; reflexivity.
Qed.

Lemma scale_result_vertices l es s n :
  vertices (scale_result l es s n) = vertices l.
Proof.
  unfold scale_result. cbv zeta.
  destruct (n >? 0); destruct (dimensions_guard _); reflexivity.
Qed.

Lemma calculate_scale_of_loop l s n es :
  scale_loop (vertices l) (edges l) (0%float, 0) = inr (s, n, es) ->
  calculate_scale l = inr (scale_result l es s n).
Proof.
  intros Hloop. unfold calculate_scale, mbind, result_bind. rewrite Hloop.
  cbn [fst snd]. unfold scale_result, dimensions_guard. cbv zeta.
  destruct (n >? 0); simpl;
    match goal with
    | |- (if ?g then _ else _) = _ => destruct g
    end; reflexivity.
Qed.

(** X5: recalculating the scale is idempotent: on the level that a call
    of [calculate_scale] returned, another call returns that same level. *)
Theorem calculate_scale_idempotent l l' :
  calculate_scale l = inr l' -> calculate_scale l' = inr l'.
Proof.
  intros H.
  destruct (calculate_scale_inv l l' H) as (s & n & _ & Hloop' & _ & Hl').
  assert (Hv : vertices l' = vertices l)
    by (rewrite Hl'; apply scale_result_vertices).
  rewrite <- Hv in Hloop'.
  rewrite (calculate_scale_of_loop l' s n (edges l') Hloop').
  f_equal. remember (edges l') as es eqn:Hes. rewrite Hl'.
  apply scale_result_again.
Qed.

Lemma scale_result_frame l es s n :
  let l' := scale_result l es s n in
  edges l' = es /\ vertices l' = vertices l /\ models l' = models l
  /\ polygons l' = polygons l /\ fiducials l' = fiducials l
  /\ layers l' = layers l /\ name l' = name l
  /\ drawing_filename l' = drawing_filename l
  /\ drawing_width l' = drawing_width l
  /\ drawing_height l' = drawing_height l
  /\ elevation l' = elevation l.
Proof.
  unfold scale_result. cbv zeta.
  destruct (n >? 0); destruct (dimensions_guard _); repeat split.
Qed.

(** X6: besides meters_per_pixel, x_meters and y_meters, a call of
    [calculate_scale] changes one thing: reading [params["distance"]]
    stores a default-constructed "distance" parameter in every measurement
    edge that has none.  The parameters of every other edge, the
    endpoints, type and selection of every edge, the vertices, models,
    polygons, fiducials, layers, pixel dimensions, name, file name and
    elevation are as before. *)
Theorem calculate_scale_frame_and_distance l l' :
  calculate_scale l = inr l' ->
  Forall2
    (fun e e' =>
       Edge.start_idx e' = Edge.start_idx e
       /\ Edge.end_idx e' = Edge.end_idx e
       /\ Edge.type e' = Edge.type e
       /\ Edge.selected e' = Edge.selected e
       /\ Edge.params e'
          = if Edge.is_meas e then
              match Edge.params e !! "distance" with
              | Some _ => Edge.params e
              | None => <["distance" := Param_default]> (Edge.params e)
              end
            else Edge.params e)
    (edges l) (edges l')
  /\ vertices l' = vertices l
  /\ models l' = models l
  /\ polygons l' = polygons l
  /\ fiducials l' = fiducials l
  /\ layers l' = layers l
  /\ name l' = name l
  /\ drawing_filename l' = drawing_filename l
  /\ drawing_width l' = drawing_width l
  /\ drawing_height l' = drawing_height l
  /\ elevation l' = elevation l.
Proof.
  intros H.
  destruct (calculate_scale_inv l l' H) as (s & n & _ & _ & Hes & Hl').
  split.
  - rewrite Hes. apply Forall2_map_self. intros e. unfold with_distance.
    destruct (Edge.is_meas e); [|auto].
    destruct (Edge.params e !! "distance"); simpl; auto.
  - destruct (scale_result_frame l (edges l') s n) as (_ & Hrest).
    rewrite <- Hl' in Hrest. exact Hrest.
Qed.

Lemma vertex_at_clear vs i :
  vertex_at (map (Vertex.set_selected false) vs) i
  = match vertex_at vs i with
    | inl err => inl err
    | inr v => inr (Vertex.set_selected false v)
    end.
Proof.
  unfold vertex_at. destruct (i <? 0); [reflexivity|].
  rewrite list_lookup_fmap. now destruct (vs !! Z.to_nat i).
Qed.

Lemma scale_step_clear vs acc e :
  scale_step (map (Vertex.set_selected false) vs) acc
             (Edge.set_selected false e)
  = match scale_step vs acc e with
    | inl err => inl err
    | inr r => inr (r.1, Edge.set_selected false r.2)
    end.
Proof.
  unfold scale_step. replace (Edge.is_meas (Edge.set_selected false e))
    with (Edge.is_meas e) by reflexivity.
  destruct (Edge.is_meas e); [|reflexivity].
  destruct (acc.2 <? INT_MAX); [|reflexivity]. simpl.
  rewrite !vertex_at_clear.
  destruct (vertex_at vs (Edge.start_idx e)); [reflexivity|]. simpl.
  destruct (vertex_at vs (Edge.end_idx e)); reflexivity.
Qed.

Lemma scale_loop_clear vs es :
  forall acc,
    scale_loop (map (Vertex.set_selected false) vs)
               (map (Edge.set_selected false) es) acc
    = match scale_loop vs es acc with
      | inl err => inl err
      | inr r => inr (r.1, map (Edge.set_selected false) r.2)
      end.
Proof.
  induction es as [|e es IH]; intros acc; simpl; [reflexivity|].
  rewrite scale_step_clear.
  destruct (scale_step vs acc e) as [|r]; [reflexivity|]. simpl.
  rewrite IH. destruct (scale_loop vs es r.1); reflexivity.
Qed.

Lemma scale_result_clear l es s n :
  scale_result (clear_selection l) (map (Edge.set_selected false) es) s n
  = clear_selection (scale_result l es s n).
Proof.
  unfold scale_result, dimensions_guard. cbv zeta.
  generalize DEFAULT_SCALE as d. intros d.
  destruct (n >? 0); simpl;
    match goal with
    | |- context [(0 <? ?m)%float] =>
        destruct (negb (drawing_width l =? 0) && negb (drawing_height l =? 0)
                  && (0 <? m)%float)
    end; reflexivity.
Qed.

(** X7: the scale does not depend on what is selected: [calculate_scale]
    on the level with its selection cleared fails where it fails on the
    level itself, and otherwise returns the same level with its selection
    cleared. *)
Theorem calculate_scale_ignores_selection l :
  calculate_scale (clear_selection l)
  = match calculate_scale l with
    | inl err => inl err
    | inr l' => inr (clear_selection l')
    end.
Proof.
  assert (Hclear : scale_loop (vertices (clear_selection l))
                              (edges (clear_selection l)) (0%float, 0)
                   = match scale_loop (vertices l) (edges l) (0%float, 0) with
                     | inl err => inl err
                     | inr r => inr (r.1, map (Edge.set_selected false) r.2)
                     end)
    by apply scale_loop_clear.
  destruct (scale_loop (vertices l) (edges l) (0%float, 0))
    as [err|[[s n] es]] eqn:Hloop.
  - unfold calculate_scale, mbind, result_bind. now rewrite Hclear, Hloop.
  - rewrite (calculate_scale_of_loop l s n es Hloop).
    rewrite <- scale_result_clear.
    apply calculate_scale_of_loop. exact Hclear.
Qed.
End more_calibration.

Lemma calculate_scale_idempotent_witness :
  exists l',
    calculate_scale (PD := SampleCodec.param_default) MoreExamples.undistanced
    = inr l'
    /\ calculate_scale (PD := SampleCodec.param_default) l' = inr l'.
Proof.
  eexists. split; [vm_compute; reflexivity|].
  apply (calculate_scale_idempotent (PD := SampleCodec.param_default)
           MoreExamples.undistanced).
  vm_compute. reflexivity.
Defined.

Lemma calculate_scale_frame_and_distance_witness :
  exists l',
    calculate_scale (PD := SampleCodec.param_default) MoreExamples.undistanced
    = inr l'
    /\ vertices l' = vertices MoreExamples.undistanced
    /\ length (edges l') = 2%nat.
Proof.
  eexists. split; [vm_compute; reflexivity|].
  match goal with
  | |- vertices ?l' = _ /\ _ =>
      destruct (calculate_scale_frame_and_distance
                  (PD := SampleCodec.param_default)
                  MoreExamples.undistanced l' ltac:(vm_compute; reflexivity))
        as (He & Hv & _)
  end.
  split; [exact Hv|]. apply Forall2_length in He. now rewrite <- He.
Defined.

(** ** More about serialization *)

Section more_serialization.
Context {YC : YamlCodec}.
Implicit Types (l : BuildingLevel.t) (m : list (string * YNode))
  (k : string).

Lemma filter_always {A : Type} (xs : list A) :
  List.filter (fun _ => true) xs = xs.
Proof. induction xs; simpl; congruence. Qed.

(** Reading a key other than "layers" off the emitted node: what the
    header has under it, then the pushes of the five loops. *)
Lemma to_yaml_lookup l k :
  k <> "layers"%string ->
  yindex (to_yaml l).1 k
  = fold_left (fun o p => Some (ypush_node (Polygon_to_yaml p) o))
      (List.filter (fun _ => String.eqb "floors" k)
                   (List.filter floor_polygon (polygons l)))
      (fold_left (fun o a => Some (ypush_node (Model_to_yaml a) o))
         (List.filter (fun _ => String.eqb "models" k) (models l))
         (fold_left (fun o e => Some (ypush_node (Edge_to_yaml e) o))
            (List.filter (fun e => String.eqb (dict_name (Edge.type e)) k)
                         (edges l))
            (fold_left (fun o f => Some (ypush_node (Fiducial_to_yaml f) o))
               (List.filter (fun _ => String.eqb "fiducials" k) (fiducials l))
               (fold_left (fun o v => Some (ypush_node (Vertex_to_yaml v) o))
                  (List.filter (fun _ => String.eqb "vertices" k) (vertices l))
                  (yget k (to_yaml_header l)))))).
Proof.
  intros Hk. rewrite to_yaml_node. unfold yindex; simpl.
  rewrite yget_fold_set_layer_other by exact Hk.
  rewrite yget_yset.
  destruct (String.eqb_spec "layers" k) as [Heq|_]; [congruence|].
  now rewrite !yget_fold_push.
Qed.

Lemma dict_name_filter (k : string) (f : Edge.t -> bool) (es : list Edge.t) :
  (forall e, String.eqb (dict_name (Edge.type e)) k = f e) ->
  List.filter (fun e => String.eqb (dict_name (Edge.type e)) k) es
  = List.filter f es.
Proof. intros H. now apply filter_ext. Qed.

Lemma yget_header l k :
  yget k (to_yaml_header l)
  = if String.eqb "elevation" k then Some (YDouble (elevation l))
    else if String.eqb (drawing_filename l) "" then
      if String.eqb "x_meters" k then Some (YDouble (x_meters l))
      else if String.eqb "y_meters" k then Some (YDouble (y_meters l))
      else None
    else if String.eqb "drawing" k
      then Some (YMap [("filename", YString (drawing_filename l))])
      else None.
Proof.
  unfold to_yaml_header. rewrite yget_yset.
  destruct (String.eqb "elevation" k); [reflexivity|].
  destruct (String.eqb (drawing_filename l) ""); simpl.
  - destruct (String.eqb "x_meters" k); [reflexivity|].
    now destruct (String.eqb "y_meters" k).
  - now destruct (String.eqb "drawing" k).
Qed.

(** X8: what [to_yaml] emits under each collection key.  "vertices",
    "fiducials" and "models" hold the records of all vertices, fiducials
    and models, "floors" those of the floor polygons, and "lanes", "walls",
    "measurements", "doors" those of the edges of that type, each in the
    order of its collection; a key whose sequence would be empty is not
    emitted at all. *)
Theorem to_yaml_collections l :
  yindex (to_yaml l).1 "vertices" = seq_of (map Vertex_to_yaml (vertices l))
  /\ yindex (to_yaml l).1 "fiducials"
     = seq_of (map Fiducial_to_yaml (fiducials l))
  /\ yindex (to_yaml l).1 "models" = seq_of (map Model_to_yaml (models l))
  /\ yindex (to_yaml l).1 "floors"
     = seq_of (map Polygon_to_yaml (List.filter floor_polygon (polygons l)))
  /\ yindex (to_yaml l).1 "lanes"
     = seq_of (map Edge_to_yaml
                 (List.filter
                    (fun e => match Edge.type e with
                              | Edge.LANE => true | _ => false end)
                    (edges l)))
  /\ yindex (to_yaml l).1 "walls"
     = seq_of (map Edge_to_yaml
                 (List.filter
                    (fun e => match Edge.type e with
                              | Edge.WALL => true | _ => false end)
                    (edges l)))
  /\ yindex (to_yaml l).1 "measurements"
     = seq_of (map Edge_to_yaml (List.filter Edge.is_meas (edges l)))
  /\ yindex (to_yaml l).1 "doors"
     = seq_of (map Edge_to_yaml
                 (List.filter
                    (fun e => match Edge.type e with
                              | Edge.DOOR => true | _ => false end)
                    (edges l))).
Proof.
  assert (Hother : forall k,
             (forall e : Edge.t,
                 String.eqb (dict_name (Edge.type e)) k = false) ->
             List.filter (fun e => String.eqb (dict_name (Edge.type e)) k)
                         (edges l) = []).
  { intros k Hk. rewrite (dict_name_filter k (fun _ => false) _ Hk).
    apply filter_never. }
  assert (Hhead : forall k,
             String.eqb "elevation" k = false ->
             String.eqb "x_meters" k = false ->
             String.eqb "y_meters" k = false ->
             String.eqb "drawing" k = false ->
             yget k (to_yaml_header l) = None).
  { intros k H1 H2 H3 H4. rewrite yget_header, H1, H2, H3, H4.
    now destruct (String.eqb (drawing_filename l) ""). }
  repeat split.
  all: rewrite to_yaml_lookup by discriminate.
  all: rewrite Hhead by reflexivity.
  - rewrite Hother by (intros e; now destruct (Edge.type e)).
    cbn [String.eqb Ascii.eqb Bool.eqb andb].
    rewrite !filter_never, filter_always. simpl. apply fold_push_none.
  - rewrite Hother by (intros e; now destruct (Edge.type e)).
    cbn [String.eqb Ascii.eqb Bool.eqb andb].
    rewrite !filter_never, filter_always. simpl. apply fold_push_none.
  - rewrite Hother by (intros e; now destruct (Edge.type e)).
    cbn [String.eqb Ascii.eqb Bool.eqb andb].
    rewrite !filter_never, filter_always. simpl. apply fold_push_none.
  - rewrite Hother by (intros e; now destruct (Edge.type e)).
    cbn [String.eqb Ascii.eqb Bool.eqb andb].
    rewrite !filter_never, filter_always. simpl. apply fold_push_none.
  - rewrite (dict_name_filter "lanes"
               (fun e => match Edge.type e with
                         | Edge.LANE => true | _ => false end))
      by (intros e; now destruct (Edge.type e)).
    cbn [String.eqb Ascii.eqb Bool.eqb andb].
    rewrite !filter_never. simpl. apply fold_push_none.
  - rewrite (dict_name_filter "walls"
               (fun e => match Edge.type e with
                         | Edge.WALL => true | _ => false end))
      by (intros e; now destruct (Edge.type e)).
    cbn [String.eqb Ascii.eqb Bool.eqb andb].
    rewrite !filter_never. simpl. apply fold_push_none.
  - rewrite (dict_name_filter "measurements" Edge.is_meas)
      by (intros e; unfold Edge.is_meas; now destruct (Edge.type e)).
    cbn [String.eqb Ascii.eqb Bool.eqb andb].
    rewrite !filter_never. simpl. apply fold_push_none.
  - rewrite (dict_name_filter "doors"
               (fun e => match Edge.type e with
                         | Edge.DOOR => true | _ => false end))
      by (intros e; now destruct (Edge.type e)).
    cbn [String.eqb Ascii.eqb Bool.eqb andb].
    rewrite !filter_never. simpl. apply fold_push_none.
Qed.

Lemma to_yaml_lookup_header l k :
  k <> "layers"%string ->
  (forall e : Edge.t, String.eqb (dict_name (Edge.type e)) k = false) ->
  String.eqb "floors" k = false -> String.eqb "models" k = false ->
  String.eqb "fiducials" k = false -> String.eqb "vertices" k = false ->
  yindex (to_yaml l).1 k = yget k (to_yaml_header l).
Proof.
  intros Hk He H1 H2 H3 H4. rewrite to_yaml_lookup by exact Hk.
  rewrite (dict_name_filter k (fun _ => false) _ He), H1, H2, H3, H4.
  now rewrite !filter_never.
Qed.

Lemma to_yaml_drawing_or_dimensions_aux l :
  (drawing_filename l = ""%string ->
   yindex (to_yaml l).1 "x_meters" = Some (YDouble (x_meters l))
   /\ yindex (to_yaml l).1 "y_meters" = Some (YDouble (y_meters l))
   /\ yindex (to_yaml l).1 "drawing" = None)
  /\ (drawing_filename l <> ""%string ->
      yindex (to_yaml l).1 "drawing"
      = Some (YMap [("filename", YString (drawing_filename l))])
      /\ yindex (to_yaml l).1 "x_meters" = None
      /\ yindex (to_yaml l).1 "y_meters" = None).
Proof.
  assert (Hedge : forall k,
             String.eqb "lanes" k = false -> String.eqb "walls" k = false ->
             String.eqb "measurements" k = false ->
             String.eqb "doors" k = false -> String.eqb "unknown" k = false ->
             forall e : Edge.t,
               String.eqb (dict_name (Edge.type e)) k = false).
  { intros k H1 H2 H3 H4 H5 e. now destruct (Edge.type e). }
  split.
  - intros Hf.
    rewrite !to_yaml_lookup_header; try reflexivity; try discriminate;
      try (now apply Hedge).
    rewrite !yget_header, Hf. repeat split.
  - intros Hf. apply String.eqb_neq in Hf.
    rewrite !to_yaml_lookup_header; try reflexivity; try discriminate;
      try (now apply Hedge).
    rewrite !yget_header, Hf. repeat split.
Qed.

(** X9: the head of the emitted node.  "elevation" is always there.  A
    level with an empty drawing_filename gets "x_meters" and "y_meters"
    and no "drawing" block; a level with a drawing_filename gets a
    "drawing" block that holds just the file name, and neither "x_meters"
    nor "y_meters": the physical dimensions of a level with a drawing are
    not written. *)
Theorem to_yaml_drawing_or_dimensions l :
  yindex (to_yaml l).1 "elevation" = Some (YDouble (elevation l))
  /\ (drawing_filename l = ""%string ->
      yindex (to_yaml l).1 "x_meters" = Some (YDouble (x_meters l))
      /\ yindex (to_yaml l).1 "y_meters" = Some (YDouble (y_meters l))
      /\ yindex (to_yaml l).1 "drawing" = None)
  /\ (drawing_filename l <> ""%string ->
      yindex (to_yaml l).1 "drawing"
      = Some (YMap [("filename", YString (drawing_filename l))])
      /\ yindex (to_yaml l).1 "x_meters" = None
      /\ yindex (to_yaml l).1 "y_meters" = None).
Proof.
  split; [|exact (to_yaml_drawing_or_dimensions_aux l)].
  rewrite to_yaml_lookup_header; try reflexivity; try discriminate.
  - now rewrite yget_header.
  - intros e. now destruct (Edge.type e).
Qed.

(** X10: what [to_yaml] writes about the drawing, the first branch of
    [from_yaml] reads back in the same mode.  The node is a map; for a
    level without drawing_filename [load_drawing] takes its x_meters and
    y_meters and sets the pixel size from them at 0.05 meters per pixel
    (when the two quotients are [int]s); for a level with one it reads the
    image of that file name. *)
Theorem to_yaml_then_load_drawing l (l0 : BuildingLevel.t) :
  IsMap (to_yaml l).1 = true
  /\ (drawing_filename l = ""%string ->
      forall w h,
        double_to_int (x_meters l / 0.05)%float = inr w ->
        double_to_int (y_meters l / 0.05)%float = inr h ->
        load_drawing l0 (to_yaml l).1
        = inr (inr (set_drawing_size w h
                      (set_drawing_meters_per_pixel 0.05%float
                         (set_meters (x_meters l) (y_meters l) l0)))))
  /\ (drawing_filename l <> ""%string ->
      load_drawing l0 (to_yaml l).1
      = match read_image (drawing_filename l) with
        | None => inr (inl (set_drawing_filename (drawing_filename l) l0))
        | Some (w, h) =>
            inr (inr (set_drawing_size w h
                        (set_drawing_filename (drawing_filename l) l0)))
        end).
Proof.
  destruct (to_yaml_drawing_or_dimensions_aux l) as (Hyes & Hno).
  split; [reflexivity|]. split.
  - intros Hf w h Hw Hh. destruct (Hyes Hf) as (Hx & Hy & Hd).
    unfold load_drawing. rewrite Hd, Hx, Hy. simpl.
    rewrite Hw. simpl. rewrite Hh. reflexivity.
  - intros Hf. destruct (Hno Hf) as (Hd & _).
    unfold load_drawing. rewrite Hd. simpl.
    destruct (read_image (drawing_filename l)) as [[w h]|]; reflexivity.
Qed.

Lemma yset_keys k v m x :
  In x (map fst (yset k v m)) <-> x = k \/ In x (map fst m).
Proof.
  induction m as [|[k0 w] m IH]; simpl.
  - intuition congruence.
  - destruct (String.eqb_spec k0 k) as [->|Hne]; simpl.
    + intuition congruence.
    + rewrite IH. intuition congruence.
Qed.

Lemma yset_NoDup k v m :
  List.NoDup (map fst m) -> List.NoDup (map fst (yset k v m)).
Proof.
  induction m as [|[k0 w] m IH]; simpl; intros Hnd.
  - constructor; [intros [] | constructor].
  - apply List.NoDup_cons_iff in Hnd as [Hnotin Hnd].
    destruct (String.eqb_spec k0 k) as [->|Hne]; simpl.
    + now constructor.
    + constructor; [|now apply IH].
      rewrite yset_keys. intros [->|Hin]; [congruence | contradiction].
Qed.

Lemma fold_ypush_NoDup {A : Type} (key : A -> string) (rec : A -> YNode)
    (xs : list A) :
  forall m,
    List.NoDup (map fst m) ->
    List.NoDup
      (map fst (fold_left (fun y a => ypush (key a) (rec a) y) xs m)).
Proof.
  induction xs as [|a xs IH]; intros m Hnd; simpl; [exact Hnd|].
  apply IH, yset_NoDup, Hnd.
Qed.

Lemma fold_yset_NoDup {A : Type} (key : A -> string) (rec : A -> YNode)
    (xs : list A) :
  forall m,
    List.NoDup (map fst m) ->
    List.NoDup
      (map fst (fold_left (fun y a => yset (key a) (rec a) y) xs m)).
Proof.
  induction xs as [|a xs IH]; intros m Hnd; simpl; [exact Hnd|].
  apply IH, yset_NoDup, Hnd.
Qed.

Lemma fold_set_layer_NoDup (ls : list Layer.t) :
  forall m,
    List.NoDup (map fst m) ->
    List.NoDup (map fst (fold_left set_layer ls m)).
Proof.
  induction ls as [|a ls IH]; intros m Hnd; simpl; [exact Hnd|].
  apply IH. unfold set_layer.
  destruct (yget "layers" m); [apply yset_NoDup|]; exact Hnd.
Qed.

(** X11: the keys of the emitted node are pairwise distinct, whatever the
    level holds: every collection goes under one key, once. *)
Theorem to_yaml_keys_distinct l :
  List.NoDup (map fst (yentries (to_yaml l).1)).
Proof.
  rewrite to_yaml_node. simpl.
  apply fold_set_layer_NoDup, yset_NoDup.
  apply (fold_ypush_NoDup (fun _ => "floors"%string)).
  apply (fold_ypush_NoDup (fun _ => "models"%string)).
  apply (fold_ypush_NoDup (fun e => dict_name (Edge.type e))).
  apply (fold_ypush_NoDup (fun _ => "fiducials"%string)).
  apply (fold_ypush_NoDup (fun _ => "vertices"%string)).
  unfold to_yaml_header.
  destruct (negb _); repeat apply yset_NoDup; constructor.
Qed.

Lemma fold_set_layer_layers (ls : list Layer.t) :
  forall m es,
    yget "layers" m = Some (YMap es) ->
    yget "layers" (fold_left set_layer ls m)
    = Some (YMap (fold_left
                    (fun es a => yset (Layer.name a) (Layer_to_yaml a) es)
                    ls es)).
Proof.
  induction ls as [|a ls IH]; intros m es Hm; simpl; [exact Hm|].
  apply IH. unfold set_layer. rewrite Hm. simpl.
  rewrite yget_yset. reflexivity.
Qed.

Lemma yget_fold_yset_last {A : Type} (key : A -> string) (rec : A -> YNode)
    (xs : list A) :
  forall m k,
    yget k (fold_left (fun y a => yset (key a) (rec a) y) xs m)
    = match last (List.filter (fun a => String.eqb (key a) k) xs) with
      | Some a => Some (rec a)
      | None => yget k m
      end.
Proof.
  induction xs as [|a xs IH]; intros m k; simpl; [reflexivity|].
  rewrite IH, yget_yset.
  destruct (String.eqb (key a) k); [|reflexivity].
  rewrite last_cons.
  now destruct (last (List.filter (fun a0 => String.eqb (key a0) k) xs)).
Qed.

(** X12: "layers" is always emitted, as a map (empty when the level has
    no layer) with pairwise distinct keys.  Under a name it holds the
    record of the last layer of that name: a layer whose name a later
    layer has too is not saved. *)
Theorem to_yaml_layers l :
  exists entries,
    yindex (to_yaml l).1 "layers" = Some (YMap entries)
    /\ List.NoDup (map fst entries)
    /\ (layers l = [] -> entries = [])
    /\ forall k,
         yget k entries
         = Layer_to_yaml
             <$> last (List.filter (fun a => String.eqb (Layer.name a) k)
                                   (layers l)).
Proof.
  exists (fold_left (fun es a => yset (Layer.name a) (Layer_to_yaml a) es)
                    (layers l) []).
  split; [|split; [|split]].
  - rewrite to_yaml_node. unfold yindex; simpl.
    apply fold_set_layer_layers. rewrite yget_yset. reflexivity.
  - apply fold_yset_NoDup. constructor.
  - now intros ->.
  - intros k. rewrite yget_fold_yset_last.
    now destruct (last _).
Qed.
End more_serialization.

(** ** More about deserialization *)

Section more_deserialization.
Context {PD : ParamDefault} {YC : YamlCodec}.
Implicit Types (l : BuildingLevel.t) (d : YNode).

Lemma yindex_is_map d k v : yindex d k = Some v -> IsMap d = true.
Proof. destruct d; simpl; try discriminate. reflexivity. Qed.

(** X13: the three ways [from_yaml] fails before it loads anything.  A
    node that is not a map, and a "drawing" map without "filename", throw
    a runtime_error that names the level.  When the image of the drawing
    cannot be read the call returns false, and the level has its new name
    and file name and is otherwise as it was: nothing is loaded and the
    scale is not recalculated. *)
Theorem from_yaml_failures l (_name : string) d :
  (IsMap d = false ->
   from_yaml l _name d
   = inl (RuntimeError ("level " ++ _name ++ " YAML invalid")))
  /\ (forall entries,
         yindex d "drawing" = Some (YMap entries) ->
         yget "filename" entries = None ->
         from_yaml l _name d
         = inl (RuntimeError ("level " ++ _name ++ " drawing invalid")))
  /\ (forall entries filename,
         yindex d "drawing" = Some (YMap entries) ->
         yget "filename" entries = Some (YString filename) ->
         read_image filename = None ->
         from_yaml l _name d
         = inr (false, set_drawing_filename filename (set_name _name l))).
Proof.
  split; [|split].
  - intros Hmap. unfold from_yaml. now rewrite Hmap.
  - intros entries Hd Hf. unfold from_yaml, load_drawing.
    rewrite (yindex_is_map d _ _ Hd), Hd. simpl.
    unfold yindex. simpl. now rewrite Hf.
  - intros entries filename Hd Hf Himg. unfold from_yaml, load_drawing.
    rewrite (yindex_is_map d _ _ Hd), Hd. simpl.
    unfold yindex. simpl. rewrite Hf. simpl. now rewrite Himg.
Qed.

Lemma load_drawing_keeps_collections l d r :
  load_drawing l d = inr r ->
  let l' := match r with inl l' => l' | inr l' => l' end in
  vertices l' = vertices l /\ edges l' = edges l /\ models l' = models l
  /\ polygons l' = polygons l /\ fiducials l' = fiducials l
  /\ layers l' = layers l /\ name l' = name l.
Proof.
  unfold load_drawing, mbind, result_bind. intros H.
  repeat match type of H with
         | context [match ?x with _ => _ end] =>
             destruct x eqn:?; try discriminate; simpl in H
         end.
  all: injection H as <-; repeat split.
Qed.

Lemma load_drawing_keeps_elevation l d r :
  load_drawing l d = inr r ->
  elevation (match r with inl l' => l' | inr l' => l' end) = elevation l.
Proof.
  unfold load_drawing, mbind, result_bind. intros H.
  repeat match type of H with
         | context [match ?x with _ => _ end] =>
             destruct x eqn:?; try discriminate; simpl in H
         end.
  all: injection H as <-; reflexivity.
Qed.

(** What the node gives as elevation: its "elevation" entry when there is
    one, the elevation the level had otherwise. *)
Lemma load_collections_loaded l d l1 :
  load_collections l d = inr l1 ->
  exists vs fs lanes walls meas doors ms ps ls,
    parse_vertices d = inr vs
    /\ parse_items Fiducial_from_yaml (sequence_at d "fiducials") = inr fs
    /\ load_yaml_edge_sequence d "lanes" Edge.LANE = inr lanes
    /\ load_yaml_edge_sequence d "walls" Edge.WALL = inr walls
    /\ load_yaml_edge_sequence d "measurements" Edge.MEAS = inr meas
    /\ load_yaml_edge_sequence d "doors" Edge.DOOR = inr doors
    /\ parse_items Model_from_yaml (sequence_at d "models") = inr ms
    /\ parse_items (fun n => Polygon_from_yaml n Polygon.FLOOR)
                   (sequence_at d "floors") = inr ps
    /\ match yindex d "layers" with
       | Some (YMap entries) => parse_entries Layer_from_yaml entries
       | _ => inr []
       end = inr ls
    /\ vertices l1 = vertices l ++ vs
    /\ fiducials l1 = fiducials l ++ fs
    /\ edges l1 = edges l ++ lanes ++ walls ++ meas ++ doors
    /\ models l1 = models l ++ ms
    /\ polygons l1 = polygons l ++ ps
    /\ layers l1 = layers l ++ ls
    /\ name l1 = name l
    /\ match yindex d "elevation" with
       | Some n => as_double n = inr (elevation l1)
       | None => elevation l1 = elevation l
       end.
Proof.
  unfold load_collections, mbind, result_bind. intros H.
  destruct (parse_vertices d) as [|vs]; [discriminate|].
  destruct (parse_items Fiducial_from_yaml _) as [|fs]; [discriminate|].
  destruct (load_yaml_edge_sequence d "lanes" _) as [|lanes];
    [discriminate|].
  destruct (load_yaml_edge_sequence d "walls" _) as [|walls];
    [discriminate|].
  destruct (load_yaml_edge_sequence d "measurements" _) as [|meas];
    [discriminate|].
  destruct (load_yaml_edge_sequence d "doors" _) as [|doors];
    [discriminate|].
  destruct (parse_items Model_from_yaml _) as [|ms]; [discriminate|].
  destruct (parse_items (fun n => Polygon_from_yaml n Polygon.FLOOR) _)
    as [|ps]; [discriminate|].
  exists vs, fs, lanes, walls, meas, doors, ms, ps.
  destruct (yindex d "elevation") as [n|].
  - destruct (as_double n) as [|e]; [discriminate|].
    destruct (match yindex d "layers" with
              | Some (YMap entries) => parse_entries Layer_from_yaml entries
              | _ => inr []
              end) as [|ls]; [discriminate|].
    injection H as <-. exists ls. simpl. rewrite <- !app_assoc.
    repeat split; reflexivity.
  - destruct (match yindex d "layers" with
              | Some (YMap entries) => parse_entries Layer_from_yaml entries
              | _ => inr []
              end) as [|ls]; [discriminate|].
    injection H as <-. exists ls. simpl. rewrite <- !app_assoc.
    repeat split; reflexivity.
Qed.

(** X14: [from_yaml] adds to the level it is called on.  When it returns
    true, every loader has returned a list for the node: what
    [parse_vertices] gives for it, what [Fiducial::from_yaml],
    [Model::from_yaml] and [Polygon::from_yaml] give for the items under
    "fiducials", "models" and "floors", what [Layer::from_yaml] gives for
    the entries of "layers", and what [load_yaml_edge_sequence] gives for
    "lanes", "walls", "measurements" and "doors".  The level has the new
    name; its vertices, fiducials, models, polygons and layers are those it
    had followed by these lists; its edges are those it had followed by the
    lanes, walls, measurements and doors in this order, measurement edges
    getting a default "distance" parameter where they have none; its
    elevation is the "elevation" of the node when there is one and the one
    it had otherwise. *)
Theorem from_yaml_appends l (_name : string) d l' :
  from_yaml l _name d = inr (true, l') ->
  exists vs fs lanes walls meas doors ms ps ls,
    parse_vertices d = inr vs
    /\ parse_items Fiducial_from_yaml (sequence_at d "fiducials") = inr fs
    /\ load_yaml_edge_sequence d "lanes" Edge.LANE = inr lanes
    /\ load_yaml_edge_sequence d "walls" Edge.WALL = inr walls
    /\ load_yaml_edge_sequence d "measurements" Edge.MEAS = inr meas
    /\ load_yaml_edge_sequence d "doors" Edge.DOOR = inr doors
    /\ parse_items Model_from_yaml (sequence_at d "models") = inr ms
    /\ parse_items (fun n => Polygon_from_yaml n Polygon.FLOOR)
                   (sequence_at d "floors") = inr ps
    /\ match yindex d "layers" with
       | Some (YMap entries) => parse_entries Layer_from_yaml entries
       | _ => inr []
       end = inr ls
    /\ name l' = _name
    /\ vertices l' = vertices l ++ vs
    /\ fiducials l' = fiducials l ++ fs
    /\ models l' = models l ++ ms
    /\ polygons l' = polygons l ++ ps
    /\ layers l' = layers l ++ ls
    /\ edges l'
       = map (fun e => if Edge.is_meas e then with_distance e else e)
             (edges l ++ lanes ++ walls ++ meas ++ doors)
    /\ match yindex d "elevation" with
       | Some n => as_double n = inr (elevation l')
       | None => elevation l' = elevation l
       end.
Proof.
  unfold from_yaml. destruct (IsMap d); [|discriminate]. simpl.
  destruct (load_drawing (set_name _name l) d) as [|[lf|lm]] eqn:Hdraw;
    simpl; try discriminate.
  destruct (load_collections lm d) as [|l1] eqn:Hload; [discriminate|].
  simpl.
  destruct (calculate_scale l1) as [|l2] eqn:Hcalc; [discriminate|].
  simpl. intros H. injection H as <-.
  destruct (load_drawing_keeps_collections _ _ _ Hdraw)
    as (Dv & De & Dm & Dp & Df & Dl & Dn).
  pose proof (load_drawing_keeps_elevation _ _ _ Hdraw) as Del.
  simpl in *.
  destruct (load_collections_loaded _ _ _ Hload)
    as (vs & fs & lanes & walls & meas & doors & ms & ps & ls
        & Pv & Pf & Pl & Pw & Pm & Pd & Pmo & Pp & Pla
        & Lv & Lf & Le & Lm & Lp & Ll & Ln & Lel).
  destruct (calculate_scale_inv l1 l2 Hcalc) as (s & n & _ & _ & Ce & Cl).
  destruct (scale_result_frame l1 (edges l2) s n)
    as (_ & Cv & Cm & Cp & Cf & Cla & Cn & _ & _ & _ & Cel).
  rewrite <- Cl in *.
  exists vs, fs, lanes, walls, meas, doors, ms, ps, ls.
  repeat (split; [assumption|]).
  split; [congruence|]. split; [congruence|]. split; [congruence|].
  split; [congruence|]. split; [congruence|]. split; [congruence|].
  split; [rewrite Ce, Le, De; reflexivity|].
  destruct (yindex d "elevation"); congruence.
Qed.

(** X15: physical dimensions given without a drawing are not kept as
    given.  With x_meters = xm and y_meters = ym and no measurement edge,
    [from_yaml] sets the pixel size to xm / 0.05 and ym / 0.05 truncated
    to [int]s w and h, and stores w * 0.05 and h * 0.05 as x_meters and
    y_meters: the dimensions are cut down to multiples of 5 cm.  Only when
    w or h is zero do x_meters and y_meters stay xm and ym. *)
Theorem from_yaml_quantises_dimensions (l0 : BuildingLevel.t)
    (_name : string) d xn yn xm ym w h l1 :
  no_drawing d ->
  yindex d "x_meters" = Some xn -> yindex d "y_meters" = Some yn ->
  as_double xn = inr xm -> as_double yn = inr ym ->
  double_to_int (xm / 0.05)%float = inr w ->
  double_to_int (ym / 0.05)%float = inr h ->
  load_collections (without_drawing xm ym w h _name l0) d = inr l1 ->
  Forall (fun e => Edge.is_meas e = false) (edges l1) ->
  exists l',
    from_yaml l0 _name d = inr (true, l')
    /\ drawing_width l' = w
    /\ drawing_height l' = h
    /\ drawing_meters_per_pixel l' = 0.05%float
    /\ (w <> 0 -> h <> 0 ->
        x_meters l' = (int_to_double w * 0.05)%float
        /\ y_meters l' = (int_to_double h * 0.05)%float)
    /\ (w = 0 \/ h = 0 -> x_meters l' = xm /\ y_meters l' = ym).
Proof.
  intros Hd Hx Hy Hxm Hym Hw Hh Hload Hnone.
  pose proof (load_drawing_dimensions (set_name _name l0) d xn yn xm ym w h
                Hd Hx Hy Hxm Hym Hw Hh) as Hdraw.
  change (set_name (name (set_name _name l0)) (set_name _name l0))
    with (set_name _name l0) in Hdraw.
  change (without_drawing xm ym w h (name (set_name _name l0))
            (set_name _name l0))
    with (without_drawing xm ym w h _name l0) in Hdraw.
  destruct (load_collections_frame _ d l1 Hload)
    as (Fw & Fh & _ & Fx & Fy & _).
  simpl in Fw, Fh, Fx, Fy.
  assert (Hfilter : List.filter Edge.is_meas (edges l1) = []).
  { clear -Hnone. induction Hnone as [|e es He _ IH]; simpl; [reflexivity|].
    now rewrite He. }
  assert (Hm : measurable l1).
  { split; [|rewrite Hfilter; simpl; unfold INT_MAX; lia].
    eapply Forall_impl; [exact Hnone|]. simpl. congruence. }
  destruct (calculate_scale_result l1 Hm)
    as [_ (l' & Hcalc & Hmpp & Cw & Ch & Hyes & Hno)].
  unfold measurement_ratios in Hmpp, Hyes. rewrite Hfilter in Hmpp, Hyes.
  simpl in Hmpp, Hyes. unfold dimensions_guard in Hyes, Hno.
  rewrite Cw, Ch, Hmpp, Fw, Fh in Hyes, Hno. rewrite Fx, Fy in Hno.
  exists l'. split.
  { unfold from_yaml. rewrite (yindex_is_map d _ _ Hx). simpl.
    rewrite Hdraw. simpl. rewrite Hload. simpl. now rewrite Hcalc. }
  split; [congruence|]. split; [congruence|]. split; [exact Hmpp|]. split.
  - intros Hw0 Hh0. apply Hyes.
    apply Z.eqb_neq in Hw0, Hh0. now rewrite Hw0, Hh0.
  - intros Hzero. apply Hno.
    destruct Hzero as [-> | ->]; simpl; [reflexivity|].
    now rewrite andb_false_r.
Qed.
End more_deserialization.

Lemma from_yaml_failures_witness :
  from_yaml (PD := SampleCodec.param_default) (YC := SampleCodec.codec)
            SampleCodec.empty_level "L1" MoreExamples.doc_drawing
  = inr (false,
         set_drawing_filename "floor.png"
           (set_name "L1" SampleCodec.empty_level)).
Proof.
  destruct (from_yaml_failures (PD := SampleCodec.param_default)
              (YC := SampleCodec.codec) SampleCodec.empty_level "L1"
              MoreExamples.doc_drawing) as (_ & _ & H).
  exact (H [("filename", YString "floor.png")] "floor.png"%string
           eq_refl eq_refl eq_refl).
Defined.

Lemma from_yaml_appends_witness :
  exists l',
    from_yaml (PD := SampleCodec.param_default) (YC := SampleCodec.codec)
              Examples.four_vertices "L2" MoreExamples.doc_more
    = inr (true, l')
    /\ name l' = "L2"%string
    /\ vertices l'
       = vertices Examples.four_vertices ++ [Vertex.mk 5 5 "c" false ∅]
    /\ edges l'
       = map (fun e =>
                if Edge.is_meas e
                then with_distance (PD := SampleCodec.param_default) e
                else e)
             (edges Examples.four_vertices ++ [Examples.wall 0 1 false]).
Proof.
  eexists. split; [vm_compute; reflexivity|].
  match goal with
  | |- name ?l' = _ /\ _ =>
      destruct (from_yaml_appends (PD := SampleCodec.param_default)
                  (YC := SampleCodec.codec) Examples.four_vertices "L2"
                  MoreExamples.doc_more l' ltac:(vm_compute; reflexivity))
        as (vs & fs & lanes & walls & meas & doors & ms & ps & ls
            & Pv & _ & Pl & Pw & Pm & Pd & _ & _ & _
            & Hn & Hv & _ & _ & _ & _ & He & _)
  end.
  vm_compute in Pv, Pl, Pw, Pm, Pd.
  injection Pv as <-. injection Pl as <-. injection Pw as <-.
  injection Pm as <-. injection Pd as <-.
  split; [exact Hn|]. split; [exact Hv | exact He].
Defined.

Lemma from_yaml_quantises_dimensions_witness :
  exists l',
    from_yaml (PD := SampleCodec.param_default) (YC := SampleCodec.codec)
              SampleCodec.empty_level "L1" MoreExamples.doc_odd_dimensions
    = inr (true, l')
    /\ drawing_width l' = 200 /\ drawing_height l' = 400
    /\ x_meters l' = 10%float /\ y_meters l' = 20%float.
Proof.
  destruct (from_yaml_quantises_dimensions
              (PD := SampleCodec.param_default) (YC := SampleCodec.codec)
              SampleCodec.empty_level "L1" MoreExamples.doc_odd_dimensions
              (YDouble 10.03) (YDouble 20.04) 10.03%float 20.04%float 200 400
              (without_drawing 10.03 20.04 200 400 "L1"
                               SampleCodec.empty_level)
              eq_refl eq_refl eq_refl eq_refl eq_refl eq_refl eq_refl eq_refl
              ltac:(constructor))
    as (l' & Hfrom & Hw & Hh & _ & Hxy & _).
  exists l'. split; [exact Hfrom|]. split; [exact Hw|]. split; [exact Hh|].
  destruct (Hxy ltac:(discriminate) ltac:(discriminate)) as [Hx Hy].
  split; [rewrite Hx | rewrite Hy]; reflexivity.
Defined.

(** ** Tags *)

Section tags.
Context {PC : ParamCodec}.
Implicit Types (tag this : Tag.t) (m : list (string * YNode)).

Lemma yget_absent k m : ~ In k (map fst m) -> yget k m = None.
Proof.
  induction m as [|[k0 w] m IH]; simpl; [reflexivity|]. intros Hn.
  destruct (String.eqb_spec k0 k) as [->|_]; [tauto|]. apply IH. tauto.
Qed.

Lemma yset_fresh k v m : ~ In k (map fst m) -> yset k v m = m ++ [(k, v)].
Proof.
  induction m as [|[k0 w] m IH]; simpl; [reflexivity|]. intros Hn.
  destruct (String.eqb_spec k0 k) as [->|_]; [tauto|].
  rewrite IH by tauto. reflexivity.
Qed.

(** Storing pairs with distinct keys one by one lists them in order. *)
Lemma fold_yset_distinct {A : Type} (f : A -> YNode)
    (ps : list (string * A)) :
  forall m,
    List.NoDup (map fst m ++ map fst ps) ->
    fold_left (fun node p => yset p.1 (f p.2) node) ps m
    = m ++ map (fun p => (p.1, f p.2)) ps.
Proof.
  induction ps as [|[k a] ps IH]; intros m Hnd; simpl.
  - now rewrite app_nil_r.
  - simpl in Hnd. rewrite yset_fresh.
    + rewrite IH; [now rewrite <- app_assoc|].
      rewrite map_app, <- app_assoc. exact Hnd.
    + apply NoDup_remove_2 in Hnd. intros Hin. apply Hnd.
      apply in_or_app. now left.
Qed.

Lemma in_key_order_perm {A : Type} (ps : gmap string A) :
  in_key_order ps ≡ₚ map_to_list ps.
Proof. apply merge_sort_Permutation. Qed.

Lemma in_key_order_NoDup {A : Type} (ps : gmap string A) :
  List.NoDup (map fst (in_key_order ps)).
Proof.
  apply NoDup_ListNoDup.
  rewrite (in_key_order_perm ps). apply NoDup_fst_map_to_list.
Qed.

Lemma gmap_key_order_total {A : Type} : Total (@key_le A).
Proof. intros a b. apply String.leb_total. Qed.

(** X16: the record [to_yaml] builds for a tag: the two coordinates
    rounded to three decimals, a zero, the name; and, only when the tag
    has parameters, a fifth item, the map of all its parameters, one entry
    per parameter, in the order of the keys. *)
Theorem tag_to_yaml_record tag :
  (Tag.params tag = ∅ ->
   Tag.to_yaml tag
   = YSeq [YDouble (Tag.round3 (Tag.x tag)); YDouble (Tag.round3 (Tag.y tag));
           YDouble 0%float; YString (Tag.name tag)])
  /\ (Tag.params tag <> ∅ ->
      exists entries,
        Tag.to_yaml tag
        = YSeq [YDouble (Tag.round3 (Tag.x tag));
                YDouble (Tag.round3 (Tag.y tag));
                YDouble 0%float; YString (Tag.name tag); YMap entries]
        /\ Sorted (fun a b => String.leb a b = true) (map fst entries)
        /\ List.NoDup (map fst entries)
        /\ forall k,
             yget k entries = Param_to_yaml <$> (Tag.params tag !! k)).
Proof.
  unfold Tag.to_yaml. split; intros Hp.
  - now rewrite bool_decide_eq_true_2.
  - rewrite bool_decide_eq_false_2 by exact Hp. cbv zeta.
    rewrite fold_yset_distinct by (simpl; apply in_key_order_NoDup).
    simpl. eexists. split; [reflexivity|].
    set (ps := in_key_order (Tag.params tag)).
    assert (Hkeys : map fst (map (fun p : string * Param.t =>
                                    (p.1, Param_to_yaml p.2)) ps)
                    = map fst ps)
      by (rewrite map_map; reflexivity).
    split; [|split].
    + rewrite Hkeys.
      pose proof (@Sorted_merge_sort _ (@key_le Param.t) _
                    gmap_key_order_total
                    (map_to_list (Tag.params tag))) as Hs.
      fold (in_key_order (Tag.params tag)) in Hs. fold ps in Hs.
      clear -Hs. induction Hs as [|p ps Hs IH Hhd]; simpl; constructor;
        [exact IH|].
      destruct Hhd; simpl; constructor. assumption.
    + rewrite Hkeys. apply in_key_order_NoDup.
    + intros k.
      destruct (Tag.params tag !! k) as [p|] eqn:Hk; simpl.
      * assert (Hin : In (k, p) ps).
        { apply list_elem_of_In. unfold ps.
          rewrite (in_key_order_perm (Tag.params tag)).
          now apply elem_of_map_to_list. }
        pose proof (in_key_order_NoDup (Tag.params tag)) as Hnd.
        fold ps in Hnd. clear -Hin Hnd.
        induction ps as [|[k0 p0] ps IH]; simpl in *; [contradiction|].
        apply List.NoDup_cons_iff in Hnd as [Hnotin Hnd].
        destruct Hin as [Heq|Hin].
        -- injection Heq as -> ->. now rewrite String.eqb_refl.
        -- destruct (String.eqb_spec k0 k) as [->|_]; [|now apply IH].
           exfalso. apply Hnotin. apply in_map_iff. now exists (k, p).
      * apply yget_absent. rewrite Hkeys. intros Hin.
        apply in_map_iff in Hin as ([k' p] & Heq & Hin). simpl in Heq.
        subst k'. apply list_elem_of_In in Hin. unfold ps in Hin.
        rewrite (in_key_order_perm (Tag.params tag)) in Hin.
        apply elem_of_map_to_list in Hin. congruence.
Qed.

Lemma tag_to_yaml_entries tag :
  Tag.to_yaml tag
  = YSeq ([YDouble (Tag.round3 (Tag.x tag)); YDouble (Tag.round3 (Tag.y tag));
           YDouble 0%float; YString (Tag.name tag)]
          ++ if bool_decide (Tag.params tag = ∅) then []
             else [YMap (map (fun p : string * Param.t =>
                                (p.1, Param_to_yaml p.2))
                             (in_key_order (Tag.params tag)))]).
Proof.
  unfold Tag.to_yaml. destruct (bool_decide (Tag.params tag = ∅)).
  - reflexivity.
  - cbv zeta.
    rewrite fold_yset_distinct by (simpl; apply in_key_order_NoDup).
    reflexivity.
Qed.

Lemma load_params_encoded (ps : list (string * Param.t)) :
  forall q : gmap string Param.t,
    Forall (fun p => Param_from_yaml (Param_to_yaml p.2) = inr p.2) ps ->
    Tag.load_params (map (fun p => (p.1, Param_to_yaml p.2)) ps) q
    = inr (fold_left (fun q p => <[p.1 := p.2]> q) ps q).
Proof.
  induction ps as [|[k p] ps IH]; intros q Hok; simpl; [reflexivity|].
  apply Forall_cons in Hok as [Hp Hok]. simpl in Hp. rewrite Hp. simpl.
  now apply IH.
Qed.

Lemma fold_insert_union (ps : list (string * Param.t)) :
  forall q : gmap string Param.t,
    List.NoDup (map fst ps) ->
    fold_left (fun q p => <[p.1 := p.2]> q) ps q
    = (list_to_map ps : gmap string Param.t) ∪ q.
Proof.
  induction ps as [|[k p] ps IH]; intros q Hnd; simpl.
  - now rewrite (left_id_L ∅ (∪)).
  - apply List.NoDup_cons_iff in Hnd as [Hnotin Hnd].
    rewrite IH by exact Hnd.
    assert (Hnone : (list_to_map ps : gmap string Param.t) !! k = None).
    { apply not_elem_of_list_to_map_1. intros Hin. apply Hnotin.
      apply list_elem_of_In. exact Hin. }
    rewrite <- insert_union_r by exact Hnone.
    now rewrite insert_union_l.
Qed.

(** X17: reading back what [to_yaml] wrote.  If every parameter of [tag]
    survives its own round trip, [from_yaml] on the record of [tag] gives
    the receiving tag the coordinates of [tag] rounded to three decimals,
    its name, and its parameters on top of those the receiving tag had
    (they are not cleared); the uuid and the selection of the receiving tag
    stay: neither is saved. *)
Theorem tag_from_yaml_to_yaml this tag :
  (forall k p, Tag.params tag !! k = Some p ->
               Param_from_yaml (Param_to_yaml p) = inr p) ->
  Tag.from_yaml this (Tag.to_yaml tag)
  = inr (Tag.mk (Tag.round3 (Tag.x tag)) (Tag.round3 (Tag.y tag))
                (Tag.name tag) (Tag.selected this) (Tag.uuid this)
                (Tag.params tag ∪ Tag.params this)).
Proof.
  intros Hcodec. rewrite tag_to_yaml_entries. unfold Tag.from_yaml.
  destruct (bool_decide (Tag.params tag = ∅)) eqn:Hempty; simpl.
  - apply bool_decide_eq_true_1 in Hempty. rewrite Hempty.
    now rewrite (left_id_L ∅ (∪)).
  - rewrite load_params_encoded.
    + simpl. rewrite fold_insert_union by apply in_key_order_NoDup.
      rewrite <- (list_to_map_flip (Tag.params tag)
                    (in_key_order (Tag.params tag))); [reflexivity|].
      symmetry. apply in_key_order_perm.
    + apply List.Forall_forall. intros [k p] Hin. simpl.
      apply (Hcodec k). apply elem_of_map_to_list.
      rewrite <- (in_key_order_perm (Tag.params tag)).
      now apply list_elem_of_In.
Qed.

(** X18: records [from_yaml] does not take whole.  A node that is not a
    sequence throws; so does a sequence of fewer than two items.  A
    sequence of two or three items whose first two are numbers sets the
    position and nothing else: the name and the parameters of the tag
    stay, whatever the third item is. *)
Theorem tag_from_yaml_short_records this :
  (forall data, (forall items, data <> YSeq items) ->
     Tag.from_yaml this data
     = inl (RuntimeError "Tag::from_yaml expected a sequence"))
  /\ (forall items, (length items < 2)%nat ->
        exists err, Tag.from_yaml this (YSeq items) = inl err)
  /\ (forall items x y,
        (length items < 4)%nat ->
        Tag.item_as_double items 0 = inr x ->
        Tag.item_as_double items 1 = inr y ->
        Tag.from_yaml this (YSeq items) = inr (Tag.set_xy x y this)).
Proof.
  split; [|split].
  - intros data Hns. destruct data; try reflexivity.
    now destruct (Hns items).
  - intros items Hlen. unfold Tag.from_yaml, Tag.item_as_double.
    destruct items as [|a [|b items]]; simpl in Hlen; try lia; simpl.
    + eauto.
    + destruct (as_double a); simpl; eauto.
  - intros items x y Hlen Hx Hy. unfold Tag.from_yaml.
    rewrite Hx. simpl. rewrite Hy. simpl.
    destruct (Nat.ltb_spec (length items) 4); [reflexivity | lia].
Qed.

(** X19: [set_param] never adds or removes a parameter.  For a name the
    tag does not have it reports the name and leaves the tag as it is; for
    one it has it sets that parameter and touches no other; in both cases
    the position, name, selection and uuid stay and the parameter names
    are the same as before. *)
Theorem tag_set_param_known_only this (param_name value : string) :
  (Tag.params this !! param_name = None ->
   Tag.set_param this param_name value
   = (this, [Tag.UnknownParameter param_name]))
  /\ (forall p, Tag.params this !! param_name = Some p ->
        (Tag.set_param this param_name value).2 = []
        /\ Tag.params (Tag.set_param this param_name value).1 !! param_name
           = Some (Param_set p value)
        /\ forall k, k <> param_name ->
             Tag.params (Tag.set_param this param_name value).1 !! k
             = Tag.params this !! k)
  /\ dom (Tag.params (Tag.set_param this param_name value).1)
     = dom (Tag.params this)
  /\ Tag.x (Tag.set_param this param_name value).1 = Tag.x this
  /\ Tag.y (Tag.set_param this param_name value).1 = Tag.y this
  /\ Tag.name (Tag.set_param this param_name value).1 = Tag.name this
  /\ Tag.selected (Tag.set_param this param_name value).1 = Tag.selected this
  /\ Tag.uuid (Tag.set_param this param_name value).1 = Tag.uuid this.
Proof.
  unfold Tag.set_param.
  destruct (Tag.params this !! param_name) as [p|] eqn:Hp; simpl.
  - split; [discriminate|]. split.
    + intros p' Heq. injection Heq as <-. split; [reflexivity|].
      split; [apply lookup_insert_eq|].
      intros k Hk. now apply lookup_insert_ne.
    + split; [|repeat split].
      rewrite dom_insert_L. apply subseteq_union_1_L.
      apply singleton_subseteq_l. now apply elem_of_dom_2 in Hp.
  - split; [reflexivity|]. split; [discriminate|]. repeat split.
Qed.
End tags.

Lemma tag_from_yaml_to_yaml_witness :
  Tag.from_yaml (PC := MoreExamples.param_codec) (Tag.create 5%N)
                (Tag.to_yaml (PC := MoreExamples.param_codec)
                             MoreExamples.april_tag)
  = inr (Tag.mk 12.346%float 7.891%float "dock" false 5%N
                (Tag.params MoreExamples.april_tag ∪ ∅)).
Proof.
  apply (tag_from_yaml_to_yaml (PC := MoreExamples.param_codec)
           (Tag.create 5%N) MoreExamples.april_tag).
  intros k [i d s b] _. reflexivity.
Defined.

(** ** The undo commands *)

Section building_lemmas.
Implicit Types (b : Building.t) (lv : Building.Level).

Lemma at_index_inr {A : Type} (xs : list A) (i : Z) (a : A) :
  Building.at_index xs i = inr a <-> 0 <= i /\ xs !! Z.to_nat i = Some a.
Proof.
  unfold Building.at_index. destruct (Z.ltb_spec i 0).
  - split; [discriminate | lia].
  - destruct (xs !! Z.to_nat i); split.
    + intros H'. injection H' as ->. auto.
    + intros [_ H']. congruence.
    + discriminate.
    + intros [_ H']. discriminate.
Qed.

Lemma at_index_negative {A : Type} (xs : list A) (i : Z) :
  i < 0 -> Building.at_index xs i = inl UndefinedBehavior.
Proof.
  intros Hi. unfold Building.at_index.
  destruct (Z.ltb_spec i 0); [reflexivity | lia].
Qed.

Lemma set_level_same b i lv :
  Building.at_index (Building.levels b) i = inr lv ->
  Building.set_level i lv b = b.
Proof.
  intros H. apply at_index_inr in H as [_ H]. destruct b as [lvs].
  unfold Building.set_level. simpl in *. f_equal.
  now apply list_insert_id.
Qed.

Lemma set_level_twice b i lv1 lv2 :
  Building.set_level i lv2 (Building.set_level i lv1 b)
  = Building.set_level i lv2 b.
Proof.
  unfold Building.set_level. simpl. f_equal. apply list_insert_insert_eq.
Qed.

Lemma at_index_set_level b i lv lv' :
  Building.at_index (Building.levels b) i = inr lv ->
  Building.at_index (Building.levels (Building.set_level i lv' b)) i
  = inr lv'.
Proof.
  intros H. apply at_index_inr in H as [Hi H]. apply at_index_inr.
  split; [exact Hi|]. simpl. apply list_lookup_insert_eq.
  now apply lookup_lt_Some in H.
Qed.

Lemma levels_set_level_other b i lv (j : nat) :
  j <> Z.to_nat i ->
  Building.levels (Building.set_level i lv b) !! j = Building.levels b !! j.
Proof. intros Hj. simpl. now apply list_lookup_insert_ne. Qed.

Lemma set_tags_same lv : Building.set_tags (Building.tags lv) lv = lv.
Proof. now destruct lv. Qed.

Lemma set_tags_twice lv (ts ts' : list Tag.t) :
  Building.set_tags ts (Building.set_tags ts' lv) = Building.set_tags ts lv.
Proof. reflexivity. Qed.

Lemma set_xy_same (t : Tag.t) : Tag.set_xy (Tag.x t) (Tag.y t) t = t.
Proof. now destruct t. Qed.

Lemma map_injective_on {A B : Type} (f : A -> B) (xs : list A) (a a' : A) :
  List.NoDup (map f xs) -> In a xs -> In a' xs -> f a = f a' -> a = a'.
Proof.
  induction xs as [|x xs IH]; simpl; [contradiction|]. intros Hnd Ha Ha' Hf.
  apply List.NoDup_cons_iff in Hnd as [Hnotin Hnd].
  destruct Ha as [->|Ha], Ha' as [->|Ha']; auto.
  - exfalso. apply Hnotin. rewrite Hf. now apply in_map.
  - exfalso. apply Hnotin. rewrite <- Hf. now apply in_map.
Qed.

Lemma place_place id x y x' y' (tags : list Tag.t) :
  MoveTagCommand.place id x' y' (MoveTagCommand.place id x y tags)
  = MoveTagCommand.place id x' y' tags.
Proof.
  unfold MoveTagCommand.place. rewrite map_map. apply map_ext. intros t.
  destruct (N.eqb (Tag.uuid t) id) eqn:Ht; simpl; rewrite Ht; reflexivity.
Qed.

Lemma place_same id x y (tags : list Tag.t) :
  (forall t, In t tags -> Tag.uuid t = id -> Tag.x t = x /\ Tag.y t = y) ->
  MoveTagCommand.place id x y tags = tags.
Proof.
  intros H. unfold MoveTagCommand.place.
  rewrite <- (map_id tags) at 2. apply map_ext_in. intros t Ht.
  destruct (N.eqb_spec (Tag.uuid t) id) as [Heq|]; [|reflexivity].
  destruct (H t Ht Heq) as [<- <-]. apply set_xy_same.
Qed.

Lemma place_absent id x y (tags : list Tag.t) :
  (forall t, In t tags -> Tag.uuid t <> id) ->
  MoveTagCommand.place id x y tags = tags.
Proof.
  intros H. apply place_same. intros t Ht Heq. now destruct (H t Ht).
Qed.
End building_lemmas.

(** X20: what [redo] of a move command with a destination does to the
    building.  Only the tags of the command's level change: every tag
    that has the uuid of the tag the command was made for gets the
    destination as its position, every other tag keeps its position, and
    all tags keep name, selection, uuid and parameters and their place in
    the list.  When no tag has that uuid any more, the building is left as
    it is. *)
Theorem move_tag_redo_moves_by_uuid (c : MoveTagCommand.t)
    (b b' : Building.t) (x y : float) :
  MoveTagCommand._x c = Some x -> MoveTagCommand._y c = Some y ->
  MoveTagCommand.redo c b = inr b' ->
  exists lv lv',
    Building.at_index (Building.levels b) (MoveTagCommand._level_idx c)
    = inr lv
    /\ Building.at_index (Building.levels b') (MoveTagCommand._level_idx c)
       = inr lv'
    /\ Building.base lv' = Building.base lv
    /\ length (Building.levels b') = length (Building.levels b)
    /\ (forall j : nat,
          j <> Z.to_nat (MoveTagCommand._level_idx c) ->
          Building.levels b' !! j = Building.levels b !! j)
    /\ Forall2
         (fun t t' =>
            Tag.name t' = Tag.name t /\ Tag.selected t' = Tag.selected t
            /\ Tag.uuid t' = Tag.uuid t /\ Tag.params t' = Tag.params t
            /\ (Tag.uuid t = Tag.uuid (MoveTagCommand._to_move c) ->
                Tag.x t' = x /\ Tag.y t' = y)
            /\ (Tag.uuid t <> Tag.uuid (MoveTagCommand._to_move c) ->
                Tag.x t' = Tag.x t /\ Tag.y t' = Tag.y t))
         (Building.tags lv) (Building.tags lv')
    /\ ((forall t, In t (Building.tags lv) ->
                   Tag.uuid t <> Tag.uuid (MoveTagCommand._to_move c)) ->
        b' = b).
Proof.
  intros Hx Hy. unfold MoveTagCommand.redo. rewrite Hx, Hy.
  destruct (Building.at_index (Building.levels b) _) as [|lv] eqn:Hlv;
    [discriminate|]. simpl.
  intros H. injection H as <-. exists lv. eexists.
  split; [reflexivity|].
  split; [apply (at_index_set_level b _ lv), Hlv|].
  split; [reflexivity|].
  split; [simpl; apply length_insert|].
  split; [intros j Hj; now apply levels_set_level_other|].
  split.
  - simpl. apply Forall2_map_self. intros t.
    destruct (N.eqb_spec (Tag.uuid t) (Tag.uuid (MoveTagCommand._to_move c)));
      simpl; repeat split; auto; intros; congruence.
  - intros Habsent. rewrite place_absent by exact Habsent.
    rewrite set_tags_same. now apply set_level_same.
Qed.

(** X21: undoing a move.  For a command made for a tag of the building
    and given a destination, on a level whose tags have pairwise distinct
    uuids, [redo] followed by [undo] gives the building back as it was,
    and [redo] on the moved building changes nothing. *)
Theorem move_tag_undo_after_redo (b : Building.t)
    (level_idx mouse_tag_idx : Z) (c : MoveTagCommand.t)
    (lv : Building.Level) (x y : float) :
  MoveTagCommand.create b level_idx mouse_tag_idx = inr c ->
  Building.at_index (Building.levels b) level_idx = inr lv ->
  List.NoDup (map Tag.uuid (Building.tags lv)) ->
  exists b1,
    MoveTagCommand.redo (MoveTagCommand.set_final_destination x y c) b
    = inr b1
    /\ MoveTagCommand.undo (MoveTagCommand.set_final_destination x y c) b1
       = inr b
    /\ MoveTagCommand.redo (MoveTagCommand.set_final_destination x y c) b1
       = inr b1.
Proof.
  intros Hc Hlv Hnd. unfold MoveTagCommand.create in Hc.
  rewrite Hlv in Hc. simpl in Hc.
  destruct (Building.at_index (Building.tags lv) mouse_tag_idx)
    as [|tag] eqn:Htag; [discriminate|]. simpl in Hc.
  injection Hc as <-.
  unfold MoveTagCommand.redo, MoveTagCommand.undo. simpl.
  rewrite Hlv. simpl. eexists. split; [reflexivity|].
  rewrite (at_index_set_level b _ lv _ Hlv). simpl.
  rewrite !set_level_twice. split; f_equal.
  - rewrite place_place, place_same.
    + rewrite set_tags_twice, set_tags_same. now apply set_level_same.
    + intros t Ht Hu. apply at_index_inr in Htag as [_ Htag].
      apply list_elem_of_lookup_2, list_elem_of_In in Htag.
      now rewrite (map_injective_on Tag.uuid _ t tag Hnd Ht Htag Hu).
  - now rewrite place_place.
Qed.

Lemma move_tag_redo_moves_by_uuid_witness :
  let c := MoveTagCommand.mk true 0 MoreExamples.april_tag
                             (Some 1%float) (Some 2%float) in
  let b := MoreExamples.building in
  let b' := Building.mk
              (map (Building.set_tags
                      [MoreExamples.plain_tag;
                       Tag.set_xy 1 2 MoreExamples.april_tag])
                   (Building.levels b)) in
  exists lv lv',
    Building.at_index (Building.levels b) 0 = inr lv
    /\ Building.at_index (Building.levels b') 0 = inr lv'
    /\ Building.base lv' = Building.base lv
    /\ length (Building.levels b') = length (Building.levels b)
    /\ (forall j : nat,
          j <> Z.to_nat 0 -> Building.levels b' !! j = Building.levels b !! j)
    /\ Forall2
         (fun t t' =>
            Tag.name t' = Tag.name t /\ Tag.selected t' = Tag.selected t
            /\ Tag.uuid t' = Tag.uuid t /\ Tag.params t' = Tag.params t
            /\ (Tag.uuid t = 17%N -> Tag.x t' = 1%float /\ Tag.y t' = 2%float)
            /\ (Tag.uuid t <> 17%N ->
                Tag.x t' = Tag.x t /\ Tag.y t' = Tag.y t))
         (Building.tags lv) (Building.tags lv')
    /\ ((forall t, In t (Building.tags lv) -> Tag.uuid t <> 17%N) -> b' = b).
Proof.
  intros c b b'.
  apply (move_tag_redo_moves_by_uuid c b b' 1 2); reflexivity.
Defined.

Lemma move_tag_undo_after_redo_witness :
  exists b1,
    MoveTagCommand.redo
      (MoveTagCommand.set_final_destination 1 2
         (MoveTagCommand.mk false 0 MoreExamples.april_tag None None))
      MoreExamples.building = inr b1
    /\ MoveTagCommand.undo
         (MoveTagCommand.set_final_destination 1 2
            (MoveTagCommand.mk false 0 MoreExamples.april_tag None None))
         b1 = inr MoreExamples.building
    /\ MoveTagCommand.redo
         (MoveTagCommand.set_final_destination 1 2
            (MoveTagCommand.mk false 0 MoreExamples.april_tag None None))
         b1 = inr b1.
Proof.
  eapply (move_tag_undo_after_redo MoreExamples.building 0 1 _ _ 1 2).
  - reflexivity.
  - reflexivity.
  - simpl. repeat constructor; simpl; intuition discriminate.
Defined.

Section add_tag_lemmas.
Implicit Types (tags : list Tag.t) (id : QUuid).

Lemma erase_first_absent id tags :
  (forall t, In t tags -> Tag.uuid t <> id) ->
  AddTagCommand.erase_first id tags = tags.
Proof.
  induction tags as [|t tags IH]; simpl; [reflexivity|]. intros H.
  destruct (N.eqb_spec (Tag.uuid t) id) as [Heq|_].
  - destruct (H t (or_introl eq_refl) Heq).
  - f_equal. apply IH. intros u Hu. apply H. now right.
Qed.

Lemma erase_first_split id pre t post :
  (forall u, In u pre -> Tag.uuid u <> id) -> Tag.uuid t = id ->
  AddTagCommand.erase_first id (pre ++ t :: post) = pre ++ post.
Proof.
  intros Hpre Ht. induction pre as [|u pre IH]; simpl.
  - rewrite Ht, N.eqb_refl. reflexivity.
  - destruct (N.eqb_spec (Tag.uuid u) id) as [Heq|_].
    + destruct (Hpre u (or_introl eq_refl) Heq).
    + f_equal. apply IH. intros w Hw. apply Hpre. now right.
Qed.

Lemma last_snoc_tag tags (t : Tag.t) : last (tags ++ [t]) = Some t.
Proof. apply last_snoc. Qed.
End add_tag_lemmas.

(** X22: what [undo] of an add-tag command does.  Only the tags of the
    command's level change: the first tag whose uuid is the command's
    [_tag_id] is erased, and only that one, later tags with the same uuid
    stay; when no tag of the level has that uuid the building is left as
    it is. *)
Theorem add_tag_undo_erases_first_match (c : AddTagCommand.t)
    (b b' : Building.t) :
  AddTagCommand.undo c b = inr b' ->
  exists lv lv',
    Building.at_index (Building.levels b) (AddTagCommand._level_idx c)
    = inr lv
    /\ Building.at_index (Building.levels b') (AddTagCommand._level_idx c)
       = inr lv'
    /\ Building.base lv' = Building.base lv
    /\ (forall j : nat,
          j <> Z.to_nat (AddTagCommand._level_idx c) ->
          Building.levels b' !! j = Building.levels b !! j)
    /\ ((forall t, In t (Building.tags lv) ->
                   Tag.uuid t <> AddTagCommand._tag_id c) ->
        b' = b)
    /\ (forall pre t post,
          Building.tags lv = pre ++ t :: post ->
          Tag.uuid t = AddTagCommand._tag_id c ->
          (forall u, In u pre -> Tag.uuid u <> AddTagCommand._tag_id c) ->
          Building.tags lv' = pre ++ post).
Proof.
  unfold AddTagCommand.undo.
  destruct (Building.at_index (Building.levels b) _) as [|lv] eqn:Hlv;
    [discriminate|]. simpl.
  intros H. injection H as <-. exists lv. eexists.
  split; [reflexivity|].
  split; [apply (at_index_set_level b _ lv), Hlv|].
  split; [reflexivity|].
  split; [intros j Hj; now apply levels_set_level_other|].
  split.
  - intros Habsent. rewrite erase_first_absent by exact Habsent.
    rewrite set_tags_same. now apply set_level_same.
  - intros pre t post Htags Ht Hpre. simpl. rewrite Htags.
    now apply erase_first_split.
Qed.

Lemma add_tag_undo_erases_first_match_witness :
  let c := AddTagCommand.mk 0 0 0 17%N in
  let b := MoreExamples.building in
  let b' := Building.mk
              (map (Building.set_tags [MoreExamples.plain_tag])
                   (Building.levels b)) in
  exists lv lv',
    Building.at_index (Building.levels b) 0 = inr lv
    /\ Building.at_index (Building.levels b') 0 = inr lv'
    /\ Building.base lv' = Building.base lv
    /\ (forall j : nat,
          j <> Z.to_nat 0 -> Building.levels b' !! j = Building.levels b !! j)
    /\ ((forall t, In t (Building.tags lv) -> Tag.uuid t <> 17%N) -> b' = b)
    /\ (forall pre t post,
          Building.tags lv = pre ++ t :: post ->
          Tag.uuid t = 17%N ->
          (forall u, In u pre -> Tag.uuid u <> 17%N) ->
          Building.tags lv' = pre ++ post).
Proof.
  intros c b b'.
  apply (add_tag_undo_erases_first_match c b b'). reflexivity.
Defined.

(** X23: undoing an added tag.  Whenever [Building::add_tag] appends one
    tag to the level and that tag's uuid is not the uuid of a tag already
    there, [redo] records the new tag's uuid in the command and [undo] of
    that command gives the building back as it was. *)
Theorem add_tag_undo_after_redo {BO : AddTagCommand.BuildingOps}
    (c : AddTagCommand.t) (b : Building.t) (lv : Building.Level)
    (t : Tag.t) :
  Building.at_index (Building.levels b) (AddTagCommand._level_idx c)
  = inr lv ->
  AddTagCommand.add_tag b (AddTagCommand._level_idx c)
                        (AddTagCommand._x c) (AddTagCommand._y c)
  = inr (Building.set_level (AddTagCommand._level_idx c)
           (Building.set_tags (Building.tags lv ++ [t]) lv) b) ->
  (forall u, In u (Building.tags lv) -> Tag.uuid u <> Tag.uuid t) ->
  exists c' b1,
    AddTagCommand.redo c b = inr (c', b1)
    /\ AddTagCommand._tag_id c' = Tag.uuid t
    /\ AddTagCommand.undo c' b1 = inr b.
Proof.
  intros Hlv Hadd Hfresh. unfold AddTagCommand.redo. rewrite Hadd.
  unfold mbind, result_bind.
  rewrite (at_index_set_level b _ lv _ Hlv).
  change (Building.tags (Building.set_tags ?ts _)) with ts.
  rewrite last_snoc_tag. do 2 eexists. split; [reflexivity|].
  split; [reflexivity|].
  unfold AddTagCommand.undo, mbind, result_bind.
  cbn [AddTagCommand._level_idx AddTagCommand._tag_id].
  rewrite (at_index_set_level b _ lv _ Hlv).
  change (Building.tags (Building.set_tags ?ts _)) with ts.
  rewrite set_level_twice, set_tags_twice. f_equal.
  rewrite erase_first_split by (assumption || reflexivity).
  rewrite app_nil_r, set_tags_same. now apply set_level_same.
Qed.

Lemma add_tag_undo_after_redo_witness :
  exists c' b1,
    AddTagCommand.redo (BO := MoreExamples.add_tag_99)
                       (AddTagCommand.create 0 3 4) MoreExamples.building
    = inr (c', b1)
    /\ AddTagCommand._tag_id c' = 99%N
    /\ AddTagCommand.undo c' b1 = inr MoreExamples.building.
Proof.
  eapply (add_tag_undo_after_redo (BO := MoreExamples.add_tag_99)
            (AddTagCommand.create 0 3 4) MoreExamples.building _
            (Tag.create_at 99%N 3 4 "")).
  - reflexivity.
  - reflexivity.
  - simpl. intros u [<-|[<-|[]]]; discriminate.
Defined.

Section add_property_lemmas.
Context {A : Type} (selected : A -> bool).

Lemma scan_selected_none (i : Z) (xs : list A) (id : Z) :
  (forall a, In a xs -> selected a = false) ->
  AddPropertyCommand.scan_selected selected i xs id = id.
Proof.
  revert i id. induction xs as [|a xs IH]; intros i id H; simpl;
    [reflexivity|].
  rewrite (H a (or_introl eq_refl)). apply IH. intros u Hu. apply H.
  now right.
Qed.

Lemma scan_selected_last (i : Z) (pre : list A) (a : A) (post : list A)
    (id : Z) :
  selected a = true -> (forall u, In u post -> selected u = false) ->
  AddPropertyCommand.scan_selected selected i (pre ++ a :: post) id
  = i + Z.of_nat (length pre).
Proof.
  intros Ha Hpost. revert i id.
  induction pre as [|u pre IH]; intros i id.
  - simpl. rewrite Ha, scan_selected_none by exact Hpost. lia.
  - cbn [app AddPropertyCommand.scan_selected length]. rewrite IH. lia.
Qed.
End add_property_lemmas.

Lemma set_vertices_same (lv : Building.Level) :
  Building.set_vertices (vertices (Building.base lv)) lv = lv.
Proof. destruct lv as [[] ?]. reflexivity. Qed.

Lemma set_vertices_twice (lv : Building.Level) (vs vs' : list Vertex.t) :
  Building.set_vertices vs (Building.set_vertices vs' lv)
  = Building.set_vertices vs lv.
Proof. reflexivity. Qed.

Lemma at_index_insert {A : Type} (xs : list A) (i : Z) (a a' : A) :
  Building.at_index xs i = inr a ->
  Building.at_index (<[Z.to_nat i := a']> xs) i = inr a'.
Proof.
  intros H. apply at_index_inr in H as [Hi H]. apply at_index_inr.
  split; [exact Hi|]. apply list_lookup_insert_eq.
  now apply lookup_lt_Some in H.
Qed.

Lemma insert_same_at {A : Type} (xs : list A) (i : Z) (a : A) :
  Building.at_index xs i = inr a -> <[Z.to_nat i := a]> xs = xs.
Proof. intros H. apply at_index_inr in H as [_ H]. now apply list_insert_id. Qed.

(** X24: the element an add-property command is made for.  The
    constructor's loops have no [break]: of several selected vertices (or
    tags, for a tag command) the one with the highest index is recorded;
    with none selected the index stays -1; the index of the other kind of
    element stays -1 in either case. *)
Theorem add_property_targets_last_selected (b : Building.t)
    (property : string) (value : Param.t) (level_idx : Z) (is_tag : bool)
    (c : AddPropertyCommand.t) (lv : Building.Level) :
  AddPropertyCommand.create b property value level_idx is_tag = inr c ->
  Building.at_index (Building.levels b) level_idx = inr lv ->
  (is_tag = false ->
     AddPropertyCommand.get_tag_updated c = -1
     /\ ((forall v, In v (vertices (Building.base lv)) ->
                    Vertex.selected v = false) ->
         AddPropertyCommand.get_vertex_updated c = -1)
     /\ (forall pre v post,
           vertices (Building.base lv) = pre ++ v :: post ->
           Vertex.selected v = true ->
           (forall u, In u post -> Vertex.selected u = false) ->
           AddPropertyCommand.get_vertex_updated c = Z.of_nat (length pre)))
  /\ (is_tag = true ->
        AddPropertyCommand.get_vertex_updated c = -1
        /\ ((forall t, In t (Building.tags lv) -> Tag.selected t = false) ->
            AddPropertyCommand.get_tag_updated c = -1)
        /\ (forall pre t post,
              Building.tags lv = pre ++ t :: post ->
              Tag.selected t = true ->
              (forall u, In u post -> Tag.selected u = false) ->
              AddPropertyCommand.get_tag_updated c = Z.of_nat (length pre))).
Proof.
  intros Hc Hlv. unfold AddPropertyCommand.create in Hc. rewrite Hlv in Hc.
  unfold mbind, result_bind in Hc.
  unfold AddPropertyCommand.get_tag_updated,
    AddPropertyCommand.get_vertex_updated.
  split; intros ->; injection Hc as <-; cbn [AddPropertyCommand._tag_id
    AddPropertyCommand._vert_id]; (split; [reflexivity|split]).
  - apply scan_selected_none.
  - intros pre v post -> Hv Hpost. now rewrite scan_selected_last.
  - apply scan_selected_none.
  - intros pre t post -> Ht Hpost. now rewrite scan_selected_last.
Qed.

Lemma add_property_targets_last_selected_witness :
  let lv := Building.mkLevel
              (Examples.level 200 400 10 20
                 [Examples.vtx 0 0 true; Examples.vtx 1 1 true;
                  Examples.vtx 2 2 false] [] [])
              [MoreExamples.april_tag; MoreExamples.plain_tag] in
  let c := AddPropertyCommand.mk "is_charger" (MoreExamples.flag true) 0
                                 1 (-1) false in
  (false = false ->
     AddPropertyCommand.get_tag_updated c = -1
     /\ ((forall v, In v (vertices (Building.base lv)) ->
                    Vertex.selected v = false) ->
         AddPropertyCommand.get_vertex_updated c = -1)
     /\ (forall pre v post,
           vertices (Building.base lv) = pre ++ v :: post ->
           Vertex.selected v = true ->
           (forall u, In u post -> Vertex.selected u = false) ->
           AddPropertyCommand.get_vertex_updated c = Z.of_nat (length pre)))
  /\ (false = true ->
        AddPropertyCommand.get_vertex_updated c = -1
        /\ ((forall t, In t (Building.tags lv) -> Tag.selected t = false) ->
            AddPropertyCommand.get_tag_updated c = -1)
        /\ (forall pre t post,
              Building.tags lv = pre ++ t :: post ->
              Tag.selected t = true ->
              (forall u, In u post -> Tag.selected u = false) ->
              AddPropertyCommand.get_tag_updated c = Z.of_nat (length pre))).
Proof.
  intros lv c.
  apply (add_property_targets_last_selected (Building.mk [lv]) "is_charger"
           (MoreExamples.flag true) 0 false c lv); reflexivity.
Defined.

(** X25: [redo] and [undo] of an add-property command made for a vertex.
    [redo] sets the property on the recorded vertex and changes nothing
    else of it, nor the tags of the level.  [undo] after [redo] gives the
    building back as it was when the vertex did not have the property
    before; when it had it, the old value is not put back: the vertex is
    left without the property. *)
Theorem add_property_undo_after_redo_vertex (c : AddPropertyCommand.t)
    (b : Building.t) (lv : Building.Level) (v : Vertex.t) :
  AddPropertyCommand._is_tag c = false ->
  Building.at_index (Building.levels b) (AddPropertyCommand._level_idx c)
  = inr lv ->
  Building.at_index (vertices (Building.base lv))
                    (AddPropertyCommand._vert_id c) = inr v ->
  exists b1 lv1 v1,
    AddPropertyCommand.redo c b = inr b1
    /\ Building.at_index (Building.levels b1)
                         (AddPropertyCommand._level_idx c) = inr lv1
    /\ Building.at_index (vertices (Building.base lv1))
                         (AddPropertyCommand._vert_id c) = inr v1
    /\ Vertex.params v1
       = <[AddPropertyCommand._prop c := AddPropertyCommand._val c]>
           (Vertex.params v)
    /\ (Vertex.x v1 = Vertex.x v /\ Vertex.y v1 = Vertex.y v
        /\ Vertex.name v1 = Vertex.name v
        /\ Vertex.selected v1 = Vertex.selected v)
    /\ Building.tags lv1 = Building.tags lv
    /\ exists b2,
         AddPropertyCommand.undo c b1 = inr b2
         /\ (Vertex.params v !! AddPropertyCommand._prop c = None -> b2 = b)
         /\ (forall old,
               Vertex.params v !! AddPropertyCommand._prop c = Some old ->
               exists lv2 v2,
                 Building.at_index (Building.levels b2)
                                   (AddPropertyCommand._level_idx c)
                 = inr lv2
                 /\ Building.at_index (vertices (Building.base lv2))
                                      (AddPropertyCommand._vert_id c)
                    = inr v2
                 /\ Vertex.params v2 !! AddPropertyCommand._prop c = None
                 /\ Vertex.params v2
                    = delete (AddPropertyCommand._prop c) (Vertex.params v)).
Proof.
  intros Hkind Hlv Hv.
  pose proof (proj1 (at_index_inr _ _ _) Hv) as [Hi _].
  assert (Hredo : AddPropertyCommand.redo c b
                  = inr (Building.set_level (AddPropertyCommand._level_idx c)
                           (AddPropertyCommand.set_vertex_params
                              (AddPropertyCommand._vert_id c) v
                              (<[AddPropertyCommand._prop c
                                 := AddPropertyCommand._val c]>
                                 (Vertex.params v)) lv) b)).
  { unfold AddPropertyCommand.redo. rewrite Hkind.
    destruct (Z.ltb_spec (AddPropertyCommand._vert_id c) 0); [lia|].
    rewrite Hlv. unfold mbind, result_bind. now rewrite Hv. }
  do 3 eexists. split; [exact Hredo|].
  split; [apply (at_index_set_level b _ lv), Hlv|].
  split; [apply (at_index_insert _ _ v), Hv|].
  split; [reflexivity|].
  split; [repeat split|].
  split; [reflexivity|].
  unfold AddPropertyCommand.undo. rewrite Hkind.
  rewrite (at_index_set_level b _ lv _ Hlv). unfold mbind, result_bind.
  unfold AddPropertyCommand.set_vertex_params at 1.
  change (vertices (Building.base (Building.set_vertices ?vs _))) with vs.
  rewrite (at_index_insert _ _ v _ Hv).
  cbn [Vertex.params Vertex.x Vertex.y Vertex.name Vertex.selected].
  rewrite lookup_insert_eq, delete_insert_eq.
  eexists. split; [reflexivity|].
  rewrite set_level_twice. unfold AddPropertyCommand.set_vertex_params.
  rewrite set_vertices_twice.
  change (vertices (Building.base (Building.set_vertices ?vs _))) with vs.
  rewrite list_insert_insert_eq. split.
  - intros Hnone. rewrite delete_id by exact Hnone.
    replace (Vertex.mk _ _ _ _ _) with v by now destruct v.
    rewrite (insert_same_at _ _ _ Hv), set_vertices_same.
    now apply set_level_same.
  - intros old _. do 2 eexists.
    split; [apply (at_index_set_level b _ lv), Hlv|].
    split; [apply (at_index_insert _ _ v), Hv|].
    split; [apply lookup_delete_eq | reflexivity].
Qed.

Lemma add_property_undo_after_redo_vertex_witness :
  let c := AddPropertyCommand.mk "is_charger" (MoreExamples.flag false) 0
                                 1 (-1) false in
  let v := MoreExamples.charger in
  exists b1 lv1 v1,
    AddPropertyCommand.redo c MoreExamples.building = inr b1
    /\ Building.at_index (Building.levels b1) 0 = inr lv1
    /\ Building.at_index (vertices (Building.base lv1)) 1 = inr v1
    /\ Vertex.params v1
       = <["is_charger" := MoreExamples.flag false]> (Vertex.params v)
    /\ (Vertex.x v1 = Vertex.x v /\ Vertex.y v1 = Vertex.y v
        /\ Vertex.name v1 = Vertex.name v
        /\ Vertex.selected v1 = Vertex.selected v)
    /\ Building.tags lv1 = Building.tags MoreExamples.ground
    /\ exists b2,
         AddPropertyCommand.undo c b1 = inr b2
         /\ (Vertex.params v !! "is_charger" = None ->
             b2 = MoreExamples.building)
         /\ (forall old,
               Vertex.params v !! "is_charger" = Some old ->
               exists lv2 v2,
                 Building.at_index (Building.levels b2) 0 = inr lv2
                 /\ Building.at_index (vertices (Building.base lv2)) 1
                    = inr v2
                 /\ Vertex.params v2 !! "is_charger" = None
                 /\ Vertex.params v2
                    = delete "is_charger" (Vertex.params v)).
Proof.
  intros c v.
  apply (add_property_undo_after_redo_vertex c MoreExamples.building
           MoreExamples.ground v); reflexivity.
Defined.

(** X26: [redo] and [undo] of an add-property command made for a tag, as
    for a vertex: [redo] sets the property on the recorded tag and changes
    nothing else of it, nor the vertices of the level; [undo] after [redo]
    gives the building back as it was when the tag did not have the
    property, and leaves the tag without the property when it had one. *)
Theorem add_property_undo_after_redo_tag (c : AddPropertyCommand.t)
    (b : Building.t) (lv : Building.Level) (t : Tag.t) :
  AddPropertyCommand._is_tag c = true ->
  Building.at_index (Building.levels b) (AddPropertyCommand._level_idx c)
  = inr lv ->
  Building.at_index (Building.tags lv) (AddPropertyCommand._tag_id c)
  = inr t ->
  exists b1 lv1 t1,
    AddPropertyCommand.redo c b = inr b1
    /\ Building.at_index (Building.levels b1)
                         (AddPropertyCommand._level_idx c) = inr lv1
    /\ Building.at_index (Building.tags lv1) (AddPropertyCommand._tag_id c)
       = inr t1
    /\ Tag.params t1
       = <[AddPropertyCommand._prop c := AddPropertyCommand._val c]>
           (Tag.params t)
    /\ (Tag.x t1 = Tag.x t /\ Tag.y t1 = Tag.y t
        /\ Tag.name t1 = Tag.name t /\ Tag.selected t1 = Tag.selected t
        /\ Tag.uuid t1 = Tag.uuid t)
    /\ Building.base lv1 = Building.base lv
    /\ exists b2,
         AddPropertyCommand.undo c b1 = inr b2
         /\ (Tag.params t !! AddPropertyCommand._prop c = None -> b2 = b)
         /\ (forall old,
               Tag.params t !! AddPropertyCommand._prop c = Some old ->
               exists lv2 t2,
                 Building.at_index (Building.levels b2)
                                   (AddPropertyCommand._level_idx c)
                 = inr lv2
                 /\ Building.at_index (Building.tags lv2)
                                      (AddPropertyCommand._tag_id c)
                    = inr t2
                 /\ Tag.params t2 !! AddPropertyCommand._prop c = None
                 /\ Tag.params t2
                    = delete (AddPropertyCommand._prop c) (Tag.params t)).
Proof.
  intros Hkind Hlv Ht.
  pose proof (proj1 (at_index_inr _ _ _) Ht) as [Hi _].
  assert (Hredo : AddPropertyCommand.redo c b
                  = inr (Building.set_level (AddPropertyCommand._level_idx c)
                           (AddPropertyCommand.set_tag_params
                              (AddPropertyCommand._tag_id c) t
                              (<[AddPropertyCommand._prop c
                                 := AddPropertyCommand._val c]>
                                 (Tag.params t)) lv) b)).
  { unfold AddPropertyCommand.redo. rewrite Hkind.
    destruct (Z.ltb_spec (AddPropertyCommand._tag_id c) 0); [lia|].
    rewrite Hlv. unfold mbind, result_bind. now rewrite Ht. }
  do 3 eexists. split; [exact Hredo|].
  split; [apply (at_index_set_level b _ lv), Hlv|].
  split; [apply (at_index_insert _ _ t), Ht|].
  split; [reflexivity|].
  split; [repeat split|].
  split; [reflexivity|].
  unfold AddPropertyCommand.undo. rewrite Hkind.
  rewrite (at_index_set_level b _ lv _ Hlv). unfold mbind, result_bind.
  unfold AddPropertyCommand.set_tag_params at 1.
  change (Building.tags (Building.set_tags ?ts _)) with ts.
  rewrite (at_index_insert _ _ t _ Ht).
  change (Tag.params (Tag.set_params ?p _)) with p.
  rewrite lookup_insert_eq, delete_insert_eq.
  eexists. split; [reflexivity|].
  rewrite set_level_twice. unfold AddPropertyCommand.set_tag_params.
  rewrite set_tags_twice.
  change (Building.tags (Building.set_tags ?ts _)) with ts.
  change (Tag.set_params ?q (Tag.set_params _ t)) with (Tag.set_params q t).
  rewrite list_insert_insert_eq. split.
  - intros Hnone. rewrite delete_id by exact Hnone.
    replace (Tag.set_params _ _) with t by now destruct t.
    rewrite (insert_same_at _ _ _ Ht), set_tags_same.
    now apply set_level_same.
  - intros old _. do 2 eexists.
    split; [apply (at_index_set_level b _ lv), Hlv|].
    split; [apply (at_index_insert _ _ t), Ht|].
    split; [apply lookup_delete_eq | reflexivity].
Qed.

Lemma add_property_undo_after_redo_tag_witness :
  let c := AddPropertyCommand.mk "is_signage" (MoreExamples.flag true) 0
                                 (-1) 0 true in
  let t := MoreExamples.plain_tag in
  exists b1 lv1 t1,
    AddPropertyCommand.redo c MoreExamples.building = inr b1
    /\ Building.at_index (Building.levels b1) 0 = inr lv1
    /\ Building.at_index (Building.tags lv1) 0 = inr t1
    /\ Tag.params t1
       = <["is_signage" := MoreExamples.flag true]> (Tag.params t)
    /\ (Tag.x t1 = Tag.x t /\ Tag.y t1 = Tag.y t
        /\ Tag.name t1 = Tag.name t /\ Tag.selected t1 = Tag.selected t
        /\ Tag.uuid t1 = Tag.uuid t)
    /\ Building.base lv1 = Building.base MoreExamples.ground
    /\ exists b2,
         AddPropertyCommand.undo c b1 = inr b2
         /\ (Tag.params t !! "is_signage" = None ->
             b2 = MoreExamples.building)
         /\ (forall old,
               Tag.params t !! "is_signage" = Some old ->
               exists lv2 t2,
                 Building.at_index (Building.levels b2) 0 = inr lv2
                 /\ Building.at_index (Building.tags lv2) 0 = inr t2
                 /\ Tag.params t2 !! "is_signage" = None
                 /\ Tag.params t2 = delete "is_signage" (Tag.params t)).
Proof.
  intros c t.
  apply (add_property_undo_after_redo_tag c MoreExamples.building
           MoreExamples.ground t); reflexivity.
Defined.

Lemma at_index_fails_undefined {A B : Type} (xs : list A) (i : Z)
    (k : A -> error + B) :
  (forall a, k a = inl UndefinedBehavior) ->
  (a ← Building.at_index xs i; k a) = inl UndefinedBehavior.
Proof.
  intros Hk. unfold Building.at_index, mbind, result_bind.
  destruct (i <? 0); [reflexivity|].
  destruct (xs !! Z.to_nat i); [apply Hk | reflexivity].
Qed.

(** X27: an add-property command made while nothing is selected.  [redo]
    of such a command leaves every building as it is, because it tests the
    recorded index; [undo] does not test it and reads element -1 of the
    vector, which is undefined behaviour, on every building. *)
Theorem add_property_nothing_selected (b : Building.t) (property : string)
    (value : Param.t) (level_idx : Z) (is_tag : bool)
    (c : AddPropertyCommand.t) (lv : Building.Level) :
  AddPropertyCommand.create b property value level_idx is_tag = inr c ->
  Building.at_index (Building.levels b) level_idx = inr lv ->
  (if is_tag
   then forall t, In t (Building.tags lv) -> Tag.selected t = false
   else forall v, In v (vertices (Building.base lv)) ->
                  Vertex.selected v = false) ->
  forall b',
    AddPropertyCommand.redo c b' = inr b'
    /\ AddPropertyCommand.undo c b' = inl UndefinedBehavior.
Proof.
  intros Hc Hlv Hnone b'. unfold AddPropertyCommand.create in Hc.
  rewrite Hlv in Hc. unfold mbind, result_bind in Hc.
  destruct is_tag; injection Hc as <-;
    unfold AddPropertyCommand.redo, AddPropertyCommand.undo;
    cbn [AddPropertyCommand._is_tag AddPropertyCommand._tag_id
         AddPropertyCommand._vert_id AddPropertyCommand._level_idx
         AddPropertyCommand._prop];
    rewrite scan_selected_none by exact Hnone;
    (split; [reflexivity|]);
    apply at_index_fails_undefined; intros lv';
    now rewrite at_index_negative by lia.
Qed.

Lemma add_property_nothing_selected_witness :
  let c := AddPropertyCommand.mk "is_charger" (MoreExamples.flag true) 0
                                 (-1) (-1) false in
  AddPropertyCommand.redo c MoreExamples.building
  = inr MoreExamples.building
  /\ AddPropertyCommand.undo c MoreExamples.building
     = inl UndefinedBehavior.
Proof.
  intros c.
  apply (add_property_nothing_selected (Building.mk [MoreExamples.idle])
           "is_charger" (MoreExamples.flag true) 0 false c
           MoreExamples.idle).
  - reflexivity.
  - reflexivity.
  - simpl. intros v [<-|[]]. reflexivity.
Defined.

(** X28: a move command without a destination.  The constructor leaves
    [_x] and [_y] uninitialised and [has_moved] false; [redo] of the new
    command on the building it was made for finds the tag and reads the
    two members, which is undefined behaviour, until
    [set_final_destination] has been called; after that call [redo]
    returns. *)
Theorem move_tag_redo_needs_destination (b : Building.t)
    (level_idx mouse_tag_idx : Z) (c : MoveTagCommand.t) :
  MoveTagCommand.create b level_idx mouse_tag_idx = inr c ->
  MoveTagCommand.has_moved c = false
  /\ MoveTagCommand.redo c b = inl UndefinedBehavior
  /\ forall x y,
       MoveTagCommand.has_moved (MoveTagCommand.set_final_destination x y c)
       = true
       /\ exists b',
            MoveTagCommand.redo (MoveTagCommand.set_final_destination x y c) b
            = inr b'.
Proof.
  intros Hc. unfold MoveTagCommand.create in Hc.
  destruct (Building.at_index (Building.levels b) level_idx)
    as [|lv] eqn:Hlv; [discriminate|].
  unfold mbind, result_bind in Hc.
  destruct (Building.at_index (Building.tags lv) mouse_tag_idx)
    as [|tag] eqn:Htag; [discriminate|].
  injection Hc as <-. split; [reflexivity|].
  unfold MoveTagCommand.redo.
  cbn [MoveTagCommand._level_idx MoveTagCommand._x MoveTagCommand._y
       MoveTagCommand._to_move MoveTagCommand.set_final_destination
       MoveTagCommand.has_moved].
  rewrite Hlv. unfold mbind, result_bind. split.
  - assert (Hex : existsb (fun t => N.eqb (Tag.uuid t) (Tag.uuid tag))
                          (Building.tags lv) = true).
    { apply existsb_exists. exists tag. split; [|apply N.eqb_refl].
      apply at_index_inr in Htag as [_ Htag].
      now apply list_elem_of_lookup_2, list_elem_of_In in Htag. }
    now rewrite Hex.
  - intros x y. split; [reflexivity|]. eexists. reflexivity.
Qed.

Lemma move_tag_redo_needs_destination_witness :
  let c := MoveTagCommand.mk false 0 MoreExamples.april_tag None None in
  MoveTagCommand.has_moved c = false
  /\ MoveTagCommand.redo c MoreExamples.building = inl UndefinedBehavior
  /\ forall x y,
       MoveTagCommand.has_moved (MoveTagCommand.set_final_destination x y c)
       = true
       /\ exists b',
            MoveTagCommand.redo (MoveTagCommand.set_final_destination x y c)
                                MoreExamples.building
            = inr b'.
Proof.
  intros c.
  apply (move_tag_redo_needs_destination MoreExamples.building 0 1 c).
  reflexivity.
Defined.
